(** * Market-data aggregation pipeline of the screener: model and properties

    The development follows the API handler of the screener
    ([src/pages/index.tsx], second half): the resolver of the instrument
    universe, the retry utility, the indicator engine, the merge of the
    per-symbol results and the snapshot cache.

    Numbers.  A JavaScript number is modelled by [num]: [NaN], the two
    infinities, or a finite value carried as an exact rational.  Division
    by zero, [NaN] propagation and the comparisons (false on [NaN]) are
    those of JavaScript.  Binary64 rounding, overflow and the sign of zero
    are outside the model.  The candle and ticker records hold the result
    of [parseFloat] on the wire strings.  [Math.sqrt] on the finite
    values that are not negative is a parameter [sqrtQ] of the z-score
    and of everything that computes it.

    The exchange.  The exchange is the environment of the handler: how
    each HTTP call settles is given invocation by invocation
    ([SymbolFetch], [Upstream]), and the order in which the promises of a
    batch settle is given with it.

    Time.  [Date.now()] is the integer number of milliseconds that comes
    with each event of a request ([Event]). *)

From Stdlib Require Import String Ascii.
From Stdlib Require Import ZArith QArith Qreduction Lia Lqa List Bool.
From Stdlib Require Import Sorted Permutation.
Import ListNotations.

Set Implicit Arguments.

(* ================================================================== *)
(** ** JavaScript numbers *)
(* ================================================================== *)

Module Num.

Inductive num : Type :=
| NaN
| PInf
| NInf
| Fin (q : Q).

(** Finite results are kept in lowest terms, so that equal values are
    equal terms. *)
Definition fin (q : Q) : num := Fin (Qred q).

Definition ofZ (z : Z) : num := Fin (inject_Z z).
Definition ofNat (n : nat) : num := ofZ (Z.of_nat n).

Definition zero : num := ofZ 0.
Definition one : num := ofZ 1.

Definition Qltb (a b : Q) : bool := negb (Qle_bool b a).

Definition isNaN (x : num) : bool :=
  match x with NaN => true | _ => false end.

Definition isFinite (x : num) : bool :=
  match x with Fin _ => true | _ => false end.

Definition add (x y : num) : num :=
  match x, y with
  | NaN, _ | _, NaN => NaN
  | PInf, NInf | NInf, PInf => NaN
  | PInf, _ | _, PInf => PInf
  | NInf, _ | _, NInf => NInf
  | Fin a, Fin b => fin (a + b)
  end.

Definition sub (x y : num) : num :=
  match x, y with
  | NaN, _ | _, NaN => NaN
  | PInf, PInf | NInf, NInf => NaN
  | PInf, _ | _, NInf => PInf
  | NInf, _ | _, PInf => NInf
  | Fin a, Fin b => fin (a - b)
  end.

(** Sign of an infinity multiplied or divided by a finite value. *)
Definition flip (pos : bool) : num := if pos then PInf else NInf.

Definition mul (x y : num) : num :=
  match x, y with
  | NaN, _ | _, NaN => NaN
  | PInf, PInf | NInf, NInf => PInf
  | PInf, NInf | NInf, PInf => NInf
  | PInf, Fin b | Fin b, PInf =>
      if Qeq_bool b 0 then NaN else flip (Qltb 0 b)
  | NInf, Fin b | Fin b, NInf =>
      if Qeq_bool b 0 then NaN else flip (Qltb b 0)
  | Fin a, Fin b => fin (a * b)
  end.

Definition div (x y : num) : num :=
  match x, y with
  | NaN, _ | _, NaN => NaN
  | PInf, PInf | PInf, NInf | NInf, PInf | NInf, NInf => NaN
  | PInf, Fin b => flip (negb (Qltb b 0))
  | NInf, Fin b => flip (Qltb b 0)
  | Fin _, PInf | Fin _, NInf => zero
  | Fin a, Fin b =>
      if Qeq_bool b 0
      then (if Qeq_bool a 0 then NaN else flip (Qltb 0 a))
      else fin (a / b)
  end.

(** [x < y]; false as soon as one side is [NaN]. *)
Definition ltb (x y : num) : bool :=
  match x, y with
  | NaN, _ | _, NaN => false
  | _, NInf => false
  | PInf, _ => false
  | NInf, _ => true
  | Fin _, PInf => true
  | Fin a, Fin b => Qltb a b
  end.

Definition gtb (x y : num) : bool := ltb y x.

(** [x <= y]; false as soon as one side is [NaN]. *)
Definition leb (x y : num) : bool :=
  match x, y with
  | NaN, _ | _, NaN => false
  | NInf, _ => true
  | _, PInf => true
  | _, NInf => false
  | PInf, _ => false
  | Fin a, Fin b => Qle_bool a b
  end.

Definition geb (x y : num) : bool := leb y x.

(** [!x] on a number: true on [NaN] and on zero. *)
Definition falsy (x : num) : bool :=
  match x with
  | NaN => true
  | Fin a => Qeq_bool a 0
  | _ => false
  end.

(** [Math.pow(x, n)] for a natural exponent. *)
Fixpoint pow (x : num) (n : nat) : num :=
  match n with
  | O => one
  | S n' => mul x (pow x n')
  end.

(** [xs.reduce((sum, val) => sum + val, 0)] *)
Definition sum (xs : list num) : num := fold_left add xs zero.

End Num.

Import Num.

Declare Scope num_scope.
Delimit Scope num_scope with num.
Bind Scope num_scope with num.
Infix "+" := add : num_scope.
Infix "-" := sub : num_scope.
Infix "*" := mul : num_scope.
Infix "/" := div : num_scope.
Infix "<?" := ltb : num_scope.
Infix ">?" := gtb : num_scope.
Infix "<=?" := leb : num_scope.
Infix ">=?" := geb : num_scope.

(* ================================================================== *)
(** ** Wire data *)
(* ================================================================== *)

(** [BinanceKline]: one row of the candle endpoint; the price and volume
    columns hold [parseFloat(kline[i])]. *)
Record Kline : Type := mkKline {
  openTime : Z;
  openPrice : num;   (* kline[1] *)
  high : num;        (* kline[2] *)
  low : num;         (* kline[3] *)
  close : num;       (* kline[4] *)
  kvolume : num;     (* kline[5] *)
  closeTime : Z
}.

(** [BinanceTicker], with [lastPrice] and [quoteVolume] already through
    [parseFloat]. *)
Record Ticker : Type := mkTicker {
  tsymbol : string;
  lastPrice : num;
  quoteVolume : num
}.

(** One entry of [BinanceExchangeInfo.symbols]. *)
Record SymbolInfo : Type := mkSymbolInfo {
  isymbol : string;
  status : string;
  contractType : string
}.

(** [CryptoData], the record the handler publishes. *)
Record CryptoData : Type := mkCryptoData {
  symbol : string;
  currentPrice : num;
  dailyReturn : num;
  weeklyReturn : num;
  monthlyReturn : num;
  volume : num;
  vwap7d : num;
  vwapDistance7d : num;
  vwap30d : num;
  vwapDistance30d : num;
  vwap90d : num;
  vwapDistance90d : num;
  vwap365d : num;
  vwapDistance365d : num;
  ema2004h : num;
  ema200Distance4h : num;
  ema2001d : num;
  ema200Distance1d : num;
  zScore : option num;
  oiChange24h : option num;
  oiChange7d : option num
}.

(* ================================================================== *)
(** ** Indicator engine *)
(* ================================================================== *)

Module Indicators.

(** [parseFloat(klines[i][4])].  Every use in the handler is guarded by
    a test on [klines.length]; outside the array the model answers
    [NaN]. *)
Definition closeAt (klines : list Kline) (i : nat) : num :=
  match nth_error klines i with
  | Some k => close k
  | None => NaN
  end.

(** [xs.slice(-n)]: the last [n] elements, the whole array when [n] is
    zero or exceeds the length. *)
Definition sliceLast (A : Type) (n : nat) (xs : list A) : list A :=
  match n with
  | O => xs
  | _ => skipn (length xs - n) xs
  end.

Definition hundred : num := ofZ 100.

(** [((currentPrice - c) / c) * 100] *)
Definition pctChange (price c : num) : num :=
  (((price - c) / c) * hundred)%num.

(** The three rolling returns of the handler ([dailyReturn],
    [weeklyReturn], [monthlyReturn]), each with the length test and the
    index the source has. *)
Definition calcDailyReturn (price : num) (klines : list Kline) : num :=
  if (2 <=? length klines)%nat
  then pctChange price (closeAt klines (length klines - 2))
  else zero.

Definition calcWeeklyReturn (price : num) (klines : list Kline) : num :=
  if (8 <=? length klines)%nat
  then pctChange price (closeAt klines (length klines - 8))
  else zero.

Definition calcMonthlyReturn (price : num) (klines : list Kline) : num :=
  if (30 <=? length klines)%nat
  then pctChange price (closeAt klines (length klines - 30))
  else zero.

(** *** VWAP *)

Record Vwap : Type := mkVwap { vwap : num; distance : num }.

Definition typicalPrice (k : Kline) : num :=
  ((high k + low k + close k) / ofZ 3)%num.

(** The two accumulators of the loop of [calculateVWAP]. *)
Definition totalPriceVolume (period : list Kline) : num :=
  fold_left (fun acc k => (acc + typicalPrice k * kvolume k)%num) period zero.

Definition totalVolume (period : list Kline) : num :=
  fold_left (fun acc k => (acc + kvolume k)%num) period zero.

Definition calculateVWAP (price : num) (klines : list Kline) (days : nat)
    : Vwap :=
  let periodKlines := sliceLast days klines in
  let tpv := totalPriceVolume periodKlines in
  let tv := totalVolume periodKlines in
  let v := if (tv >? zero)%num then (tpv / tv)%num else price in
  let d := if (v >? zero)%num then pctChange price v else zero in
  mkVwap v d.

(** *** EMA *)

Definition validClose (k : Kline) : bool :=
  negb (isNaN (close k)) && (close k >? zero)%num && isFinite (close k).

Definition smoothing (period : nat) : num :=
  (ofZ 2 / ofNat (period + 1))%num.

Definition emaStep (k : num) (ema c : num) : num :=
  (c * k + ema * (one - k))%num.

(** [calculateEMA(klines, period)]; [None] stands for the [TypeError] of
    [validKlines[0][4]] on an empty [validKlines], which the callers
    catch. *)
Definition calculateEMA (price : num) (klines : list Kline) (period : nat)
    : option num :=
  if (length klines <? period)%nat then Some price
  else
    let validKlines := filter validClose klines in
    if (length validKlines <? period)%nat then Some price
    else
      match validKlines with
      | [] => None
      | first :: rest =>
          let ema :=
            fold_left (emaStep (smoothing period)) (map close rest)
                      (close first) in
          if isNaN ema || (ema <=? zero)%num || negb (isFinite ema)
          then Some price
          else Some ema
      end.

(** *** Z-score *)

Section ZScore.

(** [Math.sqrt] on the non-negative rationals: any function; the
    properties below hold whatever approximation it is. *)
Variable sqrtQ : Q -> Q.

Definition sqrt (x : num) : num :=
  match x with
  | NaN | NInf => NaN
  | PInf => PInf
  | Fin q => if Qltb q 0 then NaN else fin (sqrtQ q)
  end.

(** The loop over [recentKlines] that pushes one return per pair of
    consecutive candles with valid closes. *)
Fixpoint historicalReturns (recent : list Kline) : list num :=
  match recent with
  | prev :: (curr :: _) as tl =>
      let prevClose := close prev in
      let currClose := close curr in
      if (prevClose >? zero)%num && (currClose >? zero)%num
         && negb (isNaN prevClose) && negb (isNaN currClose)
      then pctChange currClose prevClose :: historicalReturns tl
      else historicalReturns tl
  | _ => []
  end.

Definition mean (xs : list num) : num :=
  (sum xs / ofNat (length xs))%num.

Definition variance (xs : list num) : num :=
  (fold_left (fun acc val => (acc + pow (val - mean xs) 2)%num) xs zero
   / ofNat (length xs))%num.

Definition stdDev (xs : list num) : num := sqrt (variance xs).

Definition todayReturn (price : num) (klines : list Kline)
    (daily : num) : num :=
  let lastCandleClose := closeAt klines (length klines - 1) in
  if (lastCandleClose >? zero)%num
  then pctChange price lastCandleClose
  else daily.

Definition calcZScore (price : num) (klines : list Kline) (daily : num)
    : option num :=
  if (31 <=? length klines)%nat then
    let rets := historicalReturns (sliceLast 31 klines) in
    if (30 <=? length rets)%nat then
      let m := mean rets in
      let sd := stdDev rets in
      let today := todayReturn price klines daily in
      if (sd >? zero)%num && negb (isNaN m) && negb (isNaN sd)
         && negb (isNaN today)
      then Some ((m - today) / sd)%num
      else None
    else None
  else None.

End ZScore.

End Indicators.

(* ================================================================== *)
(** ** Retry with backoff *)
(* ================================================================== *)

Module Retry.

(** What the handler reads of a rejected call: [error?.response?.status]
    and [error?.response?.headers?.['retry-after']].  The header, when it
    is there and truthy, is kept as the value [parseInt] gives for it
    (possibly [NaN]). *)
Record HttpError : Type := mkHttpError {
  errStatus : option Z;
  retryAfterHeader : option num
}.

(** One settlement of the wrapped call [fn()]. *)
Inductive Outcome (T : Type) : Type :=
| Resolved (v : T)
| Rejected (e : HttpError).
Arguments Rejected {T} e.

(** How a call of [retryWithBackoff] ends: with the value of [fn], with a
    rethrown error, or through the [return null] that follows the loop. *)
Inductive Completion (T : Type) : Type :=
| Returned (v : T)
| Thrown (e : HttpError)
| ReturnedNull.
Arguments Thrown {T} e.
Arguments ReturnedNull {T}.

(** A finished call and its effects: the arguments of the [delay] calls
    in order and the number of times [fn] was invoked. *)
Record Run (T : Type) : Type := mkRun {
  completion : Completion T;
  delays : list num;
  calls : nat
}.

Definition isRateLimit (e : HttpError) : bool :=
  match errStatus e with
  | Some s => (s =? 429)%Z
  | None => false
  end.

(** The value bound to [retryAfter] inside the [catch]. *)
Definition retryDelay (baseDelay : num) (attempt : nat) (e : HttpError)
    : num :=
  match retryAfterHeader e with
  | Some seconds => (seconds * ofZ 1000)%num
  | None => (baseDelay * pow (ofZ 2) attempt)%num
  end.

Section Loop.

Variable T : Type.

(** The wrapped call is effectful: [fn k] is how its invocation number
    [k] (from 0) settles. *)
Variable fn : nat -> Outcome T.
Variable maxRetries : nat.
Variable baseDelay : num.

(** The [for] loop, [remaining] iterations before [attempt] reaches
    [maxRetries]. *)
Fixpoint loop (remaining attempt : nat) : Run T :=
  match remaining with
  | O => mkRun ReturnedNull [] 0
  | S remaining' =>
      match fn attempt with
      | Resolved v => mkRun (Returned v) [] 1
      | Rejected e =>
          if isRateLimit e
             && (Z.of_nat attempt <? Z.of_nat maxRetries - 1)%Z
          then
            let rest := loop remaining' (S attempt) in
            mkRun (completion rest)
                  (retryDelay baseDelay attempt e :: delays rest)
                  (S (calls rest))
          else mkRun (Thrown e) [] 1
      end
  end.

Definition retryWithBackoff : Run T := loop maxRetries 0.

End Loop.

(** The default arguments [maxRetries = 3], [baseDelay = 1000]. *)
Definition defaultMaxRetries : nat := 3.
Definition defaultBaseDelay : num := ofZ 1000.

Definition retryWithBackoffDefault (T : Type) (fn : nat -> Outcome T)
    : Run T :=
  retryWithBackoff fn defaultMaxRetries defaultBaseDelay.

End Retry.

(* ================================================================== *)
(** ** Array operations of the language *)
(* ================================================================== *)

Module JsArray.

Section Sort.

Variable A : Type.

(** The comparator handed to [sort]; [cmp a b > 0] asks for [b] before
    [a]. *)
Variable cmp : A -> A -> num.

(** [Array.prototype.sort] is stable.  Each element, taken from the
    right, goes in front of the first element it need not follow, so
    elements the comparator does not separate keep their order. *)
Fixpoint insert (x : A) (sorted : list A) : list A :=
  match sorted with
  | [] => [x]
  | y :: rest =>
      if (cmp x y >? zero)%num
      then y :: insert x rest
      else x :: y :: rest
  end.

Definition sort (xs : list A) : list A := fold_right insert [] xs.

End Sort.

(** [xs.slice(i, j)] for [0 <= i <= j]. *)
Definition slice (A : Type) (i j : nat) (xs : list A) : list A :=
  firstn (j - i) (skipn i xs).

(** [s.endsWith(suffix)] *)
Definition endsWith (s suffix : string) : bool :=
  let n := String.length s in
  let m := String.length suffix in
  if (m <=? n)%nat
  then String.eqb (substring (n - m) m s) suffix
  else false.

End JsArray.

(* ================================================================== *)
(** ** Instrument universe *)
(* ================================================================== *)

Module Universe.

Import JsArray.

Definition isActivePerpetual (i : SymbolInfo) : bool :=
  String.eqb (status i) "TRADING"
  && String.eqb (contractType i) "PERPETUAL"
  && endsWith (isymbol i) "USDT".

(** [activeSymbols]: the [Set] is only queried with [has], and is kept
    as the list of its elements. *)
Definition activeSymbols (info : list SymbolInfo) : list string :=
  map isymbol (filter isActivePerpetual info).

Definition has (set : list string) (s : string) : bool :=
  existsb (String.eqb s) set.

Definition eligible (active : list string) (ticker : Ticker) : bool :=
  let isActive := has active (tsymbol ticker) in
  let hasVolume := (quoteVolume ticker >? zero)%num in
  let hasPrice := (lastPrice ticker >? zero)%num in
  let isValidPrice := negb (isNaN (lastPrice ticker)) in
  isActive && hasVolume && hasPrice && isValidPrice.

Definition byQuoteVolume (a b : Ticker) : num :=
  (quoteVolume b - quoteVolume a)%num.

Definition usdtPairs (info : list SymbolInfo) (tickers : list Ticker)
    : list Ticker :=
  slice 0 100
    (sort byQuoteVolume (filter (eligible (activeSymbols info)) tickers)).

End Universe.

(* ================================================================== *)
(** ** Per-symbol computation and merge *)
(* ================================================================== *)

Module Pipeline.

Import JsArray Retry Indicators.

(** An axios response; [data] may be missing. *)
Record AxiosResponse (D : Type) : Type := mkAxiosResponse {
  httpStatus : Z;
  data : option D
}.

(** What the exchange answers for one symbol during one run: how each
    wrapped call settles, invocation by invocation.  The open-interest
    history block only assigns [oiChange24h] and [oiChange7d]; the pair
    it would assign, once the current open interest is known, is taken as
    given. *)
Record SymbolFetch : Type := mkSymbolFetch {
  fetchKlines1d : nat -> Outcome (AxiosResponse (list Kline));
  fetchKlines4h : nat -> Outcome (AxiosResponse (list Kline));
  fetchOpenInterest : nat -> Outcome (AxiosResponse num);
  oiHistoryChanges : option num * option num
}.

Definition BATCH_SIZE : nat := 25.
Definition minVolume : num := ofZ 10000.

(** [close > 0 && !isNaN(close)] *)
Definition positiveClose (k : Kline) : bool :=
  (close k >? zero)%num && negb (isNaN (close k)).

(** [response.value.data || []] for a fulfilled, non-null response. *)
Definition dataOrEmpty (D : Type) (r : AxiosResponse (list D)) : list D :=
  match data r with
  | Some rows => rows
  | None => []
  end.

(** The three ways the fetch of the current open interest ends in the
    handler: a response in [currentOIResponse], the branch
    [if (!currentOIResponse)], or the [catch]. *)
Inductive CurrentOI : Type :=
| OIResponse (r : AxiosResponse num)
| OINullBranch
| OICaught.

Definition fetchCurrentOI (f : SymbolFetch) : CurrentOI :=
  match completion (retryWithBackoff (fetchOpenInterest f) 2 (ofZ 500)) with
  | Returned r => OIResponse r
  | ReturnedNull => OINullBranch
  | Thrown _ => OICaught
  end.

Definition oiChanges (f : SymbolFetch) : option num * option num :=
  match fetchCurrentOI f with
  | OIResponse r =>
      let currentOI := match data r with Some x => x | None => NaN end in
      if (currentOI >? zero)%num && negb (isNaN currentOI)
      then oiHistoryChanges f
      else (None, None)
  | OINullBranch | OICaught => (None, None)
  end.

Section WithSqrt.

Variable sqrtQ : Q -> Q.

(** [ema2004h] and [priceFor4hDistance]. *)
Definition ema4h (price : num) (klines4h : list Kline) : num * num :=
  let hasValidKlines4h :=
    (0 <? length klines4h)%nat && existsb positiveClose klines4h in
  if hasValidKlines4h && (200 <=? length klines4h)%nat then
    match calculateEMA price klines4h 200 with
    | Some ema =>
        let last4hClose := closeAt klines4h (length klines4h - 1) in
        (ema,
         if negb (isNaN last4hClose) && (last4hClose >? zero)%num
         then last4hClose else price)
    | None => (price, price)
    end
  else (price, price).

(** [ema2001d] and [priceFor1dDistance]. *)
Definition ema1d (price : num) (klines : list Kline) : num * num :=
  match calculateEMA price klines 200 with
  | Some ema =>
      let last1dClose := closeAt klines (length klines - 1) in
      (ema,
       if negb (isNaN last1dClose) && (last1dClose >? zero)%num
       then last1dClose else price)
  | None => (price, price)
  end.

Definition emaDistance (ema ref : num) : num :=
  if (ema >? zero)%num then pctChange ref ema else zero.

(** The body of [batch.map(async (ticker) => ...)] once both candle
    series are at hand; [None] is its [return null]. *)
Definition computeRecord (ticker : Ticker) (klines klines4h : list Kline)
    (oi : option num * option num) : option CryptoData :=
  let price := lastPrice ticker in
  let vol := quoteVolume ticker in
  if (length klines =? 0)%nat then None
  else if negb (existsb positiveClose klines) then None
  else
    let daily := calcDailyReturn price klines in
    let weekly := calcWeeklyReturn price klines in
    let monthly := calcMonthlyReturn price klines in
    let v7 := calculateVWAP price klines 7 in
    let v30 := calculateVWAP price klines 30 in
    let v90 := calculateVWAP price klines 90 in
    let v365 := calculateVWAP price klines 365 in
    let '(e4h, ref4h) := ema4h price klines4h in
    let '(e1d, ref1d) := ema1d price klines in
    let z := calcZScore sqrtQ price klines daily in
    let hasMinVolume := (vol >=? minVolume)%num in
    let hasRecentData :=
      if (2 <=? length klines)%nat
      then
        let yesterdayClose := closeAt klines (length klines - 2) in
        (yesterdayClose >? zero)%num && negb (isNaN yesterdayClose)
      else false in
    if negb hasMinVolume || negb hasRecentData then None
    else
      Some (mkCryptoData (tsymbol ticker) price daily weekly monthly vol
              (vwap v7) (distance v7) (vwap v30) (distance v30)
              (vwap v90) (distance v90) (vwap v365) (distance v365)
              e4h (emaDistance e4h ref4h) e1d (emaDistance e1d ref1d)
              z (fst oi) (snd oi)).

(** One task of a batch: the price check, the two candle fetches through
    [retryWithBackoff] under [Promise.allSettled], then the record. *)
Definition processTicker (ticker : Ticker) (f : SymbolFetch)
    : option CryptoData :=
  let price := lastPrice ticker in
  if falsy price || (price <=? zero)%num || isNaN price then None
  else
    match completion (retryWithBackoffDefault (fetchKlines1d f)) with
    | Returned klinesResponse =>
        let klines := dataOrEmpty klinesResponse in
        let klines4h :=
          match completion (retryWithBackoffDefault (fetchKlines4h f)) with
          | Returned klines4hResponse => dataOrEmpty klines4hResponse
          | _ => []
          end in
        computeRecord ticker klines klines4h (oiChanges f)
    | _ => None
    end.

(** [Promise.allSettled(promises)]: the promises settle in some order,
    each into the slot of its index; the array is read once every slot is
    filled. *)
Fixpoint setSlot (A : Type) (j : nat) (v : A) (slots : list (option A))
    : list (option A) :=
  match slots, j with
  | [], _ => []
  | _ :: rest, O => Some v :: rest
  | s :: rest, S j' => s :: setSlot j' v rest
  end.

Definition allSettled (A : Type) (order : list nat) (promises : list A)
    : list (option A) :=
  fold_left
    (fun slots j =>
       match nth_error promises j with
       | Some v => setSlot j v slots
       | None => slots
       end)
    order (repeat None (length promises)).

(** The results that are fulfilled and not null. *)
Definition successful (results : list (option (option CryptoData)))
    : list CryptoData :=
  flat_map
    (fun slot => match slot with Some (Some r) => [r] | _ => [] end)
    results.

(** The batch loop; [order i] is the order in which the tasks of the
    batch starting at [i] settle.  [fuel] bounds the iterations. *)
Fixpoint batchLoop (fuel : nat) (order : nat -> list nat)
    (tasks : list (Ticker * SymbolFetch)) (i : nat)
    (cryptoDataResults : list CryptoData) : list CryptoData :=
  match fuel with
  | O => cryptoDataResults
  | S fuel' =>
      if (i <? length tasks)%nat then
        let batch := slice i (i + BATCH_SIZE) tasks in
        let batchPromises :=
          map (fun task => processTicker (fst task) (snd task)) batch in
        let batchResults := allSettled (order i) batchPromises in
        batchLoop fuel' order tasks (i + BATCH_SIZE)
                  (cryptoDataResults ++ successful batchResults)
      else cryptoDataResults
  end.

Definition byVolume (a b : CryptoData) : num := (volume b - volume a)%num.

(** From the ranked tickers to the sorted record set. *)
Definition cryptoData (order : nat -> list nat)
    (tasks : list (Ticker * SymbolFetch)) : list CryptoData :=
  sort byVolume (batchLoop (length tasks) order tasks 0 []).

End WithSqrt.

End Pipeline.

(* ================================================================== *)
(** ** Handler and snapshot cache *)
(* ================================================================== *)

Module Handler.

Import JsArray Retry Universe Pipeline.

Record CacheEntry : Type := mkCacheEntry {
  entryData : list CryptoData;
  timestamp : Z
}.

(** The module-level [Map] is only used at the key ['crypto-data']; it is
    kept as the entry under that key, if any. *)
Definition Cache : Type := option CacheEntry.

Definition CACHE_TTL : Z := 2 * 60 * 1000.

(** [cached && (now - cached.timestamp) < CACHE_TTL] *)
Definition cacheHit (cache : Cache) (now : Z) : option (list CryptoData) :=
  match cache with
  | Some cached =>
      if (now - timestamp cached <? CACHE_TTL)%Z
      then Some (entryData cached)
      else None
  | None => None
  end.

Inductive Reply : Type :=
| Ok200 (body : list CryptoData)
| TooManyRequests429
| ServerError500.

(** Everything the exchange answers during one run of the pipeline. *)
Record Upstream : Type := mkUpstream {
  exchangeInfoResponse : Outcome (list SymbolInfo);
  tickersResponse : Outcome (list Ticker);
  fetches : nat -> SymbolFetch;      (* for the i-th ranked ticker *)
  completionOrder : nat -> list nat  (* per batch, see [batchLoop] *)
}.

Section WithSqrt.

Variable sqrtQ : Q -> Q.

Definition tasksOf (u : Upstream) (pairs : list Ticker)
    : list (Ticker * SymbolFetch) :=
  combine pairs (map (fetches u) (seq 0 (length pairs))).

(** The handler past the cache test, up to its reply.  A rejected
    metadata or ticker call answers 429 on a rate limit and is otherwise
    rethrown to the outer [catch], which answers 500. *)
Definition runPipeline (u : Upstream) : Reply :=
  match exchangeInfoResponse u with
  | Rejected e =>
      if isRateLimit e then TooManyRequests429 else ServerError500
  | Resolved info =>
      match tickersResponse u with
      | Rejected e =>
          if isRateLimit e then TooManyRequests429 else ServerError500
      | Resolved tickers =>
          let pairs := usdtPairs info tickers in
          let records :=
            cryptoData sqrtQ (completionOrder u) (tasksOf u pairs) in
          if (length records =? 0)%nat then ServerError500
          else Ok200 records
      end
  end.

(** *** Requests in flight

    The handler touches the cache twice: at its start, before the first
    [await], and in its last synchronous stretch, from the end of the
    batch loop to [cache.set] and the reply.  Between the two it only
    waits for the exchange.  Concurrent requests therefore interleave as
    a sequence of such stretches. *)

Record Server : Type := mkServer {
  cache : Cache;
  inFlight : list (nat * Upstream);  (* requests past the cache test *)
  replies : list (nat * Reply);      (* in the order they were sent *)
  pipelineRuns : nat                 (* pipeline executions started *)
}.

Definition idle : Server := mkServer None [] [] 0.

Inductive Event : Type :=
| Arrive (id : nat) (now : Z) (u : Upstream)
| Finish (id : nat) (now : Z).

Fixpoint takeRequest (id : nat) (reqs : list (nat * Upstream))
    : option (Upstream * list (nat * Upstream)) :=
  match reqs with
  | [] => None
  | (id', u) :: rest =>
      if (id =? id')%nat then Some (u, rest)
      else
        match takeRequest id rest with
        | Some (found, others) => Some (found, (id', u) :: others)
        | None => None
        end
  end.

Definition step (s : Server) (ev : Event) : Server :=
  match ev with
  | Arrive id now u =>
      match cacheHit (cache s) now with
      | Some body =>
          mkServer (cache s) (inFlight s)
                   (replies s ++ [(id, Ok200 body)]) (pipelineRuns s)
      | None =>
          mkServer (cache s) (inFlight s ++ [(id, u)])
                   (replies s) (S (pipelineRuns s))
      end
  | Finish id now =>
      match takeRequest id (inFlight s) with
      | Some (u, others) =>
          match runPipeline u with
          | Ok200 records =>
              mkServer (Some (mkCacheEntry records now)) others
                       (replies s ++ [(id, Ok200 records)])
                       (pipelineRuns s)
          | failure =>
              mkServer (cache s) others
                       (replies s ++ [(id, failure)]) (pipelineRuns s)
          end
      | None => s
      end
  end.

Definition run (s : Server) (events : list Event) : Server :=
  fold_left step events s.

Definition replyTo (s : Server) (id : nat) : option Reply :=
  match find (fun r => (fst r =? id)%nat) (replies s) with
  | Some r => Some (snd r)
  | None => None
  end.

End WithSqrt.

End Handler.

(* ================================================================== *)
(** ** Market data as the exchange sends it *)
(* ================================================================== *)

Module Market.

(** A finite, strictly positive number. *)
Definition positiveFinite (x : num) : bool :=
  isFinite x && (x >? zero)%num.

(** A finite number that is not negative. *)
Definition nonNegativeFinite (x : num) : bool :=
  isFinite x && (x >=? zero)%num.

(** A candle with finite positive prices and a finite volume that is not
    negative. *)
Definition marketCandle (k : Kline) : bool :=
  positiveFinite (high k) && positiveFinite (low k)
  && positiveFinite (close k) && nonNegativeFinite (kvolume k).

End Market.

(* ================================================================== *)
(** ** Vocabulary of the properties *)
(* ================================================================== *)

Module Laws.

Import JsArray Retry Indicators Universe Pipeline Handler.

Section ByKey.

Variable A : Type.
Variable key : A -> num.

(** Both comparators of the handler are [(a, b) => key(b) - key(a)]. *)
Definition descending (a b : A) : num := (key b - key a)%num.

(** [a] may stand before [b]. *)
Definition notBelow (a b : A) : Prop := (key b <=? key a)%num = true.

(** A group of elements none of which is strictly below another. *)
Definition tied (group : A -> bool) : Prop :=
  forall a b, group a = true -> group b = true ->
              (key a <? key b)%num = false.

End ByKey.

(** The records of the tasks that did not return null, in the order of
    the tasks. *)
Definition kept (results : list (option CryptoData)) : list CryptoData :=
  flat_map (fun r => match r with Some x => [x] | None => [] end) results.

Definition outcomes (sqrtQ : Q -> Q) (tasks : list (Ticker * SymbolFetch))
    : list (option CryptoData) :=
  map (fun task => processTicker sqrtQ (fst task) (snd task)) tasks.

Definition merged (sqrtQ : Q -> Q) (tasks : list (Ticker * SymbolFetch))
    : list CryptoData :=
  kept (outcomes sqrtQ tasks).

(** The tasks of every batch settle, in some order: [order i], for each
    batch start [i], lists the indices of the batch once each. *)
Definition completes (order : nat -> list nat)
    (tasks : list (Ticker * SymbolFetch)) : Prop :=
  forall b,
    Permutation
      (order (b * BATCH_SIZE)%nat)
      (seq 0 (length (slice (b * BATCH_SIZE)
                            (b * BATCH_SIZE + BATCH_SIZE) tasks))).

(** What the gate at the end of the task of [ticker], fed by [f],
    guarantees of the record [r] the task returns: the record carries
    the symbol and the 24h quote volume of the ticker, that volume
    reaches the floor, and the daily candles the task fetched number at
    least two, the last but one closing at a number above zero. *)
Definition passesGate (ticker : Ticker) (f : SymbolFetch) (r : CryptoData)
    : Prop :=
  symbol r = tsymbol ticker
  /\ volume r = quoteVolume ticker
  /\ (volume r >=? minVolume)%num = true
  /\ (volume r <? minVolume)%num = false
  /\ exists klinesResponse,
       completion (retryWithBackoffDefault (fetchKlines1d f))
       = Returned klinesResponse
       /\ let klines := dataOrEmpty klinesResponse in
          (2 <= length klines)%nat
          /\ (closeAt klines (length klines - 2) >? zero)%num = true
          /\ isNaN (closeAt klines (length klines - 2)) = false.

(** The record [r] is what the task of the [i]-th ticker of the universe
    returns in the run fed by [u], and it passes the gate of that
    task. *)
Definition recordOf (sqrtQ : Q -> Q) (u : Upstream) (r : CryptoData)
    : Prop :=
  exists info tickers i ticker,
    exchangeInfoResponse u = Resolved info
    /\ tickersResponse u = Resolved tickers
    /\ nth_error (usdtPairs info tickers) i = Some ticker
    /\ processTicker sqrtQ ticker (fetches u i) = Some r
    /\ passesGate ticker (fetches u i) r.

(** The task of [ticker], fed by [f], fails the gate: the 24h quote
    volume is below the floor, or the daily candles it fetches lack a
    last-but-one close that is a number above zero. *)
Definition failsGate (ticker : Ticker) (f : SymbolFetch) : Prop :=
  (quoteVolume ticker <? minVolume)%num = true
  \/ forall klinesResponse,
       completion (retryWithBackoffDefault (fetchKlines1d f))
       = Returned klinesResponse ->
       let klines := dataOrEmpty klinesResponse in
       (length klines < 2)%nat
       \/ (closeAt klines (length klines - 2) >? zero)%num = false
       \/ isNaN (closeAt klines (length klines - 2)) = true.

(** C8 as the specification states it: whatever the exchange answers,
    the record set of a run whose tasks all settle lists no symbol twice
    and is in descending order of volume. *)
Definition uniqueAndSorted (sqrtQ : Q -> Q) : Prop :=
  forall u info tickers records,
    exchangeInfoResponse u = Resolved info ->
    tickersResponse u = Resolved tickers ->
    completes (completionOrder u) (tasksOf u (usdtPairs info tickers)) ->
    runPipeline sqrtQ u = Ok200 records ->
    NoDup (map symbol records)
    /\ StronglySorted
         (fun a b => (volume b <=? volume a)%num = true) records.

Definition eventId (ev : Event) : nat :=
  match ev with Arrive id _ _ | Finish id _ => id end.

(** An arrival while [entry] is less than the TTL old. *)
Definition arrivesWithin (entry : CacheEntry) (ev : Event) : Prop :=
  match ev with
  | Arrive _ now _ => (now - timestamp entry < CACHE_TTL)%Z
  | Finish _ _ => False
  end.

(** Every request in flight is one that arrived, and the cached record
    set and every record set sent are the result of the run of a request
    that arrived. *)
Definition served (sqrtQ : Q -> Q) (events : list Event) (s : Server)
    : Prop :=
  (forall id u, In (id, u) (inFlight s) ->
     exists now, In (Arrive id now u) events)
  /\ (forall entry, cache s = Some entry ->
        exists id now u,
          In (Arrive id now u) events
          /\ runPipeline sqrtQ u = Ok200 (entryData entry))
  /\ (forall id body, In (id, Ok200 body) (replies s) ->
        exists id' now u,
          In (Arrive id' now u) events
          /\ runPipeline sqrtQ u = Ok200 body).

(** C6 as the specification states it: once a run has succeeded at
    [t0] and filled the cache, any two requests arriving within the TTL
    after [t0] receive the same reply. *)
Definition servesIdenticalData (sqrtQ : Q -> Q) : Prop :=
  forall before id0 t0 body after id1 now1 u1 id2 now2 u2,
    let s0 := run sqrtQ idle (before ++ [Finish id0 t0]) in
    In (id0, Ok200 body) (replies s0) ->
    cache s0 = Some (mkCacheEntry body t0) ->
    In (Arrive id1 now1 u1) after ->
    In (Arrive id2 now2 u2) after ->
    (t0 <= now1 < t0 + CACHE_TTL)%Z ->
    (t0 <= now2 < t0 + CACHE_TTL)%Z ->
    replyTo (run sqrtQ s0 after) id1 = replyTo (run sqrtQ s0 after) id2.

End Laws.

(* ================================================================== *)
(** ** Sample inputs *)
(* ================================================================== *)

Module Samples.

Import Retry Pipeline Handler.

(** A candle whose prices all equal [c], with volume [v]. *)
Definition candleV (c v : Z) : Kline :=
  mkKline 0 (ofZ c) (ofZ c) (ofZ c) (ofZ c) (ofZ v) 0.

Definition candle (c : Z) : Kline := candleV c 1.

(** Thirty daily candles closing at 100. *)
Definition flat30 : list Kline := repeat (candle 100) 30.

(** Thirty-one daily candles: 100, then 200, then 100 twenty-nine
    times. *)
Definition bump31 : list Kline :=
  candle 100 :: candle 200 :: repeat (candle 100) 29.

(** Three daily candles with volumes 2, 0 and 1. *)
Definition threeDays : list Kline :=
  [candleV 100 2; candleV 104 0; candleV 110 1].

Definition rateLimited : HttpError := mkHttpError (Some 429%Z) None.
Definition serverError : HttpError := mkHttpError (Some 500%Z) None.

(** A call that is always answered 429, without retry-after header. *)
Definition alwaysRateLimited : nat -> Outcome nat :=
  fun _ => Rejected rateLimited.

(** A rational approximation of the square root: the integer square
    root of numerator times denominator, over the denominator. *)
Definition sqrtFloor (q : Q) : Q :=
  inject_Z (Z.sqrt (Qnum q * Zpos (Qden q))) / inject_Z (Zpos (Qden q)).

(** [n] daily candles closing in turn at 100 and 110. *)
Fixpoint zigzag (n : nat) (up : bool) : list Kline :=
  match n with
  | O => []
  | S n' => candle (if up then 110 else 100) :: zigzag n' (negb up)
  end.

Definition zigzag31 : list Kline := zigzag 31 false.

Definition exchangeInfo : list SymbolInfo :=
  [mkSymbolInfo "BTCUSDT" "TRADING" "PERPETUAL";
   mkSymbolInfo "ETHUSDT" "TRADING" "PERPETUAL";
   mkSymbolInfo "OLDUSDT" "SETTLING" "PERPETUAL"].

(** A ticker feed in which BTCUSDT last traded at [btc]. *)
Definition tickersAt (btc : Z) : list Ticker :=
  [mkTicker "ETHUSDT" (ofZ 2000) (ofZ 500000);
   mkTicker "OLDUSDT" (ofZ 1) (ofZ 700000);
   mkTicker "BTCUSDT" (ofZ btc) (ofZ 900000)].

Definition klinesOk (rows : list Kline)
    : nat -> Outcome (AxiosResponse (list Kline)) :=
  fun _ => Resolved (mkAxiosResponse 200 (Some rows)).

(** Candles answered at once, the open interest always rate limited. *)
Definition fetchRateLimitedOI : SymbolFetch :=
  mkSymbolFetch (klinesOk threeDays) (klinesOk [])
                (fun _ => Rejected rateLimited) (None, None).

(** Daily candles answered at once, no 4h candles, open interest down. *)
Definition fetchOf : SymbolFetch :=
  mkSymbolFetch (klinesOk threeDays) (klinesOk [])
                (fun _ => Rejected serverError) (None, None).

(** In the first batch the second task settles before the first. *)
Definition lastFirst (i : nat) : list nat :=
  if (i =? 0)%nat then [1; 0]%nat else [].

Definition inOrder (i : nat) : list nat :=
  if (i =? 0)%nat then [0; 1]%nat else [].

Definition upstreamAt (btc : Z) : Upstream :=
  mkUpstream (Resolved exchangeInfo) (Resolved (tickersAt btc))
             (fun _ => fetchOf) lastFirst.

(** A ticker feed that lists BTCUSDT twice. *)
Definition tickersTwice : list Ticker :=
  [mkTicker "BTCUSDT" (ofZ 40000) (ofZ 900000);
   mkTicker "BTCUSDT" (ofZ 40000) (ofZ 900000)].

Definition upstreamTwice : Upstream :=
  mkUpstream (Resolved exchangeInfo) (Resolved tickersTwice)
             (fun _ => fetchOf) inOrder.

(** Two requests miss the empty cache at times 0 and 1; the first run
    ends at 10, the second at 12; requests 3 and 4 arrive at 11 and
    13. *)
Definition overlappingBefore : list Event :=
  [Arrive 1 0 (upstreamAt 40000); Arrive 2 1 (upstreamAt 41000)].

Definition overlappingAfter : list Event :=
  [Arrive 3 11 (upstreamAt 42000); Finish 2 12;
   Arrive 4 13 (upstreamAt 42000)].

End Samples.

(* ================================================================== *)
(** ** Open-interest history *)
(* ================================================================== *)

(** The block of the handler that follows the fetch of the current open
    interest: the choice of a history endpoint and the two percentage
    changes.  [Pipeline.oiHistoryChanges] is the pair this block
    assigns. *)
Module OpenInterest.

Import Retry Indicators Pipeline.

(** [BinanceOpenInterestHist], with [sumOpenInterest] through
    [parseFloat].  The entries of a history are taken to be objects
    with an integer [timestamp]. *)
Record OpenInterestHist : Type := mkOpenInterestHist {
  sumOpenInterest : num;
  timestamp : Z
}.

(** A field of an object body, as [||] and [Array.isArray] see it: not
    there or falsy, truthy but no array, or an array. *)
Inductive Field : Type :=
| Missing
| NotArray
| Rows (rows : list OpenInterestHist).

(** The truthy body of a history response: an array, or anything else,
    of which only the fields [data] and [result] are read. *)
Inductive HistBody : Type :=
| HistArray (rows : list OpenInterestHist)
| HistObject (dataField resultField : Field).

Record Endpoint : Type := mkEndpoint {
  period : string;
  limit : nat
}.

Definition endpoints : list Endpoint :=
  [mkEndpoint "1h" 200; mkEndpoint "5m" 300; mkEndpoint "1d" 10].

(** [Array.isArray(body) ? body : (body.data || body.result || [])], when
    that value is an array. *)
Definition rowsOf (body : HistBody) : option (list OpenInterestHist) :=
  match body with
  | HistArray rows => Some rows
  | HistObject (Rows rows) _ => Some rows
  | HistObject NotArray _ => None
  | HistObject Missing (Rows rows) => Some rows
  | HistObject Missing NotArray => None
  | HistObject Missing Missing => Some []
  end.

(** The history a response gives: status 200, a truthy body and a
    non-empty array in it. *)
Definition usable (response : AxiosResponse HistBody)
    : option (list OpenInterestHist) :=
  if (httpStatus response =? 200)%Z then
    match data response with
    | Some body =>
        match rowsOf body with
        | Some rows => if (0 <? length rows)%nat then Some rows else None
        | None => None
        end
    | None => None
    end
  else None.

Section History.

(** How the history call for each endpoint settles, invocation by
    invocation.  With [validateStatus] a status below 500 resolves. *)
Variable fetchHistory : Endpoint -> nat -> Outcome (AxiosResponse HistBody).

(** The loop over the endpoints: the first usable history ends it; a
    null response, an unusable one and a thrown error all move on. *)
Fixpoint tryEndpoints (remaining : list Endpoint)
    : option (list OpenInterestHist) :=
  match remaining with
  | [] => None
  | endpoint :: rest =>
      match completion (retryWithBackoffDefault (fetchHistory endpoint)) with
      | Returned response =>
          match usable response with
          | Some rows => Some rows
          | None => tryEndpoints rest
          end
      | ReturnedNull | Thrown _ => tryEndpoints rest
      end
  end.

Definition intervals24h : nat := (24 * 60) / 5.
Definition intervals7d : nat := (7 * 24 * 60) / 5.

(** [!isNaN(oiValue) && oiValue > 0] *)
Definition validOI (oiValue : num) : bool :=
  negb (isNaN oiValue) && (oiValue >? zero)%num.

(** The value read at a fixed index of the history. *)
Definition atInterval (oiHistory : list OpenInterestHist) (intervals : nat)
    : option num :=
  if (intervals <? length oiHistory)%nat then
    match nth_error oiHistory intervals with
    | Some entry =>
        if validOI (sumOpenInterest entry)
        then Some (sumOpenInterest entry) else None
    | None => None
    end
  else None.

Definition tolerance24h : Z := 2 * 60 * 60 * 1000.
Definition tolerance7d : Z := 12 * 60 * 60 * 1000.

(** One turn of the loop over the entries; [found] is the pair
    [(oi24hAgo, oi7dAgo)]. *)
Definition scanEntry (timestamp24hAgo timestamp7dAgo : Z)
    (found : option num * option num) (entry : OpenInterestHist)
    : option num * option num :=
  if (timestamp entry =? 0)%Z then found
  else
    let entryTime := timestamp entry in
    let diff24h := Z.abs (entryTime - timestamp24hAgo) in
    let diff7d := Z.abs (entryTime - timestamp7dAgo) in
    let oi24hAgo :=
      match fst found with
      | None =>
          if (diff24h <? tolerance24h)%Z
             && validOI (sumOpenInterest entry)
          then Some (sumOpenInterest entry) else None
      | Some v => Some v
      end in
    let oi7dAgo :=
      match snd found with
      | None =>
          if (diff7d <? tolerance7d)%Z
             && validOI (sumOpenInterest entry)
          then Some (sumOpenInterest entry) else None
      | Some v => Some v
      end in
    (oi24hAgo, oi7dAgo).

Definition isNull (A : Type) (x : option A) : bool :=
  match x with None => true | Some _ => false end.

(** [oi24hAgo] and [oi7dAgo] once both ways of finding them are
    through. *)
Definition pastOpenInterest (now : Z) (oiHistory : list OpenInterestHist)
    : option num * option num :=
  let timestamp24hAgo := (now - 24 * 60 * 60 * 1000)%Z in
  let timestamp7dAgo := (now - 7 * 24 * 60 * 60 * 1000)%Z in
  let oi24hAgo := atInterval oiHistory intervals24h in
  let oi7dAgo := atInterval oiHistory intervals7d in
  if (isNull oi24hAgo || isNull oi7dAgo) && (0 <? length oiHistory)%nat
  then fold_left (scanEntry timestamp24hAgo timestamp7dAgo) oiHistory
                 (oi24hAgo, oi7dAgo)
  else (oi24hAgo, oi7dAgo).

(** [past !== null && past > 0] guards the percentage. *)
Definition changeSince (currentOI : num) (past : option num) : option num :=
  match past with
  | Some v => if (v >? zero)%num then Some (pctChange currentOI v) else None
  | None => None
  end.

(** The pair [(oiChange24h, oiChange7d)] for a usable current open
    interest. *)
Definition historyChanges (now : Z) (currentOI : num)
    : option num * option num :=
  match tryEndpoints endpoints with
  | Some oiHistory =>
      let found := pastOpenInterest now oiHistory in
      (changeSince currentOI (fst found), changeSince currentOI (snd found))
  | None => (None, None)
  end.

End History.

End OpenInterest.

(* ================================================================== *)
(** ** The [Map] of the language *)
(* ================================================================== *)

(** A [Map] with string keys, as the list of its entries in insertion
    order. *)
Module JsMap.

Section Entries.

Variable V : Type.

Definition t : Type := list (string * V).

Definition empty : t := [].

(** [m.set(k, v)]: a key already there keeps its place. *)
Fixpoint set (m : t) (k : string) (v : V) : t :=
  match m with
  | [] => [(k, v)]
  | (k', v') :: rest =>
      if String.eqb k' k then (k', v) :: rest
      else (k', v') :: set rest k v
  end.

Fixpoint get (m : t) (k : string) : option V :=
  match m with
  | [] => None
  | (k', v') :: rest => if String.eqb k' k then Some v' else get rest k
  end.

Definition size (m : t) : nat := length m.

End Entries.

End JsMap.

(* ================================================================== *)
(** ** Watchlists ([useWatchlists]) *)
(* ================================================================== *)

From Stdlib Require DecimalString.

(** [`${n}`] for an integer [n]. *)
Definition decimal (n : Z) : string :=
  DecimalString.NilZero.string_of_int (Z.to_int n).

Module Watchlists.

Record Watchlist : Type := mkWatchlist {
  wid : string;          (* id *)
  wname : string;        (* name *)
  coins : list string
}.

(** [xs.includes(s)] on an array of strings. *)
Definition includes (xs : list string) (s : string) : bool :=
  existsb (String.eqb s) xs.

(** [createWatchlist(name)] at time [now]; the new list and the id
    returned. *)
Definition createWatchlist (now : Z) (name : string)
    (prev : list Watchlist) : list Watchlist * string :=
  let newWatchlist :=
    mkWatchlist ("watchlist-" ++ decimal now) name [] in
  (prev ++ [newWatchlist], wid newWatchlist).

Definition deleteWatchlist (id : string) (prev : list Watchlist)
    : list Watchlist :=
  filter (fun w => negb (String.eqb (wid w) id)) prev.

Definition renameWatchlist (id newName : string) (prev : list Watchlist)
    : list Watchlist :=
  map (fun w =>
         if String.eqb (wid w) id
         then mkWatchlist (wid w) newName (coins w) else w)
      prev.

Definition addCoinToWatchlist (watchlistId coinSymbol : string)
    (prev : list Watchlist) : list Watchlist :=
  map (fun w =>
         if String.eqb (wid w) watchlistId then
           if includes (coins w) coinSymbol then w
           else mkWatchlist (wid w) (wname w) (coins w ++ [coinSymbol])
         else w)
      prev.

Definition removeCoinFromWatchlist (watchlistId coinSymbol : string)
    (prev : list Watchlist) : list Watchlist :=
  map (fun w =>
         if String.eqb (wid w) watchlistId then
           mkWatchlist (wid w) (wname w)
             (filter (fun c => negb (String.eqb c coinSymbol)) (coins w))
         else w)
      prev.

(** [watchlists.find((w) => w.id === id)] *)
Definition findWatchlist (id : string) (watchlists : list Watchlist)
    : option Watchlist :=
  find (fun w => String.eqb (wid w) id) watchlists.

Definition isCoinInWatchlist (watchlists : list Watchlist)
    (watchlistId coinSymbol : string) : bool :=
  match findWatchlist watchlistId watchlists with
  | Some watchlist => includes (coins watchlist) coinSymbol
  | None => false
  end.

End Watchlists.

(* ================================================================== *)
(** ** Column profiles ([useColumnProfiles]) *)
(* ================================================================== *)

Module ColumnProfiles.

Record ColumnProfile : Type := mkColumnProfile {
  pid : string;                 (* id *)
  pname : string;               (* name *)
  hiddenColumns : list string
}.

(** The two pieces of state of the hook. *)
Record ProfileState : Type := mkProfileState {
  profiles : list ColumnProfile;
  activeProfileId : option string
}.

(** What [localStorage.getItem] and [JSON.parse] give for the profiles:
    no item or an empty string, a string that does not parse, a value
    that is no array, or an array. *)
Inductive Stored : Type :=
| NoItem
| Unparsable
| NotAnArray
| Items (items : list ColumnProfile).

Definition defaultProfile : ColumnProfile :=
  mkColumnProfile "default" "Default" [].

Definition findProfile (id : string) (ps : list ColumnProfile)
    : option ColumnProfile :=
  find (fun p => String.eqb (pid p) id) ps.

(** A string or [null] taken as a condition. *)
Definition truthy (s : option string) : bool :=
  match s with
  | Some x => negb (String.eqb x "")
  | None => false
  end.

Definition isSome (A : Type) (x : option A) : bool :=
  match x with Some _ => true | None => false end.

(** [profilesList[0].id], when there is a first profile. *)
Definition firstId (ps : list ColumnProfile) : option string :=
  match ps with
  | p :: _ => Some (pid p)
  | [] => None
  end.

(** The branch of the mount effect that has a parsed value; the active
    id starts as [null] and stays so when neither test succeeds. *)
Definition loadList (profilesList : list ColumnProfile)
    (storedActive : option string) : ProfileState :=
  mkProfileState profilesList
    (match storedActive with
     | Some a =>
         if truthy storedActive && isSome (findProfile a profilesList)
         then Some a
         else firstId profilesList
     | None => firstId profilesList
     end).

(** The effect that runs on mount. *)
Definition load (stored : Stored) (storedActive : option string)
    : ProfileState :=
  match stored with
  | Items profilesList => loadList profilesList storedActive
  | NotAnArray => loadList [] storedActive
  | NoItem | Unparsable =>
      mkProfileState [defaultProfile] (Some "default"%string)
  end.

(** [createProfile(name, hiddenColumns)] at time [now]; the new state and
    the id returned. *)
Definition createProfile (now : Z) (name : string) (hidden : list string)
    (st : ProfileState) : ProfileState * string :=
  let newProfile :=
    mkColumnProfile ("profile-" ++ decimal now) name hidden in
  (mkProfileState (profiles st ++ [newProfile]) (Some (pid newProfile)),
   pid newProfile).

(** [id === activeProfileId] *)
Definition isActive (id : string) (st : ProfileState) : bool :=
  match activeProfileId st with
  | Some a => String.eqb id a
  | None => false
  end.

Definition deleteProfile (id : string) (st : ProfileState)
    : ProfileState :=
  let filtered :=
    filter (fun p => negb (String.eqb (pid p) id)) (profiles st) in
  if isActive id st && (0 <? length filtered)%nat
  then mkProfileState filtered (firstId filtered)
  else if (length filtered =? 0)%nat
  then mkProfileState [defaultProfile] (Some "default"%string)
  else mkProfileState filtered (activeProfileId st).

Definition renameProfile (id newName : string) (st : ProfileState)
    : ProfileState :=
  mkProfileState
    (map (fun p =>
            if String.eqb (pid p) id
            then mkColumnProfile (pid p) newName (hiddenColumns p) else p)
         (profiles st))
    (activeProfileId st).

Definition updateProfileColumns (id : string) (hidden : list string)
    (st : ProfileState) : ProfileState :=
  mkProfileState
    (map (fun p =>
            if String.eqb (pid p) id
            then mkColumnProfile (pid p) (pname p) hidden else p)
         (profiles st))
    (activeProfileId st).

Definition switchProfile (id : string) (st : ProfileState)
    : ProfileState :=
  if isSome (findProfile id (profiles st))
  then mkProfileState (profiles st) (Some id)
  else st.

Definition getActiveProfile (st : ProfileState) : option ColumnProfile :=
  match activeProfileId st with
  | Some a =>
      if negb (truthy (activeProfileId st)) then None
      else findProfile a (profiles st)
  | None => None
  end.

End ColumnProfiles.

(* ================================================================== *)
(** ** Live ticks ([useBinanceWebSocket]) *)
(* ================================================================== *)

Module WebSocketFeed.

(** [BinanceTickerUpdate], the fields the handler reads: [s], and [c],
    [q] and [P] through [parseFloat]. *)
Record BinanceTickerUpdate : Type := mkTickerUpdate {
  tickSymbol : string;     (* s *)
  tickClose : num;         (* c *)
  tickQuoteVolume : num;   (* q *)
  tickChangePercent : num  (* P *)
}.

(** [PriceUpdate]; [None] is a field left [undefined]. *)
Record PriceUpdate : Type := mkPriceUpdate {
  updSymbol : string;                  (* symbol *)
  updCurrentPrice : option num;        (* currentPrice *)
  updVolume : option num;              (* volume *)
  updPriceChangePercent : option num   (* priceChangePercent *)
}.

Section Feed.

(** [String.prototype.toLowerCase] *)
Variable toLowerCase : string -> string.

(** The [Set] of the lower-cased symbols, kept as a list. *)
Definition symbolsSet (symbols : list string) : list string :=
  map toLowerCase symbols.

(** The body of the loop over the tickers of a message. *)
Definition considerTicker (set : list string)
    (updates : JsMap.t PriceUpdate) (ticker : BinanceTickerUpdate)
    : JsMap.t PriceUpdate :=
  let symbol := tickSymbol ticker in
  if Universe.has set (toLowerCase symbol) then
    let price := tickClose ticker in
    let volume := tickQuoteVolume ticker in
    if negb (isNaN price) && negb (isNaN volume)
    then JsMap.set updates symbol
           (mkPriceUpdate symbol (Some price) (Some volume)
              (Some (tickChangePercent ticker)))
    else updates
  else updates.

Definition collectUpdates (symbols : list string)
    (tickers : list BinanceTickerUpdate) : JsMap.t PriceUpdate :=
  fold_left (considerTicker (symbolsSet symbols)) tickers
            (@JsMap.empty PriceUpdate).

(** [ws.onmessage]: [payload] is what [JSON.parse] gives, [None] when it
    throws; [onUpdate] is the callback, acting on the state of its
    owner. *)
Definition onmessage (S : Type)
    (onUpdate : JsMap.t PriceUpdate -> S -> S) (symbols : list string)
    (payload : option (list BinanceTickerUpdate)) (state : S) : S :=
  match payload with
  | Some tickers =>
      let updates := collectUpdates symbols tickers in
      if (0 <? JsMap.size updates)%nat then onUpdate updates state
      else state
  | None => state
  end.

End Feed.

End WebSocketFeed.

(* ================================================================== *)
(** ** The table of the page ([Home]) *)
(* ================================================================== *)

Module Home.

Import JsArray Watchlists WebSocketFeed.

(** The values of [SortColumn] other than [null]. *)
Inductive Column : Type :=
| BySymbol
| ByPrice
| ByDailyReturn
| ByWeeklyReturn
| ByMonthlyReturn
| ByVwapDistance7d
| ByVwapDistance30d
| ByVwapDistance90d
| ByVwapDistance365d
| ByEma200Distance4h
| ByEma200Distance1d
| ByVolume
| ByZScore
| ByOiChange24h
| ByOiChange7d.

Definition SortColumn : Type := option Column.

Inductive SortState : Type :=
| Highest
| Lowest
| Default.

Definition sameColumn (a b : SortColumn) : bool :=
  match a, b with
  | None, None => true
  | Some x, Some y =>
      match x, y with
      | BySymbol, BySymbol | ByPrice, ByPrice
      | ByDailyReturn, ByDailyReturn | ByWeeklyReturn, ByWeeklyReturn
      | ByMonthlyReturn, ByMonthlyReturn
      | ByVwapDistance7d, ByVwapDistance7d
      | ByVwapDistance30d, ByVwapDistance30d
      | ByVwapDistance90d, ByVwapDistance90d
      | ByVwapDistance365d, ByVwapDistance365d
      | ByEma200Distance4h, ByEma200Distance4h
      | ByEma200Distance1d, ByEma200Distance1d
      | ByVolume, ByVolume | ByZScore, ByZScore
      | ByOiChange24h, ByOiChange24h | ByOiChange7d, ByOiChange7d => true
      | _, _ => false
      end
  | _, _ => false
  end.

(** The state of the component that the table depends on. *)
Record State : Type := mkState {
  data : list CryptoData;           (* the rows on display *)
  originalData : list CryptoData;   (* the rows as fetched *)
  sortColumn : SortColumn;
  sortState : SortState;
  activeWatchlistId : option string;
  searchQuery : string
}.

(** [{...coin, currentPrice: ..., volume: ...}] for the fields of the
    update that are not [undefined]. *)
Definition mergeUpdate (coin : CryptoData) (update : PriceUpdate)
    : CryptoData :=
  mkCryptoData (symbol coin)
    (match updCurrentPrice update with
     | Some p => p
     | None => currentPrice coin
     end)
    (dailyReturn coin) (weeklyReturn coin) (monthlyReturn coin)
    (match updVolume update with
     | Some v => v
     | None => volume coin
     end)
    (vwap7d coin) (vwapDistance7d coin) (vwap30d coin)
    (vwapDistance30d coin) (vwap90d coin) (vwapDistance90d coin)
    (vwap365d coin) (vwapDistance365d coin)
    (ema2004h coin) (ema200Distance4h coin)
    (ema2001d coin) (ema200Distance1d coin)
    (zScore coin) (oiChange24h coin) (oiChange7d coin).

(** The updater both [setOriginalData] and [setData] receive. *)
Definition applyUpdates (updates : JsMap.t PriceUpdate)
    (prevData : list CryptoData) : list CryptoData :=
  map (fun coin =>
         match JsMap.get updates (symbol coin) with
         | Some update => mergeUpdate coin update
         | None => coin
         end)
      prevData.

Definition handlePriceUpdate (updates : JsMap.t PriceUpdate) (st : State)
    : State :=
  mkState (applyUpdates updates (data st))
          (applyUpdates updates (originalData st))
          (sortColumn st) (sortState st)
          (activeWatchlistId st) (searchQuery st).

(** The [symbols] handed to the socket hook. *)
Definition symbols (st : State) : list string :=
  map symbol (originalData st).

(** [s.includes(query)] on strings. *)
Definition includesText (s query : string) : bool :=
  match index 0 query s with
  | Some _ => true
  | None => false
  end.

(** [a ?? 0] *)
Definition orZero (a : option num) : num :=
  match a with
  | Some x => x
  | None => zero
  end.

Definition sortMultiplier (state : SortState) : num :=
  match state with
  | Highest => ofZ (-1)
  | _ => ofZ 1
  end.

Section Strings.

Variable toLowerCase : string -> string.
Variable trim : string -> string.

(** The rows of the active watchlist, all rows when none is active or
    the active one is not found. *)
Definition watchlistRows (watchlists : list Watchlist)
    (active : option string) (rows : list CryptoData) : list CryptoData :=
  match active with
  | None => rows
  | Some id =>
      match findWatchlist id watchlists with
      | Some activeWatchlist =>
          filter (fun coin => includes (coins activeWatchlist) (symbol coin))
                 rows
      | None => rows
      end
  end.

Definition searchRows (search : string) (rows : list CryptoData)
    : list CryptoData :=
  if negb (String.eqb (trim search) "") then
    let query := toLowerCase (trim search) in
    filter (fun coin => includesText (toLowerCase (symbol coin)) query) rows
  else rows.

(** [baseData] of the click handler, [filteredData] of the effect. *)
Definition baseData (watchlists : list Watchlist) (st : State)
    : list CryptoData :=
  searchRows (searchQuery st)
    (watchlistRows watchlists (activeWatchlistId st) (originalData st)).

(** The comparator both sorts of the component use. *)
Definition compareRows (column : SortColumn) (mult : num)
    (a b : CryptoData) : num :=
  let numeric (aValue bValue : num) := ((aValue - bValue) * mult)%num in
  match column with
  | Some BySymbol =>
      let aValue := toLowerCase (symbol a) in
      let bValue := toLowerCase (symbol b) in
      if String.ltb aValue bValue then (ofZ (-1) * mult)%num
      else if String.ltb bValue aValue then (ofZ 1 * mult)%num
      else zero
  | Some ByPrice => numeric (currentPrice a) (currentPrice b)
  | Some ByDailyReturn => numeric (dailyReturn a) (dailyReturn b)
  | Some ByWeeklyReturn => numeric (weeklyReturn a) (weeklyReturn b)
  | Some ByMonthlyReturn => numeric (monthlyReturn a) (monthlyReturn b)
  | Some ByVwapDistance7d => numeric (vwapDistance7d a) (vwapDistance7d b)
  | Some ByVwapDistance30d =>
      numeric (vwapDistance30d a) (vwapDistance30d b)
  | Some ByVwapDistance90d =>
      numeric (vwapDistance90d a) (vwapDistance90d b)
  | Some ByVwapDistance365d =>
      numeric (vwapDistance365d a) (vwapDistance365d b)
  | Some ByEma200Distance4h =>
      numeric (ema200Distance4h a) (ema200Distance4h b)
  | Some ByEma200Distance1d =>
      numeric (ema200Distance1d a) (ema200Distance1d b)
  | Some ByVolume => numeric (volume a) (volume b)
  | Some ByZScore => numeric (orZero (zScore a)) (orZero (zScore b))
  | Some ByOiChange24h =>
      numeric (orZero (oiChange24h a)) (orZero (oiChange24h b))
  | Some ByOiChange7d =>
      numeric (orZero (oiChange7d a)) (orZero (oiChange7d b))
  | None => zero
  end.

(** The effect that follows a change of the watchlists, of the fetched
    rows, of the search or of the sort: it recomputes the rows on
    display. *)
Definition refresh (watchlistsMounted : bool) (watchlists : list Watchlist)
    (st : State) : State :=
  if negb watchlistsMounted || (length (originalData st) =? 0)%nat then st
  else
    let filteredData := baseData watchlists st in
    let shown :=
      match sortState st, sortColumn st with
      | Default, _ | _, None => filteredData
      | state, column =>
          sort (compareRows column (sortMultiplier state)) filteredData
      end in
    mkState shown (originalData st) (sortColumn st) (sortState st)
            (activeWatchlistId st) (searchQuery st).

(** The sort state a click on the header of [column] leads to. *)
Definition nextSort (column : SortColumn) (st : State)
    : SortColumn * SortState :=
  if sameColumn (sortColumn st) column then
    match sortState st with
    | Highest => (column, Lowest)
    | Lowest => (None, Default)
    | Default => (column, Highest)
    end
  else (column, Highest).

Definition handleHeaderClick (watchlists : list Watchlist)
    (column : SortColumn) (st : State) : State :=
  let '(newSortColumn, newSortState) := nextSort column st in
  let base := baseData watchlists st in
  let sortedData :=
    match newSortState with
    | Default => base
    | _ =>
        sort (compareRows newSortColumn (sortMultiplier newSortState)) base
    end in
  mkState sortedData (originalData st) newSortColumn newSortState
          (activeWatchlistId st) (searchQuery st).

End Strings.

End Home.

(* ================================================================== *)
(** ** Views of the published record *)
(* ================================================================== *)

Module Views.

(** The fields that only the ticker and the daily candles decide. *)
Definition dailyFields (r : CryptoData) :=
  (symbol r, currentPrice r, volume r,
   (dailyReturn r, weeklyReturn r, monthlyReturn r),
   (vwap7d r, vwapDistance7d r, vwap30d r, vwapDistance30d r),
   (vwap90d r, vwapDistance90d r, vwap365d r, vwapDistance365d r),
   (ema2001d r, ema200Distance1d r, zScore r)).

(** The two fields read off the 4h candles. *)
Definition fourHourFields (r : CryptoData) := (ema2004h r, ema200Distance4h r).

(** The two fields read off the open interest. *)
Definition openInterestFields (r : CryptoData) :=
  (oiChange24h r, oiChange7d r).

End Views.

(* ================================================================== *)
(** ** Names for what a task has fetched *)
(* ================================================================== *)

Module Fetched.

Import Retry Pipeline.

(** [klines4h] of a task: the rows of the 4h response, empty when the
    fetch did not return one. *)
Definition fetched4h (f : SymbolFetch) : list Kline :=
  match completion (retryWithBackoffDefault (fetchKlines4h f)) with
  | Returned klines4hResponse => dataOrEmpty klines4hResponse
  | _ => []
  end.

End Fetched.

(* ================================================================== *)
(** ** Further sample inputs *)
(* ================================================================== *)

Module Scenarios.

Import Retry Pipeline Handler Samples.

(** A call answered 429 twice, then with the value 7. *)
Definition limitedTwice : nat -> Outcome nat :=
  fun k => if (k <? 2)%nat then Rejected rateLimited else Resolved 7%nat.

Definition btc : Ticker :=
  mkTicker "BTCUSDT" (ofZ 40000) (ofZ 900000).

(** The metadata is there, the ticker call is answered 429. *)
Definition limitedUpstream : Upstream :=
  mkUpstream (Resolved exchangeInfo) (Rejected rateLimited)
             (fun _ => fetchOf) inOrder.

End Scenarios.

(* ================================================================== *)
(** ** Vocabulary of the server properties *)
(* ================================================================== *)

Module ServerLaws.

Import Handler.

(** The cached snapshot is not empty and was sent, when it was stored,
    to the request whose run computed it. *)
Definition cacheFilledBy (events : list Event) (s : Server) : Prop :=
  forall entry,
    cache s = Some entry ->
    entryData entry <> []
    /\ exists id,
         In (Finish id (timestamp entry)) events
         /\ In (id, Ok200 (entryData entry)) (replies s).

(** A record that carries the symbol, last price and 24h volume of a
    ticker of the feed, with a price above zero. *)
Definition fromFeed (tickers : list Ticker) (r : CryptoData) : Prop :=
  (currentPrice r >? zero)%num = true
  /\ exists t, In t tickers
       /\ symbol r = tsymbol t
       /\ currentPrice r = lastPrice t
       /\ volume r = quoteVolume t.

(** Requests in flight and error replies are those of requests that
    arrived: each error reply is the outcome of the run of a request
    with the same id. *)
Definition tracksArrivals (sqrtQ : Q -> Q) (events : list Event)
    (s : Server) : Prop :=
  (forall id u, In (id, u) (inFlight s) ->
     exists now, In (Arrive id now u) events)
  /\ (forall id reply, In (id, reply) (replies s) ->
        (exists body, reply = Ok200 body)
        \/ exists now u,
             In (Arrive id now u) events /\ runPipeline sqrtQ u = reply).

(** The call for the exchange metadata, or the call for the tickers once
    the metadata is there, was rejected with [e]. *)
Definition metadataRejected (u : Upstream) (e : Retry.HttpError) : Prop :=
  exchangeInfoResponse u = Retry.Rejected e
  \/ exists info,
       exchangeInfoResponse u = Retry.Resolved info
       /\ tickersResponse u = Retry.Rejected e.

(** The ticker reaches the minimum volume and its daily candles are
    fetched, at least two of them, the last but one closing above
    zero. *)
Definition passing (ticker : Ticker) (f : Pipeline.SymbolFetch) : Prop :=
  exists klinesResponse,
    Retry.completion
      (Retry.retryWithBackoffDefault (Pipeline.fetchKlines1d f))
    = Retry.Returned klinesResponse
    /\ let klines := Pipeline.dataOrEmpty klinesResponse in
       (quoteVolume ticker >=? Pipeline.minVolume)%num = true
       /\ (2 <= length klines)%nat
       /\ (Indicators.closeAt klines (length klines - 2) >? zero)%num
          = true.

End ServerLaws.

(* ================================================================== *)
(** ** A feed larger than the universe *)
(* ================================================================== *)

Module Crowd.

(** 101 tickers of the same active symbol, with volumes 1 to 101 in
    feed order. *)
Definition tickers : list Ticker :=
  map (fun n => mkTicker "BTCUSDT" (ofZ 1) (ofNat (S n))) (seq 0 101).

Definition smallest : Ticker := mkTicker "BTCUSDT" (ofZ 1) (ofNat 1).

End Crowd.

(* ================================================================== *)
(** ** Vocabulary of the open-interest properties *)
(* ================================================================== *)

Module OpenInterestLaws.

Import Retry Pipeline OpenInterest.

(** An entry the scan may take for the target time: a timestamp that is
    not zero and less than the tolerance away, and a valid value. *)
Definition candidate (target tolerance : Z) (entry : OpenInterestHist)
    : bool :=
  negb (timestamp entry =? 0)%Z
  && (Z.abs (timestamp entry - target) <? tolerance)%Z
  && validOI (sumOpenInterest entry).

(** The value of the first candidate in array order. *)
Definition firstCandidate (target tolerance : Z)
    (oiHistory : list OpenInterestHist) : option num :=
  option_map sumOpenInterest (find (candidate target tolerance) oiHistory).

Definition orElse (A : Type) (x y : option A) : option A :=
  match x with
  | Some v => Some v
  | None => y
  end.

(** What one endpoint contributes: the usable history of its response,
    nothing when the call throws. *)
Definition attempt
    (fetchHistory : Endpoint -> nat -> Outcome (AxiosResponse HistBody))
    (endpoint : Endpoint) : option (list OpenInterestHist) :=
  match completion (retryWithBackoffDefault (fetchHistory endpoint)) with
  | Returned response => usable response
  | _ => None
  end.

End OpenInterestLaws.

Module OpenInterestSamples.

Import Retry Pipeline OpenInterest Samples.

(** Three hourly entries; [now] is 1 000 000 000: the second entry lies
    one hour from the 24h mark, the third at the 7d mark. *)
Definition now : Z := 1000000000.

Definition hourly : list OpenInterestHist :=
  [mkOpenInterestHist (ofZ 500) 999000000;
   mkOpenInterestHist (ofZ 400) 917200000;
   mkOpenInterestHist (ofZ 250) 395200000].

(** The 1h endpoint is answered 400, the 5m endpoint is rate limited
    throughout, the 1d endpoint answers [hourly] inside an object. *)
Definition fetchHistory (endpoint : Endpoint)
    : nat -> Outcome (AxiosResponse HistBody) :=
  if String.eqb (period endpoint) "1h"
  then fun _ =>
         Resolved (mkAxiosResponse 400 (Some (HistObject Missing Missing)))
  else if String.eqb (period endpoint) "5m"
  then fun _ => Rejected rateLimited
  else fun _ => Resolved (mkAxiosResponse 200
                            (Some (HistObject (Rows hourly) Missing))).

End OpenInterestSamples.

(* ================================================================== *)
(** ** Vocabulary of the table properties *)
(* ================================================================== *)

Module TableLaws.

Import Watchlists WebSocketFeed Home.

(** Everything in a row but the price and the volume. *)
Definition historicalFields (r : CryptoData) :=
  (symbol r,
   (dailyReturn r, weeklyReturn r, monthlyReturn r),
   (vwap7d r, vwapDistance7d r, vwap30d r, vwapDistance30d r),
   (vwap90d r, vwapDistance90d r, vwap365d r, vwapDistance365d r),
   (ema2004h r, ema200Distance4h r, ema2001d r, ema200Distance1d r),
   (zScore r, oiChange24h r, oiChange7d r)).

(** The update a ticker of a message is turned into. *)
Definition updateOf (ticker : BinanceTickerUpdate) : PriceUpdate :=
  mkPriceUpdate (tickSymbol ticker) (Some (tickClose ticker))
    (Some (tickQuoteVolume ticker)) (Some (tickChangePercent ticker)).

(** A ticker the loop of the message handler stores under the key
    [k]. *)
Definition accepted (toLowerCase : string -> string) (set : list string)
    (k : string) (ticker : BinanceTickerUpdate) : bool :=
  Universe.has set (toLowerCase (tickSymbol ticker))
  && (negb (isNaN (tickClose ticker))
      && negb (isNaN (tickQuoteVolume ticker)))
  && String.eqb (tickSymbol ticker) k.

(** A ticker for the symbol [k] whose price and volume are numbers. *)
Definition validTick (k : string) (ticker : BinanceTickerUpdate) : bool :=
  negb (isNaN (tickClose ticker))
  && negb (isNaN (tickQuoteVolume ticker))
  && String.eqb (tickSymbol ticker) k.

(** The last valid ticker for [k] in a message. *)
Definition lastValidTick (k : string) (tickers : list BinanceTickerUpdate)
    : option BinanceTickerUpdate :=
  find (validTick k) (rev tickers).

(** The row after a message. *)
Definition ticked (tickers : list BinanceTickerUpdate) (coin : CryptoData)
    : CryptoData :=
  match lastValidTick (symbol coin) tickers with
  | Some ticker => mergeUpdate coin (updateOf ticker)
  | None => coin
  end.

(** The number a numeric column sorts by; the symbol column sorts by
    text. *)
Definition numericValue (column : Column) (r : CryptoData) : num :=
  match column with
  | BySymbol => zero
  | ByPrice => currentPrice r
  | ByDailyReturn => dailyReturn r
  | ByWeeklyReturn => weeklyReturn r
  | ByMonthlyReturn => monthlyReturn r
  | ByVwapDistance7d => vwapDistance7d r
  | ByVwapDistance30d => vwapDistance30d r
  | ByVwapDistance90d => vwapDistance90d r
  | ByVwapDistance365d => vwapDistance365d r
  | ByEma200Distance4h => ema200Distance4h r
  | ByEma200Distance1d => ema200Distance1d r
  | ByVolume => volume r
  | ByZScore => orZero (zScore r)
  | ByOiChange24h => orZero (oiChange24h r)
  | ByOiChange7d => orZero (oiChange7d r)
  end.

Definition isNumeric (column : Column) : bool :=
  match column with BySymbol => false | _ => true end.

(** [a] may stand before [b] in ascending order. *)
Definition notAbove (A : Type) (key : A -> num) (a b : A) : Prop :=
  (key a <=? key b)%num = true.

(** The row passes the watchlist filter and the search filter. *)
Definition passesFilters (toLowerCase trim : string -> string)
    (watchlists : list Watchlist) (st : State) (r : CryptoData) : Prop :=
  (forall id activeWatchlist,
     activeWatchlistId st = Some id ->
     findWatchlist id watchlists = Some activeWatchlist ->
     includes (coins activeWatchlist) (symbol r) = true)
  /\ (trim (searchQuery st) <> ""%string ->
      includesText (toLowerCase (symbol r))
                   (toLowerCase (trim (searchQuery st))) = true).

End TableLaws.

Module TableSamples.

Import Watchlists WebSocketFeed Home.

Definition lowerChar (c : ascii) : ascii :=
  let n := nat_of_ascii c in
  if (65 <=? n)%nat && (n <=? 90)%nat then ascii_of_nat (n + 32) else c.

(** Lower case on the ASCII letters. *)
Fixpoint asciiLower (s : string) : string :=
  match s with
  | EmptyString => EmptyString
  | String c rest => String (lowerChar c) (asciiLower rest)
  end.

Fixpoint dropSpaces (s : string) : string :=
  match s with
  | String " " rest => dropSpaces rest
  | _ => s
  end.

Fixpoint reverse (s acc : string) : string :=
  match s with
  | EmptyString => acc
  | String c rest => reverse rest (String c acc)
  end.

(** Removal of the spaces at both ends. *)
Definition trimSpaces (s : string) : string :=
  reverse (dropSpaces (reverse (dropSpaces s) "")) "".

(** A row with the given symbol, price, volume and daily return. *)
Definition row (s : string) (price vol daily : Z) : CryptoData :=
  mkCryptoData s (ofZ price) (ofZ daily) zero zero (ofZ vol)
    zero zero zero zero zero zero zero zero zero zero zero zero
    None None None.

Definition rows : list CryptoData :=
  [row "BTCUSDT" 40000 900000 2;
   row "ETHUSDT" 2000 500000 5;
   row "SOLUSDT" 150 300000 (-1)].

Definition majors : Watchlist :=
  mkWatchlist "majors" "Majors" ["BTCUSDT"; "SOLUSDT"]%string.

(** All rows on display, no sort, no watchlist, no search. *)
Definition fresh : State := mkState rows rows None Default None "".

(** The watchlist [majors] is active. *)
Definition onMajors : State :=
  mkState rows rows None Default (Some "majors"%string) "".

(** A message with a tick for ETHUSDT, one for a symbol that is not in
    the table, an unreadable tick for BTCUSDT and a later tick for
    ETHUSDT. *)
Definition message : list BinanceTickerUpdate :=
  [mkTickerUpdate "ETHUSDT" (ofZ 2010) (ofZ 510000) (ofZ 1);
   mkTickerUpdate "XRPUSDT" (ofZ 1) (ofZ 100) (ofZ 0);
   mkTickerUpdate "BTCUSDT" NaN (ofZ 900001) (ofZ 0);
   mkTickerUpdate "ETHUSDT" (ofZ 2020) (ofZ 520000) (ofZ 1)].

End TableSamples.

(* ================================================================== *)
(** ** Vocabulary of the hook properties *)
(* ================================================================== *)

Module ProfileLaws.

Import ColumnProfiles.

(** The calls a user of the hook can make. *)
Inductive Action : Type :=
| Create (now : Z) (name : string) (hidden : list string)
| Delete (id : string)
| Rename (id newName : string)
| UpdateColumns (id : string) (hidden : list string)
| Switch (id : string).

Definition act (st : ProfileState) (a : Action) : ProfileState :=
  match a with
  | Create now name hidden => fst (createProfile now name hidden st)
  | Delete id => deleteProfile id st
  | Rename id newName => renameProfile id newName st
  | UpdateColumns id hidden => updateProfileColumns id hidden st
  | Switch id => switchProfile id st
  end.

(** The active id names one of the profiles. *)
Definition activeExists (st : ProfileState) : Prop :=
  exists a p,
    activeProfileId st = Some a
    /\ findProfile a (profiles st) = Some p.

End ProfileLaws.

Module HookSamples.

Import Watchlists ColumnProfiles ProfileLaws.

Definition lists : list Watchlist :=
  [mkWatchlist "default" "My Watchlist" ["BTCUSDT"]%string;
   mkWatchlist "alts" "Alts" []].

(** The only profile is created, renamed and deleted, then the default
    one that replaced it is deleted as well. *)
Definition session : list Action :=
  [Create 1700000000000 "Wide" ["zScore"]%string;
   Delete "default";
   Rename "profile-1700000000000" "Narrow";
   Delete "profile-1700000000000";
   Switch "missing";
   Delete "default"].

End HookSamples.

(* ================================================================== *)
(** ** The HTTP client and the wrapped call sites *)
(* ================================================================== *)

Module Axios.

Import Retry Pipeline.

(** What comes back for one request: an answer of the exchange, with its
    status, its retry-after header once through [parseInt] when the
    header is there and truthy, and its body; or nothing, on a network
    error or a timeout. *)
Inductive Wire (D : Type) : Type :=
| Answer (status : Z) (retryAfter : option num) (body : option D)
| NoAnswer.
Arguments NoAnswer {D}.

(** The [validateStatus] of axios when the request sets none. *)
Definition defaultValidateStatus (status : Z) : bool :=
  (200 <=? status)%Z && (status <? 300)%Z.

(** [axios.get]: an answer whose status passes [validateStatus] resolves
    to a response; any other answer rejects with an error that carries
    the response, whose status and header the retry utility reads; no
    answer rejects with an error without response. *)
Definition axiosGet (D : Type) (validateStatus : Z -> bool) (w : Wire D)
    : Outcome (AxiosResponse D) :=
  match w with
  | Answer status retryAfter body =>
      if validateStatus status
      then Resolved (mkAxiosResponse status body)
      else Rejected (mkHttpError (Some status) retryAfter)
  | NoAnswer => Rejected (mkHttpError None None)
  end.

End Axios.

Module CallSites.

Import Retry Pipeline Axios.

(** The four places where the handler wraps a request in
    [retryWithBackoff]: the daily and the 4h candles of a symbol, its
    current open interest, and its open-interest history. *)
Inductive CallSite : Type :=
| DailyKlines
| FourHourKlines
| CurrentOpenInterest
| OpenInterestHistory.

(** Only the history request sets [validateStatus], to
    [(status) => status < 500]. *)
Definition validateStatusAt (site : CallSite) : Z -> bool :=
  match site with
  | OpenInterestHistory => fun status => (status <? 500)%Z
  | _ => defaultValidateStatus
  end.

(** Only the call for the current open interest passes arguments, [2]
    and [500]; the others run with the defaults. *)
Definition maxRetriesAt (site : CallSite) : nat :=
  match site with
  | CurrentOpenInterest => 2
  | _ => defaultMaxRetries
  end.

Definition baseDelayAt (site : CallSite) : num :=
  match site with
  | CurrentOpenInterest => ofZ 500
  | _ => defaultBaseDelay
  end.

(** The wrapped call of a site, [wire k] being what comes back for its
    request number [k]. *)
Definition wrappedCall (D : Type) (site : CallSite) (wire : nat -> Wire D)
    : Run (AxiosResponse D) :=
  retryWithBackoff (fun k => axiosGet (validateStatusAt site) (wire k))
                   (maxRetriesAt site) (baseDelayAt site).

(** What comes back for the three requests a task always makes. *)
Record SymbolWires : Type := mkSymbolWires {
  klines1dWire : nat -> Wire (list Kline);
  klines4hWire : nat -> Wire (list Kline);
  openInterestWire : nat -> Wire num
}.

(** The settlements of the wrapped calls of a task over these wires. *)
Definition fetchOver (w : SymbolWires) (history : option num * option num)
    : SymbolFetch :=
  mkSymbolFetch
    (fun k => axiosGet (validateStatusAt DailyKlines)
                       (klines1dWire w k))
    (fun k => axiosGet (validateStatusAt FourHourKlines)
                       (klines4hWire w k))
    (fun k => axiosGet (validateStatusAt CurrentOpenInterest)
                       (openInterestWire w k))
    history.

(** The settlements of the history call for each endpoint. *)
Definition historyOver
    (wire : OpenInterest.Endpoint -> nat -> Wire OpenInterest.HistBody)
    : OpenInterest.Endpoint -> nat
      -> Outcome (AxiosResponse OpenInterest.HistBody) :=
  fun endpoint k =>
    axiosGet (validateStatusAt OpenInterestHistory) (wire endpoint k).

End CallSites.

Module RetryLaws.

Import Retry Axios CallSites.

(** The waits of a call whose every request is answered 429 without
    retry-after header, as the specification gives them: one second,
    then two. *)
Definition specifiedWaits : list num := [ofZ 1000; ofZ 2000].

(** C9 as the specification states it, for answers without retry-after
    header: at every call site, a request answered 429 is followed by
    another request as long as fewer than three were made, and the waits
    are one second, then two seconds. *)
Definition retriesThriceFromOneSecond : Prop :=
  forall (D : Type) (site : CallSite) (wire : nat -> Wire D),
    (forall k status retryAfter body,
       wire k = Answer status retryAfter body -> retryAfter = None) ->
    let r := wrappedCall site wire in
    (calls r <= 3)%nat
    /\ (exists m, delays r = firstn m specifiedWaits)
    /\ (forall k body,
          (k < calls r)%nat -> (S k < 3)%nat ->
          wire k = Answer 429 None body ->
          (S k < calls r)%nat).

(** Every request is answered 429, without header and without body. *)
Definition always429 : nat -> Wire nat :=
  fun _ => Answer 429 None None.

(** Two 429 answers, the second with a retry-after of 7 seconds, then
    the candles. *)
Definition twice429 (rows : list Kline) : nat -> Wire (list Kline) :=
  fun k =>
    match k with
    | 0%nat => Answer 429 None None
    | 1%nat => Answer 429 (Some (ofZ 7)) None
    | _ => Answer 200 None (Some rows)
    end.

End RetryLaws.

(* ================================================================== *)
(** ** The indicators as the specification writes them *)
(* ================================================================== *)

Module IndicatorLaws.

Section Vwap.

Variable price : num.
Variable klines : list Kline.
Variable days : nat.

(** The trailing [days] candles of the series. *)
Definition trailing : list Kline :=
  skipn (length klines - days) klines.

(** The sum over the trailing candles of typical price times volume, the
    typical price being (high + low + close) / 3. *)
Definition sumPriceVolume : num :=
  fold_left
    (fun acc k =>
       (acc + ((high k + low k + close k) / ofZ 3) * kvolume k)%num)
    trailing zero.

(** The summed volume of the trailing candles. *)
Definition sumVolume : num :=
  fold_left (fun acc k => (acc + kvolume k)%num) trailing zero.

(** [v] and [d] are the VWAP and the distance under the two tests of
    the handler: the quotient of the sums when the summed volume is
    above zero, the current price when it is zero; the distance formula
    when the VWAP is above zero. *)
Definition vwapGuarded (v d : num) : Prop :=
  ((sumVolume >? zero)%num = true ->
     v = (sumPriceVolume / sumVolume)%num)
  /\ (sumVolume = zero -> v = price)
  /\ ((v >? zero)%num = true ->
      d = (((price - v) / v) * ofZ 100)%num).

(** C4 as the specification states it: [v] is the quotient of the sums,
    or the current price when the summed volume is exactly zero, and [d]
    is (currentPrice - vwap) / vwap * 100. *)
Definition vwapSpecified (v d : num) : Prop :=
  (sumVolume <> zero -> v = (sumPriceVolume / sumVolume)%num)
  /\ (sumVolume = zero -> v = price)
  /\ d = (((price - v) / v) * ofZ 100)%num.

End Vwap.

Section ZScore.

Variable sqrtQ : Q -> Q.
Variable price : num.
Variable klines : list Kline.

(** The last 31 candles of the series. *)
Definition recent : list Kline := skipn (length klines - 31) klines.

(** A pair of consecutive candles gives a valid return when both closes
    are numbers above zero; the return is the change of the close in
    percent of the earlier close. *)
Definition validPair (days : Kline * Kline) : bool :=
  (close (fst days) >? zero)%num && (close (snd days) >? zero)%num
  && negb (isNaN (close (fst days))) && negb (isNaN (close (snd days))).

Definition returnOf (days : Kline * Kline) : num :=
  (((close (snd days) - close (fst days)) / close (fst days))
   * ofZ 100)%num.

(** The valid day-over-day returns of the last 31 candles. *)
Definition validReturns : list num :=
  map returnOf (filter validPair (combine recent (tl recent))).

(** Their mean. *)
Definition mu : num :=
  (fold_left (fun sum val => (sum + val)%num) validReturns zero
   / ofNat (length validReturns))%num.

(** Their population standard deviation: the square root of the mean of
    the squared deviations from [mu]. *)
Definition sigma : num :=
  Indicators.sqrt sqrtQ
    (fold_left (fun sum val => (sum + pow (val - mu) 2)%num)
               validReturns zero
     / ofNat (length validReturns))%num.

(** The return of the current price on the close of the last candle. *)
Definition today : num :=
  let lastCandleClose := Indicators.closeAt klines (length klines - 1) in
  (((price - lastCandleClose) / lastCandleClose) * ofZ 100)%num.

End ZScore.

End IndicatorLaws.

(* ================================================================== *)
(** ** The z-score in binary64 *)
(* ================================================================== *)

From Stdlib Require PrimFloat.

(** The numbers of the handler are IEEE 754 doubles.  This module is the
    z-score block of the task over them, the candles reduced to their
    closes [parseFloat(kline[4])]; its names carry the suffix 64. *)
Module Binary64.

Import PrimFloat.

Local Open Scope float_scope.

(** An array length as a double. *)
Fixpoint lengthOf (n : nat) : float :=
  match n with
  | O => 0
  | S n' => lengthOf n' + 1
  end.

Definition closeAt64 (closes : list float) (i : nat) : float :=
  match nth_error closes i with
  | Some c => c
  | None => nan
  end.

(** [((currentPrice - c) / c) * 100] *)
Definition pctChange64 (price c : float) : float :=
  ((price - c) / c) * 100.

Fixpoint historicalReturns64 (recent : list float) : list float :=
  match recent with
  | prevClose :: (currClose :: _) as tl =>
      if (0 <? prevClose) && (0 <? currClose)
         && negb (is_nan prevClose) && negb (is_nan currClose)
      then pctChange64 currClose prevClose :: historicalReturns64 tl
      else historicalReturns64 tl
  | _ => []
  end.

Definition mean64 (xs : list float) : float :=
  fold_left (fun sum val => sum + val) xs 0 / lengthOf (length xs).

(** [Math.pow(val - mean, 2)] is the product of the difference with
    itself. *)
Definition variance64 (xs : list float) : float :=
  let m := mean64 xs in
  fold_left (fun sum val => sum + (val - m) * (val - m)) xs 0
  / lengthOf (length xs).

Definition stdDev64 (xs : list float) : float := sqrt (variance64 xs).

Definition todayReturn64 (price : float) (closes : list float)
    (daily : float) : float :=
  let lastCandleClose := closeAt64 closes (length closes - 1) in
  if 0 <? lastCandleClose
  then pctChange64 price lastCandleClose
  else daily.

Definition calcZScore64 (price : float) (closes : list float)
    (daily : float) : option float :=
  if (31 <=? length closes)%nat then
    let rets := historicalReturns64 (Indicators.sliceLast 31 closes) in
    if (30 <=? length rets)%nat then
      let m := mean64 rets in
      let sd := stdDev64 rets in
      let today := todayReturn64 price closes daily in
      if (0 <? sd) && negb (is_nan m) && negb (is_nan sd)
         && negb (is_nan today)
      then Some ((m - today) / sd)
      else None
    else None
  else None.

(** A finite double above zero. *)
Definition positiveDouble (x : float) : bool :=
  is_finite x && (0 <? x).

(** C1 as the specification states it, on doubles: for a finite positive
    price and at least 31 candles with finite positive closes, 30 valid
    returns and a standard deviation above zero, the z-score is present
    and finite. *)
Definition presentAndFinite : Prop :=
  forall (price : float) (closes : list float) (daily : float),
    positiveDouble price = true ->
    forallb positiveDouble closes = true ->
    (31 <= length closes)%nat ->
    let rets := historicalReturns64 (Indicators.sliceLast 31 closes) in
    (30 <= length rets)%nat ->
    (0 <? stdDev64 rets) = true ->
    exists z,
      calcZScore64 price closes daily = Some z /\ is_finite z = true.

(** C1 as the specification states it, on doubles, for the sign: under
    the same conditions a z-score that is present is above zero
    whenever the mean exceeds today's return. *)
Definition signMatches : Prop :=
  forall (price : float) (closes : list float) (daily z : float),
    positiveDouble price = true ->
    forallb positiveDouble closes = true ->
    (31 <= length closes)%nat ->
    let rets := historicalReturns64 (Indicators.sliceLast 31 closes) in
    (30 <= length rets)%nat ->
    (0 <? stdDev64 rets) = true ->
    calcZScore64 price closes daily = Some z ->
    (0 <? mean64 rets - todayReturn64 price closes daily) = true ->
    (0 <? z) = true.

(** [n] closes, in turn [a] and [b]. *)
Fixpoint alternating (n : nat) (a b : float) : list float :=
  match n with
  | O => []
  | S n' => a :: alternating n' b a
  end.

(** The largest power of two among the doubles, 2^1023. *)
Definition hugePrice : float := 0x1p+1023.

(** A small close, 2^-532. *)
Definition tinyClose : float := 0x1p-532.

End Binary64.

(* ================================================================== *)
(** ** Sample tasks for the indicators *)
(* ================================================================== *)

Module IndicatorSamples.

Import Retry Pipeline Samples.

(** Two daily candles whose high, low and close differ, with volumes 2
    and 3. *)
Definition spreadDays : list Kline :=
  [mkKline 0 (ofZ 100) (ofZ 120) (ofZ 90) (ofZ 105) (ofZ 2) 0;
   mkKline 0 (ofZ 105) (ofZ 110) (ofZ 100) (ofZ 108) (ofZ 3) 0].

Definition fetchSpread : SymbolFetch :=
  mkSymbolFetch (klinesOk spreadDays) (klinesOk [])
                (fun _ => Rejected serverError) (None, None).

Definition fetchZigzag : SymbolFetch :=
  mkSymbolFetch (klinesOk zigzag31) (klinesOk [])
                (fun _ => Rejected serverError) (None, None).

(** BTCUSDT last traded at [price]. *)
Definition btcAt (price : Z) : Ticker :=
  mkTicker "BTCUSDT" (ofZ price) (ofZ 900000).

End IndicatorSamples.

(* ================================================================== *)
(** * Properties *)
(* ================================================================== *)

(** ** Arithmetic of [num] *)

Module NumProps.

Lemma Qltb_lt a b : Qltb a b = true <-> (a < b)%Q.
Proof.
  unfold Qltb. rewrite negb_true_iff.
  split; intros H.
  - destruct (Qlt_le_dec a b) as [Hlt|Hle]; [exact Hlt|].
    apply Qle_bool_iff in Hle. congruence.
  - destruct (Qle_bool b a) eqn:E; [|reflexivity].
    apply Qle_bool_iff in E. exfalso. apply (Qlt_not_le _ _ H E).
Qed.

Lemma Qltb_ge a b : Qltb a b = false <-> (b <= a)%Q.
Proof.
  unfold Qltb. rewrite negb_false_iff. apply Qle_bool_iff.
Qed.

Lemma fin_ext a b : (a == b)%Q -> fin a = fin b.
Proof. intros H. unfold fin. f_equal. now apply Qred_complete. Qed.

Lemma Qeq_bool_false a b : Qeq_bool a b = false -> ~ (a == b)%Q.
Proof.
  intros H E. apply Qeq_bool_iff in E. congruence.
Qed.

(** *** What a finite or non-[NaN] result says of the operands *)

Lemma add_fin_inv x y q :
  (x + y)%num = Fin q -> exists a b, x = Fin a /\ y = Fin b.
Proof. destruct x, y; simpl; try discriminate; eauto. Qed.

Lemma sub_fin_inv x y q :
  (x - y)%num = Fin q -> exists a b, x = Fin a /\ y = Fin b.
Proof. destruct x, y; simpl; try discriminate; eauto. Qed.

Lemma add_nan_l y : (NaN + y)%num = NaN.
Proof. reflexivity. Qed.

Lemma add_nan_r x : (x + NaN)%num = NaN.
Proof. destruct x; reflexivity. Qed.

Lemma add_not_nan x y :
  (x + y)%num <> NaN -> x <> NaN /\ y <> NaN.
Proof. destruct x, y; simpl; intros H; split; congruence. Qed.

Lemma mul_not_nan x y :
  (x * y)%num <> NaN -> x <> NaN /\ y <> NaN.
Proof. destruct x, y; simpl; intros H; split; congruence. Qed.

Lemma sub_not_nan x y :
  (x - y)%num <> NaN -> x <> NaN /\ y <> NaN.
Proof. destruct x, y; simpl; intros H; split; congruence. Qed.

Lemma add_fin a b : (Fin a + Fin b)%num = fin (a + b).
Proof. reflexivity. Qed.

Lemma sub_fin a b : (Fin a - Fin b)%num = fin (a - b).
Proof. reflexivity. Qed.

Lemma mul_fin a b : (Fin a * Fin b)%num = fin (a * b).
Proof. reflexivity. Qed.

Lemma div_fin a b :
  ~ (b == 0)%Q -> (Fin a / Fin b)%num = fin (a / b).
Proof.
  intros Hb. simpl. destruct (Qeq_bool b 0) eqn:E; [|reflexivity].
  apply Qeq_bool_iff in E. contradiction.
Qed.

(** *** Comparisons *)

Lemma gtb_zero_fin q : (Fin q >? zero)%num = true <-> (0 < q)%Q.
Proof. unfold gtb, zero, ofZ. simpl. apply Qltb_lt. Qed.

Lemma gtb_zero_cases x :
  (x >? zero)%num = true ->
  x = PInf \/ exists q, x = Fin q /\ (0 < q)%Q.
Proof.
  destruct x; simpl; try discriminate; auto.
  intros H. right. exists q. split; [reflexivity|].
  now apply gtb_zero_fin.
Qed.

Lemma gtb_not_nan x y : (x >? y)%num = true -> x <> NaN.
Proof. destruct x, y; simpl; congruence. Qed.

Lemma geb_not_nan x y : (x >=? y)%num = true -> x <> NaN.
Proof. destruct x, y; simpl; congruence. Qed.

Lemma isNaN_false x : isNaN x = false <-> x <> NaN.
Proof. destruct x; simpl; split; congruence. Qed.

Lemma isFinite_true x : isFinite x = true <-> exists q, x = Fin q.
Proof.
  destruct x; simpl; split; try discriminate; eauto;
    intros [q' H]; discriminate.
Qed.

(** The order [x <= y] on the values that are not [NaN]. *)
Lemma leb_refl x : x <> NaN -> (x <=? x)%num = true.
Proof.
  destruct x; simpl; try congruence. intros _.
  apply Qle_bool_iff. apply Qle_refl.
Qed.

Lemma leb_trans x y z :
  (x <=? y)%num = true -> (y <=? z)%num = true -> (x <=? z)%num = true.
Proof.
  destruct x, y, z; simpl; try congruence.
  rewrite !Qle_bool_iff. apply Qle_trans.
Qed.

Lemma leb_total x y :
  x <> NaN -> y <> NaN ->
  (x <=? y)%num = true \/ (y <=? x)%num = true.
Proof.
  destruct x, y; simpl; try congruence; auto.
  intros _ _. rewrite !Qle_bool_iff.
  destruct (Qlt_le_dec q q0); [left; now apply Qlt_le_weak | now right].
Qed.

Lemma ltb_leb_false x y :
  x <> NaN -> y <> NaN ->
  (x <? y)%num = false <-> (y <=? x)%num = true.
Proof.
  destruct x, y; simpl; try congruence; try tauto;
    try (intros _ _; split; congruence).
  intros _ _. rewrite Qltb_ge. symmetry. apply Qle_bool_iff.
Qed.

(** The test of a comparator [b - a > 0] is the test [a < b]. *)
Lemma sub_gtb_zero x y :
  ((y - x) >? zero)%num = (x <? y)%num.
Proof.
  destruct x as [| | |a], y as [| | |b]; try reflexivity.
  change (Qltb 0 (Qred (b - a)) = Qltb a b).
  destruct (Qltb a b) eqn:E.
  - apply Qltb_lt. apply Qltb_lt in E.
    rewrite Qred_correct. lra.
  - apply Qltb_ge. apply Qltb_ge in E.
    rewrite Qred_correct. lra.
Qed.

End NumProps.


(** ** Retry with backoff *)

Module RetryProps.

Import Retry.

Section Loop.

Variable T : Type.
Variable fn : nat -> Outcome T.
Variable maxRetries : nat.
Variable baseDelay : num.

Local Abbreviation loop := (Retry.loop fn maxRetries baseDelay).

Lemma loop_calls_le remaining attempt :
  (calls (loop remaining attempt) <= remaining)%nat.
Proof.
  revert attempt; induction remaining as [|r IH]; intros attempt; simpl.
  - lia.
  - destruct (fn attempt) as [v|e]; simpl; [lia|].
    destruct (isRateLimit e && _); simpl; [|lia].
    specialize (IH (S attempt)); lia.
Qed.

Lemma loop_calls_pos remaining attempt :
  (1 <= remaining)%nat -> (1 <= calls (loop remaining attempt))%nat.
Proof.
  destruct remaining as [|r]; [lia|]. intros _. simpl.
  destruct (fn attempt) as [v|e]; simpl; [lia|].
  destruct (isRateLimit e && _); simpl; lia.
Qed.

(** One delay before each attempt but the first. *)
Lemma loop_delays_length remaining attempt :
  (1 <= remaining)%nat ->
  (remaining + attempt = maxRetries)%nat ->
  S (length (delays (loop remaining attempt)))
  = calls (loop remaining attempt).
Proof.
  revert attempt; induction remaining as [|r IH]; intros attempt Hpos Hsum.
  - lia.
  - simpl. destruct (fn attempt) as [v|e]; simpl; [reflexivity|].
    destruct (isRateLimit e && _) eqn:Hretry; simpl; [|reflexivity].
    apply andb_true_iff in Hretry as [_ Hlt]. apply Z.ltb_lt in Hlt.
    f_equal. apply IH; lia.
Qed.

(** The loop ends with what an invocation of [fn] gave, unless it runs
    out of iterations while [attempt < maxRetries - 1] still held. *)
Lemma loop_completion remaining attempt :
  (1 <= remaining)%nat ->
  (remaining + attempt = maxRetries)%nat ->
  (exists k v, (k < maxRetries)%nat /\ fn k = Resolved v
               /\ completion (loop remaining attempt) = Returned v)
  \/ (exists k e, (k < maxRetries)%nat /\ fn k = Rejected e
                  /\ completion (loop remaining attempt) = Thrown e).
Proof.
  revert attempt; induction remaining as [|r IH]; intros attempt Hpos Hsum.
  - lia.
  - simpl. destruct (fn attempt) as [v|e] eqn:Hfn; simpl.
    + left. exists attempt, v. repeat split; auto; lia.
    + destruct (isRateLimit e && _) eqn:Hretry; simpl.
      * apply andb_true_iff in Hretry as [_ Hlt].
        apply Z.ltb_lt in Hlt.
        apply IH; lia.
      * right. exists attempt, e. repeat split; auto; lia.
Qed.

(** Every delay comes from a rate-limited attempt and is the header
    value in milliseconds, or else [baseDelay * 2^attempt]. *)
Lemma loop_delays_spec remaining attempt j d :
  nth_error (delays (loop remaining attempt)) j = Some d ->
  exists e, fn (attempt + j) = Rejected e
            /\ isRateLimit e = true
            /\ d = retryDelay baseDelay (attempt + j) e.
Proof.
  revert attempt j; induction remaining as [|r IH]; intros attempt j; simpl.
  - destruct j; discriminate.
  - destruct (fn attempt) as [v|e] eqn:Hfn; simpl.
    + destruct j; discriminate.
    + destruct (isRateLimit e && _) eqn:Hretry; simpl.
      * apply andb_true_iff in Hretry as [H429 _].
        destruct j as [|j']; simpl.
        -- intros [= <-]. exists e. rewrite Nat.add_0_r. auto.
        -- intros Hnth. apply IH in Hnth.
           replace (attempt + S j')%nat with (S attempt + j')%nat by lia.
           exact Hnth.
      * destruct j; discriminate.
Qed.

(** An error that is not a rate limit ends the call where it occurs. *)
Lemma loop_other_error remaining attempt k e :
  (k < calls (loop remaining attempt))%nat ->
  fn (attempt + k) = Rejected e ->
  isRateLimit e = false ->
  completion (loop remaining attempt) = Thrown e
  /\ calls (loop remaining attempt) = S k.
Proof.
  revert attempt k; induction remaining as [|r IH]; intros attempt k; simpl.
  - lia.
  - destruct (fn attempt) as [v|e0] eqn:Hfn; simpl.
    + intros Hk. assert (k = 0)%nat as -> by lia.
      rewrite Nat.add_0_r, Hfn. discriminate.
    + destruct (isRateLimit e0 && _) eqn:Hretry; simpl.
      * apply andb_true_iff in Hretry as [H429 _].
        destruct k as [|k'].
        -- rewrite Nat.add_0_r, Hfn. intros _ [= <-]. congruence.
        -- intros Hk Hfk Hno.
           replace (attempt + S k')%nat with (S attempt + k')%nat in Hfk
             by lia.
           assert (Hk' : (k' < calls (loop r (S attempt)))%nat) by lia.
           destruct (IH (S attempt) k' Hk' Hfk Hno) as [Hc Hn].
           split; [exact Hc | now rewrite Hn].
      * intros Hk. assert (k = 0)%nat as -> by lia.
        rewrite Nat.add_0_r, Hfn. intros [= <-] _. auto.
Qed.

(** A rate limit before the last allowed attempt is followed by another
    attempt. *)
Lemma loop_rate_limit_retried remaining attempt k e :
  (remaining + attempt = maxRetries)%nat ->
  (k < calls (loop remaining attempt))%nat ->
  fn (attempt + k) = Rejected e ->
  isRateLimit e = true ->
  (attempt + k + 1 < maxRetries)%nat ->
  (S k < calls (loop remaining attempt))%nat.
Proof.
  revert attempt k; induction remaining as [|r IH]; intros attempt k Hsum;
    simpl.
  - lia.
  - destruct (fn attempt) as [v|e0] eqn:Hfn; simpl.
    + intros Hk. assert (k = 0)%nat as -> by lia.
      rewrite Nat.add_0_r, Hfn. discriminate.
    + destruct (isRateLimit e0 && _) eqn:Hretry; simpl.
      * destruct k as [|k'].
        -- intros _ _ _ Hlt. rewrite Nat.add_0_r in Hlt.
           assert (Hr : (1 <= r)%nat) by lia.
           pose proof (loop_calls_pos (S attempt) Hr). lia.
        -- intros Hk Hfk H429 Hlt.
           replace (attempt + S k')%nat with (S attempt + k')%nat in Hfk
             by lia.
           apply (IH (S attempt) k') in Hfk; auto; lia.
      * intros Hk. assert (k = 0)%nat as -> by lia.
        rewrite Nat.add_0_r, Hfn. intros [= <-] H429 Hlt.
        rewrite H429 in Hretry. simpl in Hretry.
        apply Z.ltb_ge in Hretry. lia.
Qed.

(** An error at the last allowed attempt is rethrown, rate limit or
    not. *)
Lemma loop_last_attempt remaining attempt k e :
  (remaining + attempt = maxRetries)%nat ->
  (k < calls (loop remaining attempt))%nat ->
  (attempt + k + 1 = maxRetries)%nat ->
  fn (attempt + k) = Rejected e ->
  completion (loop remaining attempt) = Thrown e.
Proof.
  revert attempt k; induction remaining as [|r IH]; intros attempt k Hsum;
    simpl.
  - lia.
  - destruct (fn attempt) as [v|e0] eqn:Hfn; simpl.
    + intros Hk. assert (k = 0)%nat as -> by lia.
      rewrite Nat.add_0_r, Hfn. discriminate.
    + destruct (isRateLimit e0 && _) eqn:Hretry; simpl.
      * apply andb_true_iff in Hretry as [_ Hlt]. apply Z.ltb_lt in Hlt.
        destruct k as [|k']; [lia|].
        intros Hk Hlast Hfk.
        replace (attempt + S k')%nat with (S attempt + k')%nat in Hfk
          by lia.
        apply (IH (S attempt) k'); auto; lia.
      * intros Hk. assert (k = 0)%nat as -> by lia.
        rewrite Nat.add_0_r, Hfn. intros _ [= <-]. reflexivity.
Qed.

(** An invocation that resolves ends the call with its value. *)
Lemma loop_resolved remaining attempt k v :
  (k < calls (loop remaining attempt))%nat ->
  fn (attempt + k) = Resolved v ->
  completion (loop remaining attempt) = Returned v
  /\ calls (loop remaining attempt) = S k.
Proof.
  revert attempt k; induction remaining as [|r IH]; intros attempt k; simpl.
  - lia.
  - destruct (fn attempt) as [v0|e0] eqn:Hfn; simpl.
    + intros Hk. assert (k = 0)%nat as -> by lia.
      rewrite Nat.add_0_r, Hfn. intros [= <-]. auto.
    + destruct (isRateLimit e0 && _) eqn:Hretry; simpl.
      * destruct k as [|k'].
        -- rewrite Nat.add_0_r, Hfn. discriminate.
        -- intros Hk Hfk.
           replace (attempt + S k')%nat with (S attempt + k')%nat in Hfk
             by lia.
           assert (Hk' : (k' < calls (loop r (S attempt)))%nat) by lia.
           destruct (IH (S attempt) k' Hk' Hfk) as [Hc Hn].
           split; [exact Hc | now rewrite Hn].
      * intros Hk. assert (k = 0)%nat as -> by lia.
        rewrite Nat.add_0_r, Hfn. discriminate.
Qed.

End Loop.

(** The utility, whatever it wraps.  For every call with at least one
    allowed attempt: [fn] is invoked between one and [maxRetries] times,
    with one delay before each retry; each delay follows a rate-limited
    attempt and is the retry-after header in milliseconds when the error
    carries one, else [baseDelay] doubled once per earlier attempt; a
    rate limit before the last allowed attempt is followed by another
    attempt, a rate limit at the last one is rethrown; an error that is
    not a rate limit is rethrown by the attempt where it occurs; a
    value ends the call. *)
Lemma retryWithBackoff_policy (T : Type) (fn : nat -> Outcome T)
    (maxRetries : nat) (baseDelay : num) :
  (1 <= maxRetries)%nat ->
  let r := retryWithBackoff fn maxRetries baseDelay in
  (1 <= calls r <= maxRetries)%nat
  /\ S (length (delays r)) = calls r
  /\ (forall j d, nth_error (delays r) j = Some d ->
        exists e, fn j = Rejected e /\ isRateLimit e = true
          /\ d = match retryAfterHeader e with
                 | Some seconds => (seconds * ofZ 1000)%num
                 | None => (baseDelay * pow (ofZ 2) j)%num
                 end)
  /\ (forall k e, (k < calls r)%nat -> fn k = Rejected e ->
        isRateLimit e = true ->
        if (S k <? maxRetries)%nat then (S k < calls r)%nat
        else completion r = Thrown e)
  /\ (forall k e, (k < calls r)%nat -> fn k = Rejected e ->
        isRateLimit e = false ->
        completion r = Thrown e /\ calls r = S k /\ length (delays r) = k)
  /\ (forall k v, (k < calls r)%nat -> fn k = Resolved v ->
        completion r = Returned v /\ calls r = S k).
Proof.
  intros Hmax r.
  assert (Hlen : S (length (delays r)) = calls r)
    by (apply loop_delays_length; lia).
  assert (Hle : (calls r <= maxRetries)%nat) by apply loop_calls_le.
  assert (Hpos : (1 <= calls r)%nat) by (apply loop_calls_pos; lia).
  split; [lia|]. split; [exact Hlen|].
  split; [|split; [|split]].
  - intros j d Hnth.
    destruct (@loop_delays_spec T fn maxRetries baseDelay maxRetries 0 j d
                Hnth) as (e & Hfn & H429 & Hd).
    exists e. simpl in Hfn. repeat split; auto.
  - intros k e Hk Hfn H429.
    destruct (S k <? maxRetries)%nat eqn:Hlast.
    + apply Nat.ltb_lt in Hlast.
      apply (@loop_rate_limit_retried T fn maxRetries baseDelay
               maxRetries 0 k e); auto; lia.
    + apply Nat.ltb_ge in Hlast.
      apply (@loop_last_attempt T fn maxRetries baseDelay
               maxRetries 0 k e); auto; lia.
  - intros k e Hk Hfn Hno.
    destruct (@loop_other_error T fn maxRetries baseDelay
                maxRetries 0 k e Hk Hfn Hno) as [Hc Hn].
    fold (retryWithBackoff fn maxRetries baseDelay) in Hc, Hn.
    fold r in Hc, Hn.
    repeat split; auto. lia.
  - intros k v Hk Hfn.
    exact (@loop_resolved T fn maxRetries baseDelay maxRetries 0 k v
             Hk Hfn).
Qed.

Import Pipeline Axios CallSites.

Lemma isRateLimit_status status retryAfter :
  isRateLimit (mkHttpError (Some status) retryAfter) = (status =? 429)%Z.
Proof. reflexivity. Qed.

(** The statuses each site takes for a response. *)
Lemma validateStatusAt_spec site status :
  validateStatusAt site status = true
  <-> match site with
      | OpenInterestHistory => (status < 500)%Z
      | _ => (200 <= status < 300)%Z
      end.
Proof.
  destruct site; cbn [validateStatusAt]; unfold defaultValidateStatus;
    rewrite ?andb_true_iff, ?Z.leb_le, ?Z.ltb_lt; tauto.
Qed.

(** The tasks and the history loop make their requests through the four
    call sites. *)
Lemma call_sites_of_a_task (w : SymbolWires)
    (history : option num * option num)
    (wire : OpenInterest.Endpoint -> nat -> Wire OpenInterest.HistBody)
    (endpoint : OpenInterest.Endpoint) :
  retryWithBackoffDefault (fetchKlines1d (fetchOver w history))
  = wrappedCall DailyKlines (klines1dWire w)
  /\ retryWithBackoffDefault (fetchKlines4h (fetchOver w history))
     = wrappedCall FourHourKlines (klines4hWire w)
  /\ retryWithBackoff (fetchOpenInterest (fetchOver w history)) 2 (ofZ 500)
     = wrappedCall CurrentOpenInterest (openInterestWire w)
  /\ retryWithBackoffDefault (historyOver wire endpoint)
     = wrappedCall OpenInterestHistory (wire endpoint).
Proof. repeat split. Qed.

(** The history call never comes back to its request: whatever the
    answer, the first attempt ends it. *)
Lemma history_call_once (D : Type) (wire : nat -> Wire D) :
  calls (wrappedCall OpenInterestHistory wire) = 1%nat
  /\ delays (wrappedCall OpenInterestHistory wire) = [].
Proof.
  unfold wrappedCall, retryWithBackoff.
  cbn [maxRetriesAt defaultMaxRetries loop].
  destruct (wire 0%nat) as [status retryAfter body|]; cbn [axiosGet].
  - cbn [validateStatusAt].
    destruct (status <? 500)%Z eqn:E; [split; reflexivity|].
    rewrite isRateLimit_status.
    apply Z.ltb_ge in E.
    replace (status =? 429)%Z with false
      by (symmetry; apply Z.eqb_neq; lia).
    split; reflexivity.
  - split; reflexivity.
Qed.

(** C9, as the handler has it.  Let a call site make its requests
    through the utility, [wire k] being what comes back for request
    [k].  The call makes between one and three requests, two at most for
    the current open interest, and waits once before each request but
    the first.  Each wait follows a request answered 429 at a site other
    than the history, and is the retry-after header in milliseconds when
    the answer carries one, else the seed of the site (1000 ms, 500 ms
    for the current open interest) doubled once per earlier request.  At
    those sites a request answered 429 is followed by another one while
    requests remain, and the 429 of the last one is rethrown.  An answer
    the site takes for a response ends the call with that response;
    that is every status from 200 to 299, and for the history every
    status below 500, 429 included, so that the history call makes one
    request and never waits.  Any other answer, and no answer at all, is
    rethrown by the request where it occurs, the first one included.
    Without retry-after headers the waits are 1000 then 2000 ms for the
    candles, 500 ms for the current open interest, none for the
    history.  These calls are the ones a task makes: its record comes
    from the daily and the 4h call, its current open interest from the
    third, and the loop over the history endpoints makes the fourth
    once per endpoint it tries. *)
Theorem retry_policy (D : Type) (site : CallSite) (wire : nat -> Wire D) :
  let r := wrappedCall site wire in
  let attempts :=
    match site with CurrentOpenInterest => 2%nat | _ => 3%nat end in
  let seed :=
    match site with CurrentOpenInterest => ofZ 500 | _ => ofZ 1000 end in
  let accepted (status : Z) :=
    match site with
    | OpenInterestHistory => (status < 500)%Z
    | _ => (200 <= status < 300)%Z
    end in
  (1 <= calls r <= attempts)%nat
  /\ S (length (delays r)) = calls r
  /\ (forall j d, nth_error (delays r) j = Some d ->
        site <> OpenInterestHistory
        /\ exists retryAfter body,
             wire j = Answer 429 retryAfter body
             /\ d = match retryAfter with
                    | Some seconds => (seconds * ofZ 1000)%num
                    | None => (seed * pow (ofZ 2) j)%num
                    end)
  /\ (forall k retryAfter body,
        (k < calls r)%nat -> wire k = Answer 429 retryAfter body ->
        site <> OpenInterestHistory ->
        ((S k < attempts)%nat -> (S k < calls r)%nat)
        /\ (S k = attempts ->
            completion r = Thrown (mkHttpError (Some 429%Z) retryAfter)))
  /\ (forall k status retryAfter body,
        (k < calls r)%nat -> wire k = Answer status retryAfter body ->
        accepted status ->
        completion r = Returned (mkAxiosResponse status body)
        /\ calls r = S k)
  /\ (forall k status retryAfter body,
        (k < calls r)%nat -> wire k = Answer status retryAfter body ->
        ~ accepted status -> status <> 429%Z ->
        completion r = Thrown (mkHttpError (Some status) retryAfter)
        /\ calls r = S k /\ length (delays r) = k)
  /\ (forall k,
        (k < calls r)%nat -> wire k = NoAnswer ->
        completion r = Thrown (mkHttpError None None)
        /\ calls r = S k /\ length (delays r) = k)
  /\ (site = OpenInterestHistory ->
      calls r = 1%nat /\ delays r = []
      /\ forall retryAfter body,
           wire 0%nat = Answer 429 retryAfter body ->
           completion r = Returned (mkAxiosResponse 429 body))
  /\ ((forall k status retryAfter body,
         wire k = Answer status retryAfter body -> retryAfter = None) ->
      exists m,
        delays r
        = firstn m match site with
                   | DailyKlines | FourHourKlines => [ofZ 1000; ofZ 2000]
                   | CurrentOpenInterest => [ofZ 500]
                   | OpenInterestHistory => []
                   end)
  /\ (forall (sqrtQ : Q -> Q) (ticker : Ticker) (w : SymbolWires)
             (history : option num * option num),
        let f := fetchOver w history in
        let daily := wrappedCall DailyKlines (klines1dWire w) in
        let fourHour := wrappedCall FourHourKlines (klines4hWire w) in
        let current :=
          wrappedCall CurrentOpenInterest (openInterestWire w) in
        (processTicker sqrtQ ticker f = None
         \/ exists klinesResponse,
              completion daily = Returned klinesResponse
              /\ processTicker sqrtQ ticker f
                 = computeRecord sqrtQ ticker (dataOrEmpty klinesResponse)
                     match completion fourHour with
                     | Returned klines4hResponse =>
                         dataOrEmpty klines4hResponse
                     | _ => []
                     end
                     (oiChanges f))
        /\ fetchCurrentOI f
           = match completion current with
             | Returned response => OIResponse response
             | ReturnedNull => OINullBranch
             | Thrown _ => OICaught
             end)
  /\ (forall (hwire : OpenInterest.Endpoint -> nat
                      -> Wire OpenInterest.HistBody)
             (endpoint : OpenInterest.Endpoint)
             (rest : list OpenInterest.Endpoint),
        OpenInterest.tryEndpoints (historyOver hwire) (endpoint :: rest)
        = match completion
                  (wrappedCall OpenInterestHistory (hwire endpoint)) with
          | Returned response =>
              match OpenInterest.usable response with
              | Some rows => Some rows
              | None => OpenInterest.tryEndpoints (historyOver hwire) rest
              end
          | _ => OpenInterest.tryEndpoints (historyOver hwire) rest
          end).
Proof.
  intros r attempts seed accepted.
  assert (Hmax : (1 <= maxRetriesAt site)%nat)
    by (destruct site; unfold maxRetriesAt, defaultMaxRetries; lia).
  destruct (@retryWithBackoff_policy _
              (fun k => axiosGet (validateStatusAt site) (wire k))
              (maxRetriesAt site) (baseDelayAt site) Hmax)
    as (Hcalls & Hlen & Hdelay & Hlimit & Hother & Hvalue).
  fold (wrappedCall site wire) in Hcalls, Hlen, Hdelay, Hlimit, Hother,
    Hvalue.
  fold r in Hcalls, Hlen, Hdelay, Hlimit, Hother, Hvalue.
  assert (Hattempts : maxRetriesAt site = attempts)
    by (destruct site; reflexivity).
  assert (Hseed : baseDelayAt site = seed) by (destruct site; reflexivity).
  assert (Haccepted : forall status,
            validateStatusAt site status = true <-> accepted status)
    by (intros status; apply validateStatusAt_spec).
  assert (Hwait : forall j d, nth_error (delays r) j = Some d ->
            site <> OpenInterestHistory
            /\ exists retryAfter body,
                 wire j = Answer 429 retryAfter body
                 /\ d = match retryAfter with
                        | Some seconds => (seconds * ofZ 1000)%num
                        | None => (seed * pow (ofZ 2) j)%num
                        end).
  { intros j d Hnth.
    destruct (Hdelay j d Hnth) as (e & Hget & H429 & Hd).
    destruct (wire j) as [status retryAfter body|] eqn:Hw;
      cbn [axiosGet] in Hget.
    - destruct (validateStatusAt site status) eqn:Hv; [discriminate|].
      injection Hget as <-. rewrite isRateLimit_status in H429.
      apply Z.eqb_eq in H429. subst status. split.
      + intros ->. discriminate Hv.
      + exists retryAfter, body. split; [reflexivity|].
        cbn [retryAfterHeader] in Hd. rewrite Hseed in Hd. exact Hd.
    - injection Hget as <-. discriminate H429. }
  rewrite Hattempts in Hcalls.
  split; [exact Hcalls|]. split; [exact Hlen|]. split; [exact Hwait|].
  split; [|split; [|split; [|split; [|split; [|split; [|split]]]]]].
  - intros k retryAfter body Hk Hw Hsite.
    assert (Hget : axiosGet (validateStatusAt site) (wire k)
                   = Rejected (mkHttpError (Some 429%Z) retryAfter)).
    { rewrite Hw. cbn [axiosGet].
      replace (validateStatusAt site 429) with false; [reflexivity|].
      destruct site; try reflexivity. congruence. }
    specialize (Hlimit k _ Hk Hget eq_refl). rewrite Hattempts in Hlimit.
    split.
    + intros Hlt. apply Nat.ltb_lt in Hlt. rewrite Hlt in Hlimit.
      exact Hlimit.
    + intros Hlast.
      replace (S k <? attempts)%nat with false in Hlimit
        by (symmetry; apply Nat.ltb_ge; lia).
      exact Hlimit.
  - intros k status retryAfter body Hk Hw Hacc.
    apply Haccepted in Hacc.
    apply (Hvalue k); [exact Hk|]. rewrite Hw. cbn [axiosGet].
    rewrite Hacc. reflexivity.
  - intros k status retryAfter body Hk Hw Hacc Hno.
    assert (Hv : validateStatusAt site status = false).
    { destruct (validateStatusAt site status) eqn:E; [|reflexivity].
      exfalso. apply Hacc, Haccepted, E. }
    apply (Hother k); [exact Hk| |].
    + rewrite Hw. cbn [axiosGet]. rewrite Hv. reflexivity.
    + rewrite isRateLimit_status. apply Z.eqb_neq. exact Hno.
  - intros k Hk Hw.
    apply (Hother k); [exact Hk| |reflexivity].
    rewrite Hw. reflexivity.
  - intros ->. destruct (history_call_once wire) as [Hone Hnone].
    fold r in Hone, Hnone. split; [exact Hone|]. split; [exact Hnone|].
    intros retryAfter body Hw.
    apply (Hvalue 0%nat); [lia|]. rewrite Hw. reflexivity.
  - intros Hheader.
    assert (Hd : forall j d, nth_error (delays r) j = Some d ->
              site <> OpenInterestHistory
              /\ d = (seed * pow (ofZ 2) j)%num).
    { intros j d Hnth.
      destruct (Hwait j d Hnth) as (Hsite & retryAfter & body & Hw & ->).
      rewrite (Hheader _ _ _ _ Hw). auto. }
    exists (length (delays r)).
    assert (Hbound : (length (delays r) < attempts)%nat) by lia.
    destruct (delays r) as [|d0 [|d1 [|d2 rest]]] eqn:Hds.
    + destruct site; reflexivity.
    + destruct (Hd 0%nat d0 eq_refl) as [Hsite ->].
      destruct site; try reflexivity. congruence.
    + destruct (Hd 0%nat d0 eq_refl) as [Hsite ->].
      destruct (Hd 1%nat d1 eq_refl) as [_ ->].
      destruct site; try reflexivity.
      * cbn in Hbound. lia.
      * congruence.
    + exfalso. destruct site; cbn in Hbound; lia.
  - intros sqrtQ ticker w history f daily fourHour current. split.
    + destruct (call_sites_of_a_task w history (fun _ _ => NoAnswer)
                  (OpenInterest.mkEndpoint "1h" 200))
        as (Hdaily & Hfour & _).
      fold f in Hdaily, Hfour. fold daily in Hdaily.
      fold fourHour in Hfour.
      unfold processTicker. rewrite Hdaily, Hfour.
      destruct (falsy _ || _ || _); [left; reflexivity|].
      destruct (completion daily) as [klinesResponse| |];
        [right|left; reflexivity|left; reflexivity].
      exists klinesResponse. split; reflexivity.
    + reflexivity.
  - intros hwire endpoint rest. cbn [OpenInterest.tryEndpoints].
    destruct (call_sites_of_a_task
                (mkSymbolWires (fun _ => NoAnswer) (fun _ => NoAnswer)
                               (fun _ => NoAnswer))
                (None, None) hwire endpoint) as (_ & _ & _ & Hhist).
    rewrite Hhist.
    destruct (completion
                (wrappedCall OpenInterestHistory (hwire endpoint)))
      as [response| |]; reflexivity.
Qed.

Import Pipeline.

(** C10.  With [maxRetries >= 1] the call ends with the value one
    invocation of [fn] resolved to, or with the error one invocation was
    rejected with: the [return null] after the loop is not reached.  So
    the branch [if (!currentOIResponse)] of the open-interest caller,
    whose responses are objects, is never taken. *)
Theorem retry_null_unreachable (T : Type) (fn : nat -> Outcome T)
    (maxRetries : nat) (baseDelay : num) :
  (1 <= maxRetries)%nat ->
  let r := retryWithBackoff fn maxRetries baseDelay in
  ((exists k v, (k < maxRetries)%nat /\ fn k = Resolved v
                /\ completion r = Returned v)
   \/ (exists k e, (k < maxRetries)%nat /\ fn k = Rejected e
                   /\ completion r = Thrown e))
  /\ completion r <> ReturnedNull
  /\ (forall f : SymbolFetch, fetchCurrentOI f <> OINullBranch).
Proof.
  intros Hpos r.
  assert (H : forall U (g : nat -> Outcome U) n b, (1 <= n)%nat ->
            completion (retryWithBackoff g n b) <> ReturnedNull).
  { intros U g n b Hn.
    destruct (@loop_completion U g n b n 0 Hn)
      as [(k & v & _ & _ & Hc)|(k & e & _ & _ & Hc)];
      try lia; unfold retryWithBackoff; rewrite Hc; discriminate. }
  split; [|split].
  - apply loop_completion; lia.
  - apply H; exact Hpos.
  - intros f. unfold fetchCurrentOI.
    specialize (H _ (fetchOpenInterest f) 2%nat (ofZ 500)).
    destruct (completion _); try discriminate.
    exfalso. apply H; [lia|reflexivity].
Qed.

Lemma retry_policy_witness :
  let r := wrappedCall DailyKlines (RetryLaws.twice429 Samples.threeDays) in
  calls r = 3%nat
  /\ delays r = [ofZ 1000; ofZ 7000]
  /\ completion r = Returned (mkAxiosResponse 200 (Some Samples.threeDays)).
Proof.
  intros r.
  destruct (@retry_policy _ DailyKlines
              (RetryLaws.twice429 Samples.threeDays))
    as (_ & Hlen & Hwait & Hlimit & Hvalue & _).
  fold r in Hlen, Hwait, Hlimit, Hvalue.
  assert (H1 : (1 < calls r)%nat).
  { apply (proj1 (Hlimit 0%nat None None ltac:(vm_compute; lia) eq_refl
                    ltac:(discriminate))). lia. }
  assert (H2 : (2 < calls r)%nat).
  { apply (proj1 (Hlimit 1%nat (Some (ofZ 7)) None H1 eq_refl
                    ltac:(discriminate))). lia. }
  destruct (Hvalue 2%nat 200%Z None (Some Samples.threeDays) H2 eq_refl
              ltac:(lia)) as [Hc Hn].
  split; [exact Hn|]. split; [|exact Hc].
  assert (Htwo : length (delays r) = 2%nat) by lia.
  destruct (delays r) as [|d0 [|d1 [|d2 rest]]] eqn:Hds;
    try discriminate Htwo.
  destruct (Hwait 0%nat d0 eq_refl) as (_ & ra0 & b0 & Hw0 & ->).
  destruct (Hwait 1%nat d1 eq_refl) as (_ & ra1 & b1 & Hw1 & ->).
  cbn [RetryLaws.twice429] in Hw0, Hw1.
  injection Hw0 as <- <-. injection Hw1 as <- <-. reflexivity.
Defined.

(** C9, the counterexample.  Let every request be answered 429 without
    header.  The call for the current open interest waits 500 ms once
    and gives up after two requests; the call for the open-interest
    history takes the first 429 for a response and asks no second
    time. *)
Lemma not_every_site_retries_thrice :
  wrappedCall CurrentOpenInterest RetryLaws.always429
  = mkRun (Thrown (mkHttpError (Some 429%Z) None)) [ofZ 500] 2
  /\ wrappedCall OpenInterestHistory RetryLaws.always429
     = mkRun (Returned (mkAxiosResponse 429 None)) [] 1
  /\ ~ RetryLaws.retriesThriceFromOneSecond.
Proof.
  split; [reflexivity|]. split; [reflexivity|].
  intros Hlaw.
  destruct (Hlaw nat OpenInterestHistory RetryLaws.always429)
    as (_ & _ & Hretried).
  - intros k status retryAfter body [= _ <- _]. reflexivity.
  - specialize (Hretried 0%nat None).
    change (calls (wrappedCall OpenInterestHistory RetryLaws.always429))
      with 1%nat in Hretried.
    assert (H : (1 < 1)%nat) by (apply Hretried; [lia|lia|reflexivity]).
    lia.
Qed.

Lemma retry_null_unreachable_witness :
  completion (retryWithBackoff Samples.alwaysRateLimited 2 (ofZ 500))
  <> ReturnedNull.
Proof.
  exact (proj1 (proj2
    (@retry_null_unreachable nat Samples.alwaysRateLimited 2 (ofZ 500)
       (le_S 1 1 (le_n 1))))).
Defined.

(** Three rate limits in a row under the default policy: delays of one
    and two seconds, then the third error is rethrown. *)
Example default_policy_always_rate_limited :
  retryWithBackoffDefault Samples.alwaysRateLimited
  = mkRun (Thrown Samples.rateLimited) [ofZ 1000; ofZ 2000] 3.
Proof. reflexivity. Qed.

(** The open-interest call site passes two attempts and 500 ms. *)
Example current_oi_policy_always_rate_limited :
  retryWithBackoff Samples.alwaysRateLimited 2 (ofZ 500)
  = mkRun (Thrown Samples.rateLimited) [ofZ 500] 2.
Proof. reflexivity. Qed.

(** Without a single allowed attempt the loop body never runs. *)
Example zero_attempts_return_null :
  completion (retryWithBackoff Samples.alwaysRateLimited 0 (ofZ 1000))
  = ReturnedNull.
Proof. reflexivity. Qed.

End RetryProps.

(** ** Indicator engine *)

Module IndicatorProps.

Import Indicators Market NumProps.

(** *** Rolling returns *)

(** The daily return compares with the close one period before the last
    candle, and needs two candles. *)
Lemma daily_return_spec price klines :
  ((2 <= length klines)%nat ->
     calcDailyReturn price klines
     = pctChange price (closeAt klines (length klines - 1 - 1)))
  /\ ((length klines < 2)%nat -> calcDailyReturn price klines = zero).
Proof.
  unfold calcDailyReturn. split; intros H.
  - replace (2 <=? length klines)%nat with true
      by (symmetry; apply Nat.leb_le; lia).
    do 2 f_equal. lia.
  - replace (2 <=? length klines)%nat with false
      by (symmetry; apply Nat.leb_gt; lia).
    reflexivity.
Qed.

(** The weekly return compares with the close seven periods before the
    last candle, and needs eight candles. *)
Lemma weekly_return_spec price klines :
  ((8 <= length klines)%nat ->
     calcWeeklyReturn price klines
     = pctChange price (closeAt klines (length klines - 1 - 7)))
  /\ ((length klines < 8)%nat -> calcWeeklyReturn price klines = zero).
Proof.
  unfold calcWeeklyReturn. split; intros H.
  - replace (8 <=? length klines)%nat with true
      by (symmetry; apply Nat.leb_le; lia).
    do 2 f_equal. lia.
  - replace (8 <=? length klines)%nat with false
      by (symmetry; apply Nat.leb_gt; lia).
    reflexivity.
Qed.

(** The monthly return needs thirty candles only, and compares with the
    close twenty-nine periods before the last candle. *)
Lemma monthly_return_spec price klines :
  ((30 <= length klines)%nat ->
     calcMonthlyReturn price klines
     = pctChange price (closeAt klines (length klines - 1 - 29)))
  /\ ((length klines < 30)%nat -> calcMonthlyReturn price klines = zero).
Proof.
  unfold calcMonthlyReturn. split; intros H.
  - replace (30 <=? length klines)%nat with true
      by (symmetry; apply Nat.leb_le; lia).
    do 2 f_equal. lia.
  - replace (30 <=? length klines)%nat with false
      by (symmetry; apply Nat.leb_gt; lia).
    reflexivity.
Qed.

(** The example of the specification: with a close of 110 one period
    before the last candle and a price of 115, the daily return is
    (115 - 110) / 110 * 100 = 50/11, about 4.545. *)
Example daily_return_example :
  calcDailyReturn (ofZ 115)
    [Samples.candle 100; Samples.candle 105; Samples.candle 110;
     Samples.candle 112]
  = Fin (50 # 11).
Proof. reflexivity. Qed.

(** C2.  The monthly return on the code.  With thirty candles closing at
    100 and a price of 110 it is 10, where a return over 30 periods needs
    31 candles and would be 0.  With the thirty-one candles [bump31] and
    a price of 200 it is 0, the change against the close 29 periods
    before the last candle (200), where the close 30 periods back (100)
    gives 100. *)
Theorem monthly_return_one_period_short :
  length Samples.flat30 = 30%nat
  /\ calcMonthlyReturn (ofZ 110) Samples.flat30 = ofZ 10
  /\ calcMonthlyReturn (ofZ 110) Samples.flat30 <> zero
  /\ length Samples.bump31 = 31%nat
  /\ calcMonthlyReturn (ofZ 200) Samples.bump31 = zero
  /\ pctChange (ofZ 200)
       (closeAt Samples.bump31 (length Samples.bump31 - 1 - 30))
     = ofZ 100.
Proof.
  repeat split; try reflexivity.
  vm_compute. discriminate.
Qed.

(** *** VWAP *)

Lemma positiveFinite_inv x :
  positiveFinite x = true -> exists q, x = Fin q /\ (0 < q)%Q.
Proof.
  unfold positiveFinite. intros H. apply andb_true_iff in H as [Hf Hp].
  apply isFinite_true in Hf as [q ->]. exists q. split; [reflexivity|].
  now apply gtb_zero_fin.
Qed.

Lemma nonNegativeFinite_inv x :
  nonNegativeFinite x = true -> exists q, x = Fin q /\ (0 <= q)%Q.
Proof.
  unfold nonNegativeFinite. intros H. apply andb_true_iff in H as [Hf Hp].
  apply isFinite_true in Hf as [q ->]. exists q. split; [reflexivity|].
  unfold geb, zero, ofZ in Hp. simpl in Hp. now apply Qle_bool_iff in Hp.
Qed.

Lemma Qred_idem q : Qred (Qred q) = Qred q.
Proof. apply Qred_complete. apply Qred_correct. Qed.

(** A value in lowest terms that equals zero is the term [zero]. *)
Lemma canonical_zero q : Qred q = q -> (q == 0)%Q -> Fin q = zero.
Proof.
  intros Hc Hz. rewrite <- Hc. unfold zero, ofZ. f_equal.
  change (inject_Z 0) with (Qred 0). now apply Qred_complete.
Qed.

Lemma typicalPrice_positive k :
  marketCandle k = true ->
  exists tp, typicalPrice k = Fin tp /\ (0 < tp)%Q.
Proof.
  unfold marketCandle. intros H.
  apply andb_true_iff in H as [H _].
  apply andb_true_iff in H as [H Hc].
  apply andb_true_iff in H as [Hh Hl].
  apply positiveFinite_inv in Hh as (h & Eh & Hh).
  apply positiveFinite_inv in Hl as (l & El & Hl).
  apply positiveFinite_inv in Hc as (c & Ec & Hc).
  unfold typicalPrice. rewrite Eh, El, Ec.
  rewrite add_fin. unfold fin at 1. rewrite add_fin. unfold fin at 1.
  unfold ofZ. rewrite div_fin by (intros E; discriminate).
  eexists. split; [reflexivity|].
  rewrite !Qred_correct.
  apply Qlt_shift_div_l; [reflexivity|]. lra.
Qed.

(** The two accumulators of the loop over well-formed candles: both stay
    finite, neither decreases, and the weighted sum grows whenever the
    volume does. *)
Lemma vwap_accumulators (period : list Kline) :
  Forall (fun k => marketCandle k = true) period ->
  forall a p, (0 <= a)%Q -> (0 <= p)%Q -> Qred a = a ->
  exists tv tpv,
    fold_left (fun acc k => (acc + kvolume k)%num) period (Fin a) = Fin tv
    /\ fold_left (fun acc k => (acc + typicalPrice k * kvolume k)%num)
         period (Fin p) = Fin tpv
    /\ (a <= tv)%Q /\ (p <= tpv)%Q /\ ((a < tv)%Q -> (p < tpv)%Q)
    /\ Qred tv = tv.
Proof.
  induction 1 as [|k period Hk Hrest IH]; intros a p Ha Hp Hcanon;
    cbn [fold_left].
  - exists a, p. repeat split; auto; lra.
  - destruct (typicalPrice_positive k Hk) as (tp & Etp & Htp).
    unfold marketCandle in Hk. apply andb_true_iff in Hk as [_ Hv].
    apply nonNegativeFinite_inv in Hv as (v & Ev & Hv).
    rewrite Etp, Ev. rewrite mul_fin. unfold fin. rewrite !add_fin.
    unfold fin.
    destruct (IH (Qred (a + v)) (Qred (p + Qred (tp * v))))
      as (tv & tpv & Etv & Etpv & Hale & Hple & Hlt & Hc).
    + rewrite Qred_correct. lra.
    + rewrite !Qred_correct.
      assert (0 <= tp * v)%Q by (apply Qmult_le_0_compat; lra). lra.
    + apply Qred_idem.
    + exists tv, tpv. rewrite !Qred_correct in *.
      assert (Hpos : (0 <= tp * v)%Q) by (apply Qmult_le_0_compat; lra).
      repeat split; auto; try lra.
      intros Hgrow.
      destruct (Qlt_le_dec 0 v) as [Hv0|Hv0].
      * assert (0 < tp * v)%Q by (apply Qmult_lt_0_compat; lra). lra.
      * assert (Hgrow' : (a + v < tv)%Q) by lra.
        specialize (Hlt Hgrow'). lra.
Qed.

(** The trailing window for a positive number of days. *)
Lemma sliceLast_trailing (A : Type) (n : nat) (xs : list A) :
  (1 <= n)%nat ->
  sliceLast n xs = skipn (length xs - n) xs
  /\ length (sliceLast n xs) = Nat.min n (length xs).
Proof.
  intros Hn. destruct n as [|n']; [lia|]. unfold sliceLast.
  split; [reflexivity|]. rewrite length_skipn. lia.
Qed.

(** The VWAP of a series and a window through the accumulators of the
    loop: the quotient of the two when the summed volume is positive,
    the current price when it is zero; the distance formula when the
    VWAP is positive; on well-formed candles and for a finite positive
    current price, the summed volume is zero or positive and the VWAP
    is positive. *)
Lemma calculateVWAP_law (price : num) (klines : list Kline) (days : nat) :
  let window := sliceLast days klines in
  let r := calculateVWAP price klines days in
  ((totalVolume window >? zero)%num = true ->
     vwap r = (totalPriceVolume window / totalVolume window)%num)
  /\ (totalVolume window = zero -> vwap r = price)
  /\ ((vwap r >? zero)%num = true ->
      distance r = (((price - vwap r) / vwap r) * ofZ 100)%num)
  /\ (forall k, typicalPrice k = ((high k + low k + close k) / ofZ 3)%num)
  /\ ((1 <= days)%nat -> window = skipn (length klines - days) klines)
  /\ (positiveFinite price = true ->
      Forall (fun k => marketCandle k = true) window ->
      (totalVolume window = zero
       \/ (totalVolume window >? zero)%num = true)
      /\ (vwap r >? zero)%num = true
      /\ distance r = (((price - vwap r) / vwap r) * ofZ 100)%num).
Proof.
  intros window r.
  assert (Hdist : (vwap r >? zero)%num = true ->
            distance r = (((price - vwap r) / vwap r) * ofZ 100)%num).
  { subst r. unfold calculateVWAP. fold window. cbn [vwap distance].
    intros ->. reflexivity. }
  split; [|split; [|split; [|split; [|split]]]].
  - subst r. unfold calculateVWAP. fold window. cbn [vwap].
    intros ->. reflexivity.
  - subst r. unfold calculateVWAP. fold window. cbn [vwap].
    intros ->. reflexivity.
  - exact Hdist.
  - reflexivity.
  - intros Hd. now apply sliceLast_trailing.
  - intros Hprice Hwf.
    assert (Hp0 : (price >? zero)%num = true).
    { unfold positiveFinite in Hprice.
      now apply andb_true_iff in Hprice as [_ ?]. }
    destruct (@vwap_accumulators window Hwf 0 0) as
      (tv & tpv & Etv & Etpv & Htv & Htpv & Hlt & Hc);
      try lra; try reflexivity.
    change (totalVolume window = Fin tv) in Etv.
    change (totalPriceVolume window = Fin tpv) in Etpv.
    assert (Hcases : totalVolume window = zero
                     \/ (totalVolume window >? zero)%num = true).
    { rewrite Etv. destruct (Qlt_le_dec 0 tv) as [Hpos|Hzero].
      - right. now apply gtb_zero_fin.
      - left. apply canonical_zero; [exact Hc | lra]. }
    assert (Hv : (vwap r >? zero)%num = true).
    { subst r. unfold calculateVWAP. fold window. cbn [vwap].
      rewrite Etv, Etpv.
      destruct (Fin tv >? zero)%num eqn:Hg; [|exact Hp0].
      apply gtb_zero_fin in Hg.
      rewrite div_fin by lra. unfold fin. apply gtb_zero_fin.
      rewrite Qred_correct. apply Qlt_shift_div_l; [exact Hg|].
      specialize (Hlt Hg). lra. }
    split; [exact Hcases|]. split; [exact Hv|]. now apply Hdist.
Qed.

(** The fallback law on candles without volume. *)
Example vwap_zero_volume :
  calculateVWAP (ofZ 115) [Samples.candleV 100 0; Samples.candleV 110 0] 7
  = mkVwap (ofZ 115) zero.
Proof. reflexivity. Qed.

(** *** EMA *)

Lemma validClose_inv k :
  validClose k = true -> exists c, close k = Fin c /\ (0 < c)%Q.
Proof.
  unfold validClose. intros H.
  apply andb_true_iff in H as [H Hf].
  apply andb_true_iff in H as [_ Hp].
  apply isFinite_true in Hf as [c Hc]. exists c. split; [exact Hc|].
  rewrite Hc in Hp. now apply gtb_zero_fin.
Qed.

(** For a period of at least one the smoothing factor lies in (0, 1]. *)
Lemma smoothing_range period :
  (1 <= period)%nat ->
  exists k, smoothing period = Fin k /\ (0 < k)%Q /\ (k <= 1)%Q.
Proof.
  intros Hp. unfold smoothing, ofNat, ofZ.
  assert (Hden : (2 <= inject_Z (Z.of_nat (period + 1)))%Q).
  { change 2%Q with (inject_Z 2). rewrite <- Zle_Qle. lia. }
  change (inject_Z 2) with 2%Q.
  generalize dependent (inject_Z (Z.of_nat (period + 1))). intros d Hden.
  rewrite div_fin by lra.
  eexists. split; [reflexivity|]. rewrite Qred_correct. split.
  - apply Qlt_shift_div_l; lra.
  - apply Qle_shift_div_r; lra.
Qed.

(** One step keeps the average finite and positive. *)
Lemma emaStep_positive k e c :
  (0 < k)%Q -> (k <= 1)%Q -> (0 < e)%Q -> (0 < c)%Q ->
  exists e', emaStep (Fin k) (Fin e) (Fin c) = Fin e' /\ (0 < e')%Q.
Proof.
  intros Hk0 Hk1 He Hc. unfold emaStep, one, ofZ.
  rewrite sub_fin. unfold fin. rewrite !mul_fin. unfold fin.
  rewrite add_fin. eexists. split; [reflexivity|].
  rewrite !Qred_correct.
  assert (0 < c * k)%Q by (apply Qmult_lt_0_compat; lra).
  assert (0 <= e * (inject_Z 1 - k))%Q.
  { apply Qmult_le_0_compat; [lra|]. change (inject_Z 1) with 1%Q. lra. }
  lra.
Qed.

Lemma ema_fold_positive k closes e :
  (0 < k)%Q -> (k <= 1)%Q -> (0 < e)%Q ->
  Forall (fun c => exists q, c = Fin q /\ (0 < q)%Q) closes ->
  exists e', fold_left (emaStep (Fin k)) closes (Fin e) = Fin e'
             /\ (0 < e')%Q.
Proof.
  intros Hk0 Hk1 He Hall. revert e He.
  induction Hall as [|c closes (q & -> & Hq) _ IH]; intros e He; simpl.
  - eauto.
  - destruct (@emaStep_positive k e q Hk0 Hk1 He Hq) as (e1 & E1 & He1).
    rewrite E1. now apply IH.
Qed.

(** C5.  The EMA is the current price when fewer than [period] closes
    pass the filter (not [NaN], positive, finite).  Otherwise, for a
    period of at least one, it is the fold, over the filtered closes
    after the first, of ema' = close * k + ema * (1 - k) with k = 2 /
    (period + 1), started at the first filtered close: the average stays
    finite and positive, and the last test of the function lets it
    through. *)
Theorem ema_law (price : num) (klines : list Kline) (period : nat) :
  let validKlines := filter validClose klines in
  let k := (ofZ 2 / ofNat (period + 1))%num in
  let step := fun ema c => (c * k + ema * (one - k))%num in
  ((length validKlines < period)%nat ->
     calculateEMA price klines period = Some price)
  /\ ((1 <= period)%nat -> (period <= length validKlines)%nat ->
      exists first rest,
        validKlines = first :: rest
        /\ calculateEMA price klines period
           = Some (fold_left step (map close rest) (close first))).
Proof.
  intros validKlines k step.
  assert (Hlen : (length validKlines <= length klines)%nat)
    by apply filter_length_le.
  unfold calculateEMA. fold validKlines. split.
  - intros Hshort.
    destruct (length klines <? period)%nat; [reflexivity|].
    replace (length validKlines <? period)%nat with true
      by (symmetry; apply Nat.ltb_lt; exact Hshort).
    reflexivity.
  - intros Hperiod Henough.
    replace (length klines <? period)%nat with false
      by (symmetry; apply Nat.ltb_ge; lia).
    replace (length validKlines <? period)%nat with false
      by (symmetry; apply Nat.ltb_ge; exact Henough).
    assert (Hvalid : Forall (fun x => validClose x = true) validKlines).
    { apply Forall_forall. intros x Hx.
      now apply filter_In in Hx as [_ ?]. }
    destruct validKlines as [|first rest] eqn:Ev; [simpl in Henough; lia|].
    exists first, rest. split; [reflexivity|].
    inversion Hvalid as [|? ? Hfirst Hrest]; subst.
    destruct (validClose_inv _ Hfirst) as (c0 & Ec0 & Hc0).
    destruct (smoothing_range Hperiod) as (q & Eq & Hq0 & Hq1).
    assert (Hcloses :
      Forall (fun c => exists q, c = Fin q /\ (0 < q)%Q) (map close rest)).
    { apply Forall_forall. intros c Hc. apply in_map_iff in Hc as (x & <- & Hx).
      apply validClose_inv. rewrite Forall_forall in Hrest. now apply Hrest. }
    destruct (@ema_fold_positive q (map close rest) c0 Hq0 Hq1 Hc0 Hcloses)
      as (e & Ee & He).
    change (fold_left step (map close rest) (close first))
      with (fold_left (emaStep (smoothing period)) (map close rest)
                      (close first)).
    rewrite Eq, Ec0, Ee. simpl isNaN. simpl isFinite.
    replace (Fin e <=? zero)%num with false; [reflexivity|].
    symmetry. unfold leb, zero, ofZ.
    destruct (Qle_bool e (inject_Z 0)) eqn:E; [|reflexivity].
    apply Qle_bool_iff in E. change (inject_Z 0) with 0%Q in E. lra.
Qed.

(** On the three sample candles: period 2 iterates from 100 over 104 and
    110 with k = 2/3; period 200 falls back to the current price. *)
Lemma ema_law_witness :
  calculateEMA (ofZ 115) Samples.threeDays 2 = Some (Fin (968 # 9))
  /\ calculateEMA (ofZ 115) Samples.threeDays 200 = Some (ofZ 115).
Proof.
  destruct (@ema_law (ofZ 115) Samples.threeDays 2) as [_ Hiter].
  destruct Hiter as (first & rest & Hvalid & Hema);
    [apply le_S, le_n | apply le_S, le_n |].
  injection Hvalid as <- <-.
  destruct (@ema_law (ofZ 115) Samples.threeDays 200) as [Hshort _].
  split; [rewrite Hema; reflexivity|].
  apply Hshort. apply Nat.ltb_lt. reflexivity.
Defined.

(** *** Z-score *)

Section Sums.

Variable A : Type.
Variable f : A -> num.

Local Abbreviation total := (fold_left (fun acc v => (acc + f v)%num)).

(** [NaN] is absorbing in a running sum. *)
Lemma total_not_nan xs init :
  total xs init <> NaN ->
  init <> NaN /\ Forall (fun x => f x <> NaN) xs.
Proof.
  revert init. induction xs as [|x xs IH]; intros init; simpl.
  - auto.
  - intros H. apply IH in H as [H Hall].
    apply add_not_nan in H as [Hi Hx]. auto.
Qed.

Lemma total_fin_inv xs init s :
  total xs init = Fin s ->
  (exists a, init = Fin a) /\ Forall (fun x => exists q, f x = Fin q) xs.
Proof.
  revert init. induction xs as [|x xs IH]; intros init; simpl.
  - intros ->. eauto.
  - intros H. apply IH in H as [(a & Ha) Hall].
    apply add_fin_inv in Ha as (b & c & -> & Hc). eauto.
Qed.

Lemma total_fin xs a :
  Forall (fun x => exists q, f x = Fin q) xs ->
  exists s, total xs (Fin a) = Fin s.
Proof.
  intros Hall. revert a.
  induction Hall as [|x xs (q & Hq) _ IH]; intros a; cbn [fold_left].
  - eauto.
  - rewrite Hq. rewrite add_fin. apply IH.
Qed.

Lemma total_pinf_inv xs init :
  total xs init = PInf -> init = PInf \/ Exists (fun x => f x = PInf) xs.
Proof.
  revert init. induction xs as [|x xs IH]; intros init; simpl.
  - auto.
  - intros H. apply IH in H as [H|H]; [|now right; right].
    destruct init, (f x) eqn:E; simpl in H; try discriminate; auto.
Qed.

Lemma total_ninf_inv xs init :
  total xs init = NInf -> init = NInf \/ Exists (fun x => f x = NInf) xs.
Proof.
  revert init. induction xs as [|x xs IH]; intros init; simpl.
  - auto.
  - intros H. apply IH in H as [H|H]; [|now right; right].
    destruct init, (f x) eqn:E; simpl in H; try discriminate; auto.
Qed.

End Sums.

Lemma ofNat_positive n :
  (1 <= n)%nat -> exists q, ofNat n = Fin q /\ (0 < q)%Q.
Proof.
  intros Hn. unfold ofNat, ofZ. eexists. split; [reflexivity|].
  change 0%Q with (inject_Z 0). rewrite <- Zlt_Qlt. lia.
Qed.

(** Dividing by a finite positive number keeps the kind of a number. *)
Lemma div_positive_kind x n :
  (0 < n)%Q ->
  match x with
  | NaN => (x / Fin n)%num = NaN
  | PInf => (x / Fin n)%num = PInf
  | NInf => (x / Fin n)%num = NInf
  | Fin a => (x / Fin n)%num = fin (a / n)
  end.
Proof.
  intros Hn. destruct x; simpl; try reflexivity.
  - replace (Qltb n 0) with false; [reflexivity|].
    symmetry. apply Qltb_ge. lra.
  - replace (Qltb n 0) with false; [reflexivity|].
    symmetry. apply Qltb_ge. lra.
  - destruct (Qeq_bool n 0) eqn:E; [|reflexivity].
    apply Qeq_bool_iff in E. lra.
Qed.

Lemma pow2_not_nan x : pow x 2 <> NaN -> x <> NaN.
Proof. cbn [pow]. intros H. now apply mul_not_nan in H as [? _]. Qed.

Lemma pow2_fin a : exists q, pow (Fin a) 2 = Fin q.
Proof.
  cbn [pow]. unfold one, ofZ. rewrite mul_fin. unfold fin at 1.
  rewrite mul_fin. unfold fin. eexists. reflexivity.
Qed.

Section ZScoreProps.

Variable sqrtQ : Q -> Q.

Local Abbreviation squares m :=
  (fold_left (fun acc val => (acc + pow (val - m) 2)%num)).

(** As soon as the sum of the squared deviations is a number, the
    returns and their mean are finite. *)
Lemma finite_returns (xs : list num) :
  (1 <= length xs)%nat ->
  squares (mean xs) xs zero <> NaN ->
  (exists m, mean xs = Fin m) /\ Forall (fun x => exists q, x = Fin q) xs.
Proof.
  intros Hlen Hsq.
  apply total_not_nan in Hsq as [_ Hdev].
  assert (Hsub : Forall (fun x => (x - mean xs)%num <> NaN) xs).
  { eapply Forall_impl; [|exact Hdev]. intros x. apply pow2_not_nan. }
  clear Hdev. rewrite Forall_forall in Hsub.
  destruct (ofNat_positive Hlen) as (n & En & Hn).
  pose proof (div_positive_kind (sum xs) Hn) as Hkind.
  unfold mean in *. rewrite En in *.
  assert (Hsum : sum xs = fold_left (fun acc v => (acc + v)%num) xs zero)
    by reflexivity.
  destruct (sum xs) as [| | |s] eqn:Es.
  - exfalso. rewrite Hkind in Hsub.
    destruct xs as [|x xs]; [simpl in Hlen; lia|].
    apply (Hsub x (or_introl eq_refl)). destruct x; reflexivity.
  - exfalso. rewrite Hkind in Hsub. symmetry in Hsum.
    apply (total_pinf_inv (fun v => v)) in Hsum as [H|H]; [discriminate|].
    apply Exists_exists in H as (x & Hin & ->).
    now apply (Hsub PInf Hin).
  - exfalso. rewrite Hkind in Hsub. symmetry in Hsum.
    apply (total_ninf_inv (fun v => v)) in Hsum as [H|H]; [discriminate|].
    apply Exists_exists in H as (x & Hin & ->).
    now apply (Hsub NInf Hin).
  - split; [rewrite Hkind; unfold fin; eauto|].
    symmetry in Hsum.
    now apply (total_fin_inv (fun v => v)) in Hsum as [_ ?].
Qed.

(** A positive standard deviation is finite, and so are then the mean
    and every return. *)
Lemma stdDev_positive_inv (xs : list num) :
  (1 <= length xs)%nat ->
  (stdDev sqrtQ xs >? zero)%num = true ->
  (exists s, stdDev sqrtQ xs = Fin s /\ (0 < s)%Q)
  /\ (exists m, mean xs = Fin m)
  /\ Forall (fun x => exists q, x = Fin q) xs.
Proof.
  intros Hlen Hpos.
  destruct (ofNat_positive Hlen) as (n & En & Hn).
  assert (Hvar : variance xs <> NaN).
  { intros E. unfold stdDev in Hpos. rewrite E in Hpos. discriminate. }
  assert (Hsq : squares (mean xs) xs zero <> NaN).
  { intros E. apply Hvar. unfold variance. rewrite E. reflexivity. }
  destruct (finite_returns xs Hlen Hsq) as [(m & Em) Hall].
  split; [|split; [eauto | exact Hall]].
  assert (Hfin : exists t, squares (mean xs) xs zero = Fin t).
  { apply (total_fin (fun val => pow (val - mean xs) 2)).
    eapply Forall_impl; [|exact Hall].
    intros x (q & ->). rewrite Em. rewrite sub_fin. unfold fin.
    apply pow2_fin. }
  destruct Hfin as (t & Et).
  unfold stdDev, variance in *. rewrite Et, En in *.
  assert (Hkind : (Fin t / Fin n)%num = fin (t / n))
    by (apply div_fin; lra).
  rewrite Hkind in *. unfold fin in *. unfold sqrt in *.
  destruct (Qltb (Qred (t / n)) 0); [discriminate|].
  unfold fin in *. eexists. split; [reflexivity|].
  now apply gtb_zero_fin.
Qed.

Lemma historicalReturns_step prev curr tl :
  historicalReturns (prev :: curr :: tl)
  = if (close prev >? zero)%num && (close curr >? zero)%num
       && negb (isNaN (close prev)) && negb (isNaN (close curr))
    then pctChange (close curr) (close prev)
         :: historicalReturns (curr :: tl)
    else historicalReturns (curr :: tl).
Proof. reflexivity. Qed.

Lemma historicalReturns_length recent :
  (length (historicalReturns recent) <= length recent - 1)%nat.
Proof.
  induction recent as [|prev tl IH]; [simpl; lia|].
  destruct tl as [|curr tl']; [simpl; lia|].
  rewrite historicalReturns_step.
  destruct (_ && _); cbn [length] in *; lia.
Qed.

(** A finite return between two closes, the earlier one positive, comes
    from two finite closes. *)
Lemma pctChange_fin_inv curr prev r :
  (prev >? zero)%num = true ->
  pctChange curr prev = Fin r ->
  exists c p, curr = Fin c /\ prev = Fin p.
Proof.
  unfold pctChange, hundred. intros Hprev H.
  destruct curr, prev; simpl in *; try discriminate; eauto;
    try (destruct (Qltb _ 0); simpl in H; discriminate);
    repeat match type of H with
           | context [if ?b then _ else _] => destruct b; simpl in H
           end;
    discriminate.
Qed.

(** When every pair of consecutive candles yields a finite return, the
    last candle closes at a finite positive price. *)
Lemma full_returns_last_close d recent :
  (2 <= length recent)%nat ->
  length (historicalReturns recent) = (length recent - 1)%nat ->
  Forall (fun x => exists q, x = Fin q) (historicalReturns recent) ->
  exists c, close (last recent d) = Fin c /\ (0 < c)%Q.
Proof.
  induction recent as [|prev tl IH]; [simpl; lia|].
  destruct tl as [|curr tl']; [simpl; lia|].
  intros _. rewrite historicalReturns_step.
  pose proof (historicalReturns_length (curr :: tl')) as Hle.
  destruct (_ && _) eqn:Hvalid; cbn [length] in *; [|lia].
  intros Hlen Hall. inversion Hall as [|? ? (r & Hr) Hrest]; subst.
  destruct tl' as [|next tl''].
  - apply andb_true_iff in Hvalid as [Hvalid _].
    apply andb_true_iff in Hvalid as [Hvalid _].
    apply andb_true_iff in Hvalid as [Hprev Hcurr].
    destruct (pctChange_fin_inv _ _ Hprev Hr) as (c & p & Ec & Ep).
    cbn [last]. exists c. split; [exact Ec|].
    rewrite Ec in Hcurr. now apply gtb_zero_fin.
  - change (last (prev :: curr :: next :: tl'') d)
      with (last (curr :: next :: tl'') d).
    apply IH; [cbn [length]; lia | cbn [length] in *; lia | exact Hrest].
Qed.

Lemma nth_error_last (A : Type) (d : A) (xs : list A) :
  xs <> [] -> nth_error xs (length xs - 1) = Some (last xs d).
Proof.
  induction xs as [|x xs IH]; [congruence|]. intros _.
  destruct xs as [|y xs']; [reflexivity|].
  cbn [length]. replace (S (S (length xs')) - 1)%nat
    with (S (length (y :: xs') - 1)) by (cbn [length]; lia).
  cbn [nth_error]. rewrite IH by discriminate. reflexivity.
Qed.

Lemma last_skipn (A : Type) (d : A) (k : nat) (xs : list A) :
  (k < length xs)%nat -> last (skipn k xs) d = last xs d.
Proof.
  revert xs. induction k as [|k IH]; intros xs Hk; [reflexivity|].
  destruct xs as [|x xs]; [simpl in Hk; lia|].
  cbn [skipn]. rewrite IH by (simpl in Hk; lia).
  destruct xs; [simpl in Hk; lia|reflexivity].
Qed.

(** Dividing by a finite positive number keeps the sign. *)
Lemma div_positive_sign x s :
  (0 < s)%Q -> x <> NaN ->
  (zero <? (x / Fin s))%num = (zero <? x)%num
  /\ ((x / Fin s) <? zero)%num = (x <? zero)%num.
Proof.
  intros Hs Hx.
  assert (Hneg : Qltb s 0 = false) by (apply Qltb_ge; lra).
  destruct x as [| | |d]; [congruence | | |].
  - cbn [div]. rewrite Hneg. split; reflexivity.
  - cbn [div]. rewrite Hneg. split; reflexivity.
  - rewrite div_fin by lra. unfold fin, zero, ofZ, ltb.
    change (inject_Z 0) with 0%Q. split.
    + destruct (Qltb 0 d) eqn:E.
      * apply Qltb_lt in E. apply Qltb_lt. rewrite Qred_correct.
        apply Qlt_shift_div_l; lra.
      * apply Qltb_ge in E. apply Qltb_ge. rewrite Qred_correct.
        apply Qle_shift_div_r; lra.
    + destruct (Qltb d 0) eqn:E.
      * apply Qltb_lt in E. apply Qltb_lt. rewrite Qred_correct.
        apply Qlt_shift_div_r; lra.
      * apply Qltb_ge in E. apply Qltb_ge. rewrite Qred_correct.
        apply Qle_shift_div_l; lra.
Qed.

(** The return of a price that is a number against a finite positive
    close is a number, and is finite when the price is. *)
Lemma pctChange_number price c :
  (0 < c)%Q -> price <> NaN ->
  pctChange price (Fin c) <> NaN
  /\ (isFinite price = true -> isFinite (pctChange price (Fin c)) = true).
Proof.
  intros Hc Hp.
  assert (Hneg : Qltb c 0 = false) by (apply Qltb_ge; lra).
  unfold pctChange, hundred, ofZ.
  destruct price as [| | |p]; [congruence | | |].
  - cbn. rewrite Hneg. cbn. split; [discriminate|discriminate].
  - cbn. rewrite Hneg. cbn. split; [discriminate|discriminate].
  - rewrite sub_fin. unfold fin. rewrite div_fin by lra.
    unfold fin. rewrite mul_fin. split; [discriminate|reflexivity].
Qed.

(** The z-score through the functions of the block.  With at least 31
    candles, at least 30 valid returns, a standard deviation above zero
    and a current price that is a number, the z-score is present, is the
    quotient of mean minus today's return by the standard deviation, and
    is positive or negative exactly when the numerator is; in this
    number model it is finite as soon as the current price is.  With
    fewer than 31 candles, fewer than 30 valid returns, or a standard
    deviation that is not above zero, the z-score is absent. *)
Lemma calcZScore_law (price : num) (klines : list Kline) (daily : num) :
  let rets := historicalReturns (sliceLast 31 klines) in
  let mu := mean rets in
  let sigma := stdDev sqrtQ rets in
  let today := pctChange price (closeAt klines (length klines - 1)) in
  let z := ((mu - today) / sigma)%num in
  ((31 <= length klines)%nat -> (30 <= length rets)%nat ->
   (sigma >? zero)%num = true -> isNaN price = false ->
     calcZScore sqrtQ price klines daily = Some z
     /\ (zero <? z)%num = (zero <? (mu - today))%num
     /\ (z <? zero)%num = ((mu - today) <? zero)%num
     /\ (isFinite price = true -> isFinite z = true))
  /\ ((length klines < 31)%nat \/ (length rets < 30)%nat
      \/ (sigma >? zero)%num = false ->
      calcZScore sqrtQ price klines daily = None).
Proof.
  intros rets mu sigma today z. split.
  - intros H31 H30 Hsigma Hprice.
    apply isNaN_false in Hprice.
    assert (Hwin : length (sliceLast 31 klines) = 31%nat).
    { destruct (@sliceLast_trailing _ 31 klines) as [_ ->]; lia. }
    pose proof (historicalReturns_length (sliceLast 31 klines)) as Hle.
    fold rets in Hle. rewrite Hwin in Hle.
    destruct (@stdDev_positive_inv rets) as
      ((s & Es & Hs) & (m & Em) & Hall); [lia | exact Hsigma |].
    fold sigma in Es. fold mu in Em.
    destruct (@full_returns_last_close (mkKline 0 NaN NaN NaN NaN NaN 0)
                (sliceLast 31 klines)) as (c & Ec & Hc);
      [lia | fold rets; lia | exact Hall |].
    assert (Hlast : closeAt klines (length klines - 1) = Fin c).
    { unfold closeAt.
      rewrite (@nth_error_last _ (mkKline 0 NaN NaN NaN NaN NaN 0))
        by (destruct klines; [simpl in H31; lia | discriminate]).
      rewrite <- Ec. f_equal. symmetry.
      destruct (@sliceLast_trailing _ 31 klines) as [-> _]; [lia|].
      apply last_skipn. lia. }
    destruct (@pctChange_number price c Hc Hprice) as [Htoday Htodayfin].
    rewrite <- Hlast in Htoday, Htodayfin.
    fold today in Htoday, Htodayfin.
    assert (Hdiff : (mu - today)%num <> NaN).
    { rewrite Em. destruct today; [congruence | | |]; discriminate. }
    assert (Hcode : calcZScore sqrtQ price klines daily = Some z).
    { unfold calcZScore.
      replace (31 <=? length klines)%nat with true
        by (symmetry; apply Nat.leb_le; lia).
      fold rets.
      replace (30 <=? length rets)%nat with true
        by (symmetry; apply Nat.leb_le; lia).
      fold mu. fold sigma.
      unfold todayReturn. rewrite Hlast.
      replace (Fin c >? zero)%num with true
        by (symmetry; now apply gtb_zero_fin).
      rewrite <- Hlast. fold today. fold z.
      apply isNaN_false in Htoday.
      rewrite Hsigma, Em, Es, Htoday. reflexivity. }
    split; [exact Hcode|].
    subst z. rewrite Es.
    destruct (@div_positive_sign (mu - today)%num s Hs Hdiff) as [Hp Hn].
    split; [exact Hp|]. split; [exact Hn|].
    intros Hfin. apply Htodayfin in Hfin.
    apply isFinite_true in Hfin as (t & Et).
    rewrite Em, Et, sub_fin. unfold fin.
    rewrite div_fin by lra. reflexivity.
  - intros Hnot. unfold calcZScore. fold rets. fold sigma.
    destruct (31 <=? length klines)%nat eqn:E31; [|reflexivity].
    destruct (30 <=? length rets)%nat eqn:E30; [|reflexivity].
    apply Nat.leb_le in E31, E30.
    destruct Hnot as [H|[H|H]]; [lia | lia |].
    rewrite H. reflexivity.
Qed.

(** When [sqrtQ] is positive exactly on the positive rationals, as a
    square root is, sigma is positive exactly when the variance is. *)
Lemma stdDev_positive_iff xs :
  (forall q, (0 <= q)%Q -> (0 < sqrtQ q)%Q <-> (0 < q)%Q) ->
  (stdDev sqrtQ xs >? zero)%num = (variance xs >? zero)%num.
Proof.
  intros Hsqrt. unfold stdDev.
  destruct (variance xs) as [| | |v]; try reflexivity.
  cbn [sqrt]. destruct (Qltb v 0) eqn:Hneg.
  - apply Qltb_lt in Hneg. symmetry. cbn.
    apply Qltb_ge. change (inject_Z 0) with 0%Q. lra.
  - apply Qltb_ge in Hneg. unfold fin.
    destruct (Fin v >? zero)%num eqn:Hv.
    + apply gtb_zero_fin in Hv. apply gtb_zero_fin.
      rewrite Qred_correct. now apply Hsqrt.
    + destruct (Fin (Qred (sqrtQ v)) >? zero)%num eqn:Hs; [|reflexivity].
      apply gtb_zero_fin in Hs. rewrite Qred_correct in Hs.
      apply (proj1 (Hsqrt v Hneg)) in Hs.
      apply gtb_zero_fin in Hs. congruence.
Qed.

End ZScoreProps.

(** The sample square root is positive exactly on the positive
    rationals. *)
Lemma sqrtFloor_positive q :
  (0 <= q)%Q -> (0 < Samples.sqrtFloor q)%Q <-> (0 < q)%Q.
Proof.
  intros _. destruct q as [n d]. unfold Samples.sqrtFloor. cbn [Qnum Qden].
  assert (Hd : (0 < inject_Z (Zpos d))%Q)
    by (change 0%Q with (inject_Z 0); rewrite <- Zlt_Qlt; lia).
  assert (Hroot : (0 < Z.sqrt (n * Zpos d))%Z <-> (0 < n)%Z).
  { rewrite Z.sqrt_pos. split; intros H; nia. }
  split; intros H.
  - unfold Qlt. cbn. rewrite Z.mul_1_r.
    apply Hroot.
    destruct (Z.lt_ge_cases 0 (Z.sqrt (n * Zpos d))) as [Hp|Hn];
      [exact Hp|].
    exfalso.
    assert (Hle : (inject_Z (Z.sqrt (n * Zpos d)) <= 0)%Q)
      by (change 0%Q with (inject_Z 0); rewrite <- Zle_Qle; exact Hn).
    assert (Hq : (inject_Z (Z.sqrt (n * Zpos d)) / inject_Z (Zpos d) <= 0)%Q).
    { apply Qle_shift_div_r; [exact Hd|]. lra. }
    lra.
  - apply Qlt_shift_div_l; [exact Hd|].
    assert (Hn : (0 < n)%Z) by (unfold Qlt in H; cbn in H; lia).
    apply Hroot in Hn.
    assert (0 < inject_Z (Z.sqrt (n * Zpos d)))%Q
      by (change 0%Q with (inject_Z 0); rewrite <- Zlt_Qlt; exact Hn).
    lra.
Qed.

End IndicatorProps.

(** ** Sorting by a key, largest first *)

Module SortProps.

Import JsArray NumProps Laws.

Section ByKey.

Variable A : Type.
Variable key : A -> num.

Lemma insert_perm x xs : Permutation (insert (descending key) x xs) (x :: xs).
Proof.
  induction xs as [|y ys IH]; cbn [insert]; [reflexivity|].
  destruct (descending key x y >? zero)%num; [|reflexivity].
  rewrite IH. apply perm_swap.
Qed.

Lemma sort_perm xs : Permutation (sort (descending key) xs) xs.
Proof.
  induction xs as [|x xs IH]; cbn [sort fold_right]; [reflexivity|].
  rewrite insert_perm. now constructor.
Qed.

Lemma insert_sorted x xs :
  key x <> NaN -> Forall (fun y => key y <> NaN) xs ->
  StronglySorted (notBelow key) xs ->
  StronglySorted (notBelow key) (insert (descending key) x xs).
Proof.
  intros Hx Hall Hsorted.
  induction Hsorted as [|y ys Hys IH Hy]; cbn [insert].
  - repeat constructor.
  - inversion Hall as [|? ? Hyn Hysn]; subst.
    unfold descending at 1. rewrite sub_gtb_zero.
    destruct (key x <? key y)%num eqn:Hlt.
    + constructor; [now apply IH|].
      apply Forall_forall. intros z Hz.
      apply (Permutation_in _ (insert_perm x ys)) in Hz.
      destruct Hz as [<-|Hz].
      * unfold notBelow. destruct (leb_total Hx Hyn) as [H|H]; [exact H|].
        apply ltb_leb_false in H; congruence.
      * rewrite Forall_forall in Hy. now apply Hy.
    + assert (Hyx : notBelow key x y) by now apply ltb_leb_false.
      constructor; [now constructor|].
      constructor; [exact Hyx|].
      eapply Forall_impl; [|exact Hy].
      intros z Hz. unfold notBelow in *. eapply leb_trans; eassumption.
Qed.

Lemma sort_sorted xs :
  Forall (fun y => key y <> NaN) xs ->
  StronglySorted (notBelow key) (sort (descending key) xs).
Proof.
  induction 1 as [|x xs Hx Hxs IH]; cbn [sort fold_right]; [constructor|].
  apply insert_sorted; auto.
  apply Forall_forall. intros y Hy.
  apply (Permutation_in _ (sort_perm xs)) in Hy.
  rewrite Forall_forall in Hxs. now apply Hxs.
Qed.

(** Stability: a tied group keeps its order. *)
Lemma insert_stable group x xs :
  tied key group ->
  filter group (insert (descending key) x xs) = filter group (x :: xs).
Proof.
  intros Htied. induction xs as [|y ys IH]; [reflexivity|].
  cbn [insert]. unfold descending at 1. rewrite sub_gtb_zero.
  destruct (key x <? key y)%num eqn:Hlt; [|reflexivity].
  cbn [filter] in *. rewrite IH.
  destruct (group x) eqn:Gx; [|reflexivity].
  destruct (group y) eqn:Gy; [|reflexivity].
  rewrite (Htied x y Gx Gy) in Hlt. discriminate.
Qed.

Lemma sort_stable group xs :
  tied key group -> filter group (sort (descending key) xs) = filter group xs.
Proof.
  intros Htied. induction xs as [|x xs IH]; [reflexivity|].
  cbn [sort fold_right]. fold (sort (descending key) xs).
  rewrite insert_stable by exact Htied.
  cbn [filter]. now rewrite IH.
Qed.

End ByKey.

(** The leading part of a list keeps the leading part of each group. *)
Lemma filter_firstn_prefix (A : Type) (p : A -> bool) n (xs : list A) :
  filter p xs = filter p (firstn n xs) ++ filter p (skipn n xs).
Proof. now rewrite <- filter_app, firstn_skipn. Qed.

Lemma StronglySorted_firstn (A : Type) (R : A -> A -> Prop) n xs :
  StronglySorted R xs -> StronglySorted R (firstn n xs).
Proof.
  intros H. revert n. induction H as [|x xs Hxs IH Hx]; intros n.
  - destruct n; constructor.
  - destruct n as [|n']; cbn [firstn]; constructor; [apply IH|].
    rewrite <- (firstn_skipn n' xs) in Hx.
    now apply Forall_app in Hx as [? _].
Qed.

End SortProps.

(** ** Instrument universe *)

Module UniverseProps.

Import JsArray Universe NumProps Laws SortProps.

Lemma has_In set s : has set s = true <-> In s set.
Proof.
  unfold has. rewrite existsb_exists. split.
  - intros (x & Hin & Heq). apply String.eqb_eq in Heq. now subst.
  - intros Hin. exists s. split; [exact Hin|]. apply String.eqb_refl.
Qed.

Lemma activeSymbols_In info s :
  In s (activeSymbols info) <->
  exists i, In i info /\ isymbol i = s
            /\ status i = "TRADING"%string
            /\ contractType i = "PERPETUAL"%string
            /\ endsWith s "USDT" = true.
Proof.
  unfold activeSymbols. rewrite in_map_iff. split.
  - intros (i & Hs & Hin). apply filter_In in Hin as [Hin Hact].
    unfold isActivePerpetual in Hact.
    apply andb_true_iff in Hact as [Hact Hends].
    apply andb_true_iff in Hact as [Hst Hct].
    apply String.eqb_eq in Hst, Hct.
    exists i. subst s. repeat split; assumption.
  - intros (i & Hin & Hs & Hst & Hct & Hends). exists i.
    split; [exact Hs|]. apply filter_In. split; [exact Hin|].
    unfold isActivePerpetual. rewrite Hst, Hct, Hs, Hends. reflexivity.
Qed.

Lemma eligible_inv active t :
  eligible active t = true ->
  In (tsymbol t) active
  /\ (quoteVolume t >? zero)%num = true
  /\ (lastPrice t >? zero)%num = true.
Proof.
  unfold eligible. intros H.
  apply andb_true_iff in H as [H _].
  apply andb_true_iff in H as [H Hp].
  apply andb_true_iff in H as [Ha Hv].
  apply has_In in Ha. auto.
Qed.

(** The universe is the first hundred of the eligible tickers sorted by
    quote volume. *)
Lemma usdtPairs_unfold info tickers :
  usdtPairs info tickers
  = firstn 100 (sort (descending quoteVolume)
                     (filter (eligible (activeSymbols info)) tickers)).
Proof. reflexivity. Qed.

Lemma usdtPairs_In info tickers t :
  In t (usdtPairs info tickers) ->
  In t tickers /\ eligible (activeSymbols info) t = true.
Proof.
  rewrite usdtPairs_unfold. intros H.
  assert (H' : In t (sort (descending quoteVolume)
                  (filter (eligible (activeSymbols info)) tickers))).
  { rewrite <- (firstn_skipn 100 (sort _ _)).
    apply in_or_app. left. exact H. }
  apply (Permutation_in _ (sort_perm quoteVolume _)) in H'.
  now apply filter_In in H'.
Qed.

(** C3.  The resolved universe has at most 100 tickers; each comes from
    the ticker list, its symbol has a metadata entry with status TRADING
    and contract type PERPETUAL and ends in USDT, and its parsed last
    price and 24h quote volume are strictly positive; the sequence is in
    descending order of quote volume; and tickers that the volume does
    not order keep the order of the ticker list, which fixes the place of
    every tie. *)
Theorem universe_law (info : list SymbolInfo) (tickers : list Ticker) :
  let universe := usdtPairs info tickers in
  (length universe <= 100)%nat
  /\ Forall (fun t =>
       In t tickers
       /\ (exists i, In i info /\ isymbol i = tsymbol t
                     /\ status i = "TRADING"%string
                     /\ contractType i = "PERPETUAL"%string
                     /\ endsWith (tsymbol t) "USDT" = true)
       /\ (lastPrice t >? zero)%num = true
       /\ (quoteVolume t >? zero)%num = true) universe
  /\ StronglySorted
       (fun a b => (quoteVolume b <=? quoteVolume a)%num = true) universe
  /\ (forall group, tied quoteVolume group ->
        exists cut,
          filter group (filter (eligible (activeSymbols info)) tickers)
          = filter group universe ++ cut).
Proof.
  intros universe. split; [|split; [|split]].
  - apply firstn_le_length.
  - apply Forall_forall. intros t Ht.
    apply usdtPairs_In in Ht as [Hin Hel].
    apply eligible_inv in Hel as (Hact & Hvol & Hprice).
    apply activeSymbols_In in Hact. auto.
  - subst universe. rewrite usdtPairs_unfold.
    apply StronglySorted_firstn.
    apply (sort_sorted quoteVolume).
    apply Forall_forall. intros t Ht. apply filter_In in Ht as [_ Hel].
    apply eligible_inv in Hel as (_ & Hvol & _).
    now apply gtb_not_nan in Hvol.
  - intros group Htied. subst universe. rewrite usdtPairs_unfold.
    exists (filter group
              (skipn 100 (sort (descending quoteVolume)
                 (filter (eligible (activeSymbols info)) tickers)))).
    rewrite <- filter_firstn_prefix.
    symmetry. now apply sort_stable.
Qed.

(** The example of the specification: OLDUSDT is in the ticker feed with
    the second largest volume, but its metadata status is not TRADING. *)
Example settling_symbol_excluded :
  map tsymbol (usdtPairs Samples.exchangeInfo (Samples.tickersAt 40000))
  = ["BTCUSDT"; "ETHUSDT"]%string.
Proof. reflexivity. Qed.

End UniverseProps.

(** ** Per-symbol computation and merge *)

Module PipelineProps.

Import JsArray Retry Indicators Pipeline NumProps Laws SortProps.

(** *** [Promise.allSettled] *)

Lemma length_setSlot (A : Type) j (v : A) slots :
  length (setSlot j v slots) = length slots.
Proof.
  revert j. induction slots as [|s slots IH]; intros [|j]; simpl; auto.
Qed.

Lemma nth_error_setSlot (A : Type) j (v : A) slots i :
  nth_error (setSlot j v slots) i
  = if (i =? j)%nat && (j <? length slots)%nat
    then Some (Some v) else nth_error slots i.
Proof.
  revert j i. induction slots as [|s slots IH]; intros j i.
  - destruct j, i; simpl; try reflexivity; now rewrite andb_false_r.
  - destruct j as [|j], i as [|i]; simpl; try reflexivity.
    rewrite IH. reflexivity.
Qed.

Section Settling.

Variable A : Type.
Variable promises : list A.

Local Abbreviation settle :=
  (fun slots j =>
     match nth_error promises j with
     | Some v => setSlot j v slots
     | None => slots
     end).

(** Slot [i] holds the value of promise [i] as soon as [i] occurs in the
    order of settlement. *)
Lemma nth_error_settled order slots i :
  length slots = length promises ->
  nth_error (fold_left settle order slots) i
  = if existsb (Nat.eqb i) order
    then option_map Some (nth_error promises i)
    else nth_error slots i.
Proof.
  revert slots. induction order as [|j rest IH]; intros slots Hlen;
    [reflexivity|].
  cbn [fold_left existsb].
  rewrite IH by (destruct (nth_error promises j);
                 [rewrite length_setSlot|]; exact Hlen).
  destruct (existsb (Nat.eqb i) rest); [now rewrite orb_true_r|].
  rewrite orb_false_r.
  destruct (nth_error promises j) as [v|] eqn:Hj.
  - rewrite nth_error_setSlot.
    assert (Hjlt : (j <? length slots)%nat = true).
    { apply Nat.ltb_lt. rewrite Hlen. apply nth_error_Some. congruence. }
    rewrite Hjlt, andb_true_r.
    destruct (i =? j)%nat eqn:E; [|reflexivity].
    apply Nat.eqb_eq in E. subst i. now rewrite Hj.
  - destruct (i =? j)%nat eqn:E; [|reflexivity].
    apply Nat.eqb_eq in E. subst i. rewrite Hj. simpl.
    apply nth_error_None. rewrite Hlen. now apply nth_error_None.
Qed.

(** Whatever the order in which the promises settle, once all have
    settled the array lists their values in the order of the promises. *)
Lemma allSettled_complete order :
  Permutation order (seq 0 (length promises)) ->
  allSettled order promises = map Some promises.
Proof.
  intros Hperm. apply nth_error_ext. intros i. unfold allSettled.
  rewrite nth_error_settled by apply repeat_length.
  rewrite nth_error_map.
  destruct (existsb (Nat.eqb i) order) eqn:E; [reflexivity|].
  destruct (Nat.lt_ge_cases i (length promises)) as [Hlt|Hge].
  - exfalso.
    assert (Hin : In i order).
    { apply (Permutation_in _ (Permutation_sym Hperm)).
      apply in_seq. lia. }
    assert (existsb (Nat.eqb i) order = true).
    { apply existsb_exists. exists i. split; [exact Hin|].
      apply Nat.eqb_refl. }
    congruence.
  - assert (Hnone : nth_error promises i = None)
      by now apply nth_error_None.
    rewrite Hnone. simpl. apply nth_error_None.
    rewrite repeat_length. exact Hge.
Qed.

(** A filled slot always holds the value of a promise. *)
Lemma allSettled_In order v :
  In (Some v) (allSettled order promises) -> In v promises.
Proof.
  intros Hin. apply In_nth_error in Hin as [i Hi].
  unfold allSettled in Hi.
  rewrite nth_error_settled in Hi by apply repeat_length.
  destruct (existsb (Nat.eqb i) order).
  - destruct (nth_error promises i) as [w|] eqn:Hw; [|discriminate].
    injection Hi as ->. eapply nth_error_In; eassumption.
  - apply nth_error_In, repeat_spec in Hi. discriminate.
Qed.

End Settling.

(** *** The merge *)

Lemma successful_fulfilled results :
  successful (map Some results) = kept results.
Proof.
  unfold successful, kept. induction results as [|r rs IH];
    [reflexivity|].
  cbn [map flat_map]. now rewrite IH.
Qed.

Lemma successful_In results r :
  In r (successful results) -> In (Some (Some r)) results.
Proof.
  unfold successful. rewrite in_flat_map.
  intros ([[x|]|] & Hin & Hr); simpl in Hr; try contradiction.
  destruct Hr as [->|[]]. exact Hin.
Qed.

Lemma kept_In results r : In r (kept results) <-> In (Some r) results.
Proof.
  unfold kept. rewrite in_flat_map. split.
  - intros ([x|] & Hin & Hr); simpl in Hr; [|contradiction].
    destruct Hr as [->|[]]. exact Hin.
  - intros Hin. exists (Some r). split; [exact Hin|now left].
Qed.

Lemma kept_app xs ys : kept (xs ++ ys) = kept xs ++ kept ys.
Proof. apply flat_map_app. Qed.

Lemma slice_skipn (A : Type) i n (xs : list A) :
  slice i (i + n) xs = firstn n (skipn i xs).
Proof. unfold slice. f_equal. lia. Qed.

Lemma slice_In (A : Type) i j (xs : list A) x :
  In x (slice i j xs) -> In x xs.
Proof.
  unfold slice. intros H.
  rewrite <- (firstn_skipn i xs). apply in_or_app. right.
  rewrite <- (firstn_skipn (j - i) (skipn i xs)).
  apply in_or_app. now left.
Qed.

Section Merge.

Variable sqrtQ : Q -> Q.

(** The batch loop ends before its fuel does, and collects the kept
    records of all tasks in the order of the tasks. *)
Lemma batchLoop_merged order tasks :
  completes order tasks ->
  forall fuel b acc,
    (length tasks <= (b + fuel) * BATCH_SIZE)%nat ->
    batchLoop sqrtQ fuel order tasks (b * BATCH_SIZE) acc
    = acc ++ merged sqrtQ (skipn (b * BATCH_SIZE) tasks).
Proof.
  intros Hvalid. induction fuel as [|fuel IH]; intros b acc Hfuel.
  - cbn [batchLoop].
    rewrite skipn_all2 by (rewrite Nat.add_0_r in Hfuel; exact Hfuel).
    now rewrite app_nil_r.
  - cbn [batchLoop].
    destruct (b * BATCH_SIZE <? length tasks)%nat eqn:Hi.
    + rewrite allSettled_complete
        by (rewrite length_map; apply Hvalid).
      rewrite successful_fulfilled.
      replace (b * BATCH_SIZE + BATCH_SIZE)%nat
        with (S b * BATCH_SIZE)%nat by (unfold BATCH_SIZE; lia).
      rewrite IH by (unfold BATCH_SIZE in *; lia).
      rewrite <- app_assoc. f_equal.
      replace (S b * BATCH_SIZE)%nat
        with (b * BATCH_SIZE + BATCH_SIZE)%nat by (unfold BATCH_SIZE; lia).
      rewrite slice_skipn.
      replace (merged sqrtQ (skipn (b * BATCH_SIZE) tasks))
        with (merged sqrtQ (firstn BATCH_SIZE (skipn (b * BATCH_SIZE) tasks)
                      ++ skipn BATCH_SIZE (skipn (b * BATCH_SIZE) tasks)))
        by now rewrite firstn_skipn.
      unfold merged, outcomes. rewrite map_app, kept_app.
      rewrite skipn_skipn.
      replace (BATCH_SIZE + b * BATCH_SIZE)%nat
        with (b * BATCH_SIZE + BATCH_SIZE)%nat by lia.
      reflexivity.
    + apply Nat.ltb_ge in Hi. rewrite skipn_all2 by lia.
      now rewrite app_nil_r.
Qed.

(** Whatever the completion order, the record set is the sorted list of
    the kept records. *)
Lemma cryptoData_merged order tasks :
  completes order tasks ->
  cryptoData sqrtQ order tasks = sort byVolume (merged sqrtQ tasks).
Proof.
  intros Hvalid. unfold cryptoData.
  change 0%nat with (0 * BATCH_SIZE)%nat.
  rewrite (batchLoop_merged Hvalid) by (unfold BATCH_SIZE; lia).
  reflexivity.
Qed.

(** Every record the loop collects is the result of a task. *)
Lemma batchLoop_In order tasks fuel i acc r :
  In r (batchLoop sqrtQ fuel order tasks i acc) ->
  In r acc
  \/ exists task, In task tasks
       /\ processTicker sqrtQ (fst task) (snd task) = Some r.
Proof.
  revert i acc. induction fuel as [|fuel IH]; intros i acc; cbn [batchLoop].
  - auto.
  - destruct (i <? length tasks)%nat; [|auto].
    intros H. apply IH in H as [H|H]; [|now right].
    apply in_app_or in H as [H|H]; [now left|]. right.
    apply successful_In, allSettled_In in H.
    apply in_map_iff in H as (task & Htask & Hin).
    exists task. split; [|exact Htask].
    eapply slice_In; eassumption.
Qed.

Lemma cryptoData_In order tasks r :
  In r (cryptoData sqrtQ order tasks) ->
  exists task, In task tasks
    /\ processTicker sqrtQ (fst task) (snd task) = Some r.
Proof.
  unfold cryptoData. intros H.
  apply (Permutation_in _ (sort_perm volume _)) in H.
  apply batchLoop_In in H as [[]|H]. exact H.
Qed.

(** *** The validity gate *)

Lemma computeRecord_inv ticker klines klines4h oi r :
  computeRecord sqrtQ ticker klines klines4h oi = Some r ->
  symbol r = tsymbol ticker
  /\ currentPrice r = lastPrice ticker
  /\ volume r = quoteVolume ticker
  /\ (quoteVolume ticker >=? minVolume)%num = true
  /\ (2 <= length klines)%nat
  /\ (closeAt klines (length klines - 2) >? zero)%num = true
  /\ isNaN (closeAt klines (length klines - 2)) = false.
Proof.
  unfold computeRecord.
  destruct (length klines =? 0)%nat; [discriminate|].
  destruct (negb (existsb positiveClose klines)); [discriminate|].
  destruct (ema4h _ _) as [e4h ref4h], (ema1d _ _) as [e1d ref1d].
  destruct (quoteVolume ticker >=? minVolume)%num eqn:Hvol;
    [|discriminate].
  destruct (2 <=? length klines)%nat eqn:Hlen; [|discriminate].
  destruct (closeAt klines (length klines - 2) >? zero)%num eqn:Hpos;
    [|discriminate].
  destruct (isNaN (closeAt klines (length klines - 2))) eqn:Hnan;
    [discriminate|].
  cbn. intros [= <-]. cbn. apply Nat.leb_le in Hlen.
  repeat split; auto.
Qed.

Lemma processTicker_inv ticker f r :
  processTicker sqrtQ ticker f = Some r ->
  exists klinesResponse klines4h,
    completion (retryWithBackoffDefault (fetchKlines1d f))
    = Returned klinesResponse
    /\ computeRecord sqrtQ ticker (dataOrEmpty klinesResponse) klines4h
         (oiChanges f) = Some r.
Proof.
  unfold processTicker.
  destruct (_ || _); [discriminate|].
  destruct (completion (retryWithBackoffDefault (fetchKlines1d f)))
    as [resp| |]; try discriminate.
  intros H. eauto.
Qed.

End Merge.

End PipelineProps.

(** ** Handler and snapshot cache *)

Module HandlerProps.

Import JsArray Retry Indicators Universe Pipeline Handler.
Import NumProps Laws SortProps PipelineProps UniverseProps.

Lemma map_fst_combine (A B : Type) (xs : list A) (ys : list B) :
  length xs = length ys -> map fst (combine xs ys) = xs.
Proof.
  revert ys. induction xs as [|x xs IH]; intros [|y ys] H; simpl in *;
    try discriminate; [reflexivity|].
  f_equal. apply IH. lia.
Qed.

Lemma tasksOf_fst u pairs : map fst (tasksOf u pairs) = pairs.
Proof.
  unfold tasksOf. apply map_fst_combine.
  now rewrite length_map, length_seq.
Qed.

Lemma NoDup_map_filter (A B : Type) (f : A -> B) p (xs : list A) :
  NoDup (map f xs) -> NoDup (map f (filter p xs)).
Proof.
  induction xs as [|x xs IH]; simpl; [auto|].
  intros H. inversion H as [|? ? Hnotin Hrest]; subst.
  destruct (p x); [|now apply IH].
  simpl. constructor; [|now apply IH].
  intros Hin. apply Hnotin.
  apply in_map_iff in Hin as (y & Hy & Hin).
  apply filter_In in Hin as [Hin _].
  apply in_map_iff. eauto.
Qed.

Lemma NoDup_firstn (A : Type) n (xs : list A) :
  NoDup xs -> NoDup (firstn n xs).
Proof.
  intros H. rewrite <- (firstn_skipn n xs) in H.
  now apply NoDup_app_remove_r in H.
Qed.

(** The universe lists no symbol twice when the ticker feed does not. *)
Lemma usdtPairs_NoDup info tickers :
  NoDup (map tsymbol tickers) ->
  NoDup (map tsymbol (usdtPairs info tickers)).
Proof.
  intros H. rewrite usdtPairs_unfold, <- firstn_map.
  apply NoDup_firstn.
  eapply Permutation_NoDup.
  - apply Permutation_map. apply Permutation_sym. apply sort_perm.
  - now apply NoDup_map_filter.
Qed.

Lemma combine_seq_In (A B : Type) (f : nat -> B) (xs : list A) :
  forall start x y,
    In (x, y) (combine xs (map f (seq start (length xs)))) ->
    exists i, nth_error xs i = Some x /\ y = f (start + i)%nat.
Proof.
  induction xs as [|x' xs IH]; intros start x y Hin; [destruct Hin|].
  cbn [length seq map combine] in Hin. destruct Hin as [Heq|Hin].
  - injection Heq as <- <-. exists 0%nat.
    rewrite Nat.add_0_r. split; reflexivity.
  - destruct (IH _ _ _ Hin) as (i & Hnth & ->).
    exists (S i). split; [exact Hnth|]. f_equal. lia.
Qed.

(** Each task pairs a ticker of the universe with the fetches of its
    index. *)
Lemma tasksOf_In u pairs task :
  In task (tasksOf u pairs) ->
  exists i, nth_error pairs i = Some (fst task)
            /\ snd task = fetches u i.
Proof.
  destruct task as [ticker f]. unfold tasksOf. intros Hin.
  apply combine_seq_In in Hin as (i & Hnth & ->).
  exists i. split; [exact Hnth|reflexivity].
Qed.

Lemma takeRequest_In id reqs u others :
  takeRequest id reqs = Some (u, others) ->
  In (id, u) reqs /\ (forall x, In x others -> In x reqs).
Proof.
  revert u others.
  induction reqs as [|[id' u'] rest IH]; cbn [takeRequest];
    intros u others H; [discriminate|].
  destruct (Nat.eqb_spec id id') as [->|Hne].
  - injection H as <- <-. split; [left; reflexivity|].
    intros x Hx. right. exact Hx.
  - destruct (takeRequest id rest) as [[found rest']|]; [|discriminate].
    injection H as <- <-.
    destruct (IH found rest' eq_refl) as [Hin Hsub].
    split; [right; exact Hin|].
    intros x [<-|Hx]; [left; reflexivity|right; apply Hsub; exact Hx].
Qed.

Lemma ltb_geb_false x y : (x <? y)%num = true -> (x >=? y)%num = false.
Proof.
  unfold geb. destruct x as [| | |a], y as [| | |b]; simpl;
    try congruence.
  intros H. apply Qltb_lt in H.
  destruct (Qle_bool b a) eqn:E; [|reflexivity].
  apply Qle_bool_iff in E. lra.
Qed.

Section WithSqrt.

Variable sqrtQ : Q -> Q.

Lemma runPipeline_inv u records :
  runPipeline sqrtQ u = Ok200 records ->
  exists info tickers,
    exchangeInfoResponse u = Resolved info
    /\ tickersResponse u = Resolved tickers
    /\ records = cryptoData sqrtQ (completionOrder u)
                   (tasksOf u (usdtPairs info tickers)).
Proof.
  unfold runPipeline.
  destruct (exchangeInfoResponse u) as [info|e];
    [|destruct (isRateLimit e); discriminate].
  destruct (tickersResponse u) as [tickers|e];
    [|destruct (isRateLimit e); discriminate].
  destruct (_ =? 0)%nat; [discriminate|].
  intros [= <-]. eauto.
Qed.

Lemma task_passesGate ticker f r :
  processTicker sqrtQ ticker f = Some r -> passesGate ticker f r.
Proof.
  intros H. apply processTicker_inv in H as (resp & k4 & Hc & Hr).
  apply computeRecord_inv in Hr
    as (Hsym & _ & Hvol & Hmin & Hlen & Hpos & Hnan).
  unfold passesGate. rewrite Hvol.
  split; [exact Hsym|]. split; [reflexivity|].
  split; [exact Hmin|]. split.
  - apply ltb_leb_false; [now apply geb_not_nan in Hmin | discriminate |].
    exact Hmin.
  - exists resp. cbv zeta. repeat split; auto.
Qed.

(** A task that fails the gate returns null. *)
Lemma task_failsGate ticker f :
  failsGate ticker f -> processTicker sqrtQ ticker f = None.
Proof.
  intros Hfails.
  destruct (processTicker sqrtQ ticker f) as [r|] eqn:Hr; [|reflexivity].
  exfalso. apply processTicker_inv in Hr as (resp & k4 & Hc & Hr).
  apply computeRecord_inv in Hr
    as (_ & _ & _ & Hmin & Hlen & Hpos & Hnan).
  destruct Hfails as [Hlow|Hclose].
  - apply ltb_geb_false in Hlow. congruence.
  - destruct (Hclose resp Hc) as [Hshort|[Hzero|Hnot]];
      [lia|congruence|congruence].
Qed.

Lemma run_recordOf u records r :
  runPipeline sqrtQ u = Ok200 records -> In r records ->
  recordOf sqrtQ u r.
Proof.
  intros Hrun Hin.
  apply runPipeline_inv in Hrun as (info & tickers & Hi & Ht & ->).
  apply cryptoData_In in Hin as ([ticker f] & Htask & Hr).
  apply tasksOf_In in Htask as (i & Hnth & Hf).
  cbn [fst snd] in Hnth, Hf, Hr. subst f.
  exists info, tickers, i, ticker.
  split; [exact Hi|]. split; [exact Ht|]. split; [exact Hnth|].
  split; [exact Hr|]. apply task_passesGate, Hr.
Qed.

(** *** What the server ever sends *)

Lemma cacheHit_inv c now body :
  cacheHit c now = Some body ->
  exists entry, c = Some entry /\ body = entryData entry
                /\ (now - timestamp entry < CACHE_TTL)%Z.
Proof.
  unfold cacheHit. destruct c as [entry|]; [|discriminate].
  destruct (_ <? _)%Z eqn:E; [|discriminate].
  intros [= <-]. apply Z.ltb_lt in E. eauto.
Qed.

Lemma served_more evs ev s :
  served sqrtQ evs s ->
  (forall id u, In (id, u) (inFlight s) ->
     exists now, In (Arrive id now u) (evs ++ [ev]))
  /\ (forall entry, cache s = Some entry ->
        exists id now u,
          In (Arrive id now u) (evs ++ [ev])
          /\ runPipeline sqrtQ u = Ok200 (entryData entry))
  /\ (forall id body, In (id, Ok200 body) (replies s) ->
        exists id' now u,
          In (Arrive id' now u) (evs ++ [ev])
          /\ runPipeline sqrtQ u = Ok200 body).
Proof.
  intros (Hfl & Hcache & Hreplies). split; [|split].
  - intros id u Hin. destruct (Hfl id u Hin) as [now Hnow].
    exists now. apply in_or_app. left. exact Hnow.
  - intros entry Hc. destruct (Hcache entry Hc) as (id & now & u & Hev & Hu).
    exists id, now, u. split; [apply in_or_app; left; exact Hev|exact Hu].
  - intros id body Hin.
    destruct (Hreplies id body Hin) as (id' & now & u & Hev & Hu).
    exists id', now, u. split; [apply in_or_app; left; exact Hev|exact Hu].
Qed.

Lemma step_served evs s ev :
  served sqrtQ evs s -> served sqrtQ (evs ++ [ev]) (step sqrtQ s ev).
Proof.
  intros Hs. pose proof (served_more ev Hs) as (Hfl & Hcache & Hreplies).
  destruct ev as [id now u|id now]; cbn [step].
  - destruct (cacheHit (cache s) now) as [body|] eqn:Hhit;
      (split; [|split]); cbn [inFlight cache replies].
    + exact Hfl.
    + exact Hcache.
    + intros id' body' Hin. apply in_app_or in Hin as [Hin|Hin].
      * eapply Hreplies; eassumption.
      * destruct Hin as [[= <- <-]|[]].
        apply cacheHit_inv in Hhit as (entry & He & -> & _).
        now apply Hcache.
    + intros id' u' Hin. apply in_app_or in Hin as [Hin|Hin].
      * eapply Hfl; eassumption.
      * destruct Hin as [[= <- <-]|[]]. exists now.
        apply in_or_app. right. left. reflexivity.
    + exact Hcache.
    + exact Hreplies.
  - destruct (takeRequest id (inFlight s)) as [[u others]|] eqn:Et;
      [|split; [|split]; assumption].
    destruct (takeRequest_In _ _ Et) as [Hu Hsub].
    destruct (Hfl id u Hu) as [now' Hnow'].
    assert (Hothers : forall id' u', In (id', u') others ->
              exists t, In (Arrive id' t u') (evs ++ [Finish id now])).
    { intros id' u' Hin. apply Hfl, Hsub, Hin. }
    destruct (runPipeline sqrtQ u) as [records| |] eqn:Hrun;
      (split; [|split]); cbn [inFlight cache replies];
      try exact Hothers; try exact Hcache.
    + intros entry [= <-]. cbn [entryData]. exists id, now', u. auto.
    + intros id' body' Hin. apply in_app_or in Hin as [Hin|Hin].
      * eapply Hreplies; eassumption.
      * destruct Hin as [[= <- <-]|[]]. exists id, now', u. auto.
    + intros id' body' Hin. apply in_app_or in Hin as [Hin|Hin].
      * eapply Hreplies; eassumption.
      * destruct Hin as [[=]|[]].
    + intros id' body' Hin. apply in_app_or in Hin as [Hin|Hin].
      * eapply Hreplies; eassumption.
      * destruct Hin as [[=]|[]].
Qed.

Lemma run_served events :
  forall evs s,
    served sqrtQ evs s ->
    served sqrtQ (evs ++ events) (run sqrtQ s events).
Proof.
  induction events as [|ev rest IH]; intros evs s Hs.
  - rewrite app_nil_r. exact Hs.
  - replace (evs ++ ev :: rest) with ((evs ++ [ev]) ++ rest)
      by (rewrite <- app_assoc; reflexivity).
    cbn [run fold_left]. apply IH, step_served, Hs.
Qed.

Lemma idle_served : served sqrtQ [] idle.
Proof.
  split; [|split]; cbn [idle inFlight cache replies].
  - intros ? ? [].
  - discriminate.
  - intros ? ? [].
Qed.

(** Every record set the server sends is the outcome of the run of a
    request that arrived. *)
Lemma sent_by_a_run events id body :
  In (id, Ok200 body) (replies (run sqrtQ idle events)) ->
  exists id' now u,
    In (Arrive id' now u) events /\ runPipeline sqrtQ u = Ok200 body.
Proof.
  intros Hsent.
  destruct (@run_served events [] idle idle_served) as (_ & _ & Hreplies).
  exact (Hreplies id body Hsent).
Qed.

(** C7.  Whatever requests arrive and finish, every record of every
    record set the server sends, fresh or from the cache, is the record
    that the task of one ticker of the universe returned in the run of a
    request that arrived, and that ticker passes both tests of that
    task: its 24h quote volume is at least 10,000, hence not below it,
    and the daily candles fetched for it in that run number at least
    two, the second-to-last closing at a number strictly above zero.
    Conversely a task whose ticker has a 24h quote volume below 10,000,
    or whose daily candles lack a second-to-last close that is a number
    above zero, returns null, which the merge leaves out. *)
Theorem validity_gate (events : list Event) (id : nat)
    (body : list CryptoData) (r : CryptoData) :
  In (id, Ok200 body) (replies (run sqrtQ idle events)) ->
  In r body ->
  (exists id' now u,
     In (Arrive id' now u) events
     /\ runPipeline sqrtQ u = Ok200 body
     /\ recordOf sqrtQ u r)
  /\ (forall ticker f,
        failsGate ticker f ->
        processTicker sqrtQ ticker f = None
        /\ forall tasks,
             merged sqrtQ ((ticker, f) :: tasks) = merged sqrtQ tasks).
Proof.
  intros Hsent Hin. split.
  - destruct (sent_by_a_run _ _ _ Hsent) as (id' & now & u & Hev & Hrun).
    exists id', now, u. split; [exact Hev|]. split; [exact Hrun|].
    eapply run_recordOf; eassumption.
  - intros ticker f Hfails.
    pose proof (task_failsGate Hfails) as Hnone.
    split; [exact Hnone|]. intros tasks.
    unfold merged, outcomes, kept. cbn [map flat_map fst snd].
    rewrite Hnone. reflexivity.
Qed.

(** *** Order and uniqueness of the record set *)

Lemma processTicker_symbol ticker f r :
  processTicker sqrtQ ticker f = Some r -> symbol r = tsymbol ticker.
Proof.
  intros H. apply processTicker_inv in H as (resp & k4 & _ & Hr).
  now apply computeRecord_inv in Hr as (Hsym & _).
Qed.

Lemma merged_In tasks r :
  In r (merged sqrtQ tasks) ->
  exists task, In task tasks
    /\ processTicker sqrtQ (fst task) (snd task) = Some r.
Proof.
  unfold merged, outcomes. rewrite kept_In, in_map_iff.
  intros (task & Htask & Hin). eauto.
Qed.

Lemma merged_cons task tasks :
  merged sqrtQ (task :: tasks)
  = match processTicker sqrtQ (fst task) (snd task) with
    | Some r => r :: merged sqrtQ tasks
    | None => merged sqrtQ tasks
    end.
Proof.
  unfold merged, outcomes, kept. cbn [map flat_map].
  now destruct (processTicker sqrtQ (fst task) (snd task)).
Qed.

Lemma merged_NoDup tasks :
  NoDup (map tsymbol (map fst tasks)) ->
  NoDup (map symbol (merged sqrtQ tasks)).
Proof.
  induction tasks as [|task tasks IH]; [constructor|].
  cbn [map]. intros H. inversion H as [|? ? Hnotin Hrest]; subst.
  rewrite merged_cons.
  destruct (processTicker sqrtQ (fst task) (snd task)) as [r|] eqn:Hr;
    [|now apply IH].
  cbn [map]. constructor; [|now apply IH].
  intros Hin. apply Hnotin.
  apply in_map_iff in Hin as (r' & Hsame & Hin).
  apply merged_In in Hin as (task' & Hin & Hr').
  apply processTicker_symbol in Hr, Hr'.
  apply in_map_iff. exists (fst task'). split; [congruence|].
  now apply in_map.
Qed.

(** C8, as the handler has it.  For a run that answers with a record
    set, whatever the order in which the tasks of each batch settle: the
    records are in descending order of volume; records that the volume
    does not order stand in the order of their tasks, that is of the
    ranked tickers; every other order of settlement gives the same
    record set; the record set holds one record for each task that
    returned one, nothing being merged or dropped afterwards; and no two
    records have the same symbol provided the ticker feed lists each
    symbol once. *)
Theorem output_order_law (u : Upstream) (info : list SymbolInfo)
    (tickers : list Ticker) (records : list CryptoData) :
  exchangeInfoResponse u = Resolved info ->
  tickersResponse u = Resolved tickers ->
  let tasks := tasksOf u (usdtPairs info tickers) in
  completes (completionOrder u) tasks ->
  runPipeline sqrtQ u = Ok200 records ->
  StronglySorted (fun a b => (volume b <=? volume a)%num = true) records
  /\ (forall group, tied volume group ->
        filter group records = filter group (merged sqrtQ tasks))
  /\ (forall order', completes order' tasks ->
        cryptoData sqrtQ order' tasks = records)
  /\ Permutation records (merged sqrtQ tasks)
  /\ (NoDup (map tsymbol tickers) -> NoDup (map symbol records)).
Proof.
  intros Hinfo Htickers tasks Hcompletes Hrun.
  apply runPipeline_inv in Hrun as (info' & tickers' & Hi & Ht & Hrec).
  rewrite Hinfo in Hi. rewrite Htickers in Ht.
  injection Hi as <-. injection Ht as <-. fold tasks in Hrec.
  rewrite (cryptoData_merged sqrtQ Hcompletes) in Hrec.
  change byVolume with (descending volume) in Hrec. subst records.
  split; [|split; [|split; [|split]]].
  - apply (sort_sorted volume).
    apply Forall_forall. intros r Hin.
    apply merged_In in Hin as ([ticker f] & _ & Hr).
    apply task_passesGate in Hr as (_ & _ & Hmin & _).
    now apply geb_not_nan in Hmin.
  - intros group Htied. now apply sort_stable.
  - intros order' Hcompletes'.
    now rewrite (cryptoData_merged sqrtQ Hcompletes').
  - apply sort_perm.
  - intros Hnodup. eapply Permutation_NoDup.
    + apply Permutation_map. apply Permutation_sym. apply sort_perm.
    + apply merged_NoDup. unfold tasks. rewrite tasksOf_fst.
      now apply usdtPairs_NoDup.
Qed.

(** *** The cache *)

Lemma arrive_hit s entry id now u :
  cache s = Some entry ->
  (now - timestamp entry < CACHE_TTL)%Z ->
  step sqrtQ s (Arrive id now u)
  = mkServer (cache s) (inFlight s)
             (replies s ++ [(id, Ok200 (entryData entry))])
             (pipelineRuns s).
Proof.
  intros Hc Hlt. cbn [step]. unfold cacheHit. rewrite Hc.
  apply Z.ltb_lt in Hlt. rewrite Hlt. reflexivity.
Qed.

(** C6, as the handler has it.  While the cache holds an entry, requests
    that arrive less than the TTL (120 000 ms) after its timestamp are
    all answered with the data of that entry, leave the cache as it is
    and start no pipeline execution.  A request that misses the cache
    starts a pipeline execution of its own, whether or not another one is
    in flight. *)
Theorem cache_window_law (s : Server) (entry : CacheEntry)
    (arrivals : list Event) :
  cache s = Some entry ->
  Forall (arrivesWithin entry) arrivals ->
  let s' := run sqrtQ s arrivals in
  (cache s' = cache s
   /\ inFlight s' = inFlight s
   /\ pipelineRuns s' = pipelineRuns s
   /\ replies s'
      = replies s
        ++ map (fun ev => (eventId ev, Ok200 (entryData entry))) arrivals)
  /\ (forall t id now u,
        cacheHit (cache t) now = None ->
        let t' := step sqrtQ t (Arrive id now u) in
        pipelineRuns t' = S (pipelineRuns t)
        /\ inFlight t' = inFlight t ++ [(id, u)]
        /\ replies t' = replies t
        /\ cache t' = cache t).
Proof.
  intros Hc Hall. split.
  - revert s Hc. induction Hall as [|ev arrivals Hev _ IH]; intros s Hc.
    + cbn. now rewrite app_nil_r.
    + destruct ev as [id now u|id now]; [|contradiction].
      cbn [arrivesWithin] in Hev.
      cbn [run fold_left]. rewrite (@arrive_hit s entry id now u Hc Hev).
      match goal with
      | |- context [fold_left _ arrivals ?s1] =>
          destruct (IH s1 Hc) as (H1 & H2 & H3 & H4)
      end.
      unfold run in *. rewrite H1, H2, H3, H4. cbn.
      repeat split; auto. now rewrite <- app_assoc.
  - intros t id now u Hmiss. cbn [step]. rewrite Hmiss. cbn. auto.
Qed.

End WithSqrt.

(** *** The claims on the sample run *)

Import Samples.

Lemma sample_feed_NoDup : NoDup (map tsymbol (tickersAt 40000)).
Proof.
  repeat constructor; simpl; intuition discriminate.
Qed.

Lemma sample_order_completes (u : Upstream) (order : nat -> list nat) :
  order 0%nat = [1; 0]%nat \/ order 0%nat = [0; 1]%nat ->
  (forall i, order (S i) = []) ->
  completes order
    (tasksOf u (usdtPairs exchangeInfo (tickersAt 40000))).
Proof.
  intros H0 Hrest b. destruct b as [|b].
  - change (0 * BATCH_SIZE)%nat with 0%nat.
    replace (length (slice 0 (0 + BATCH_SIZE)
               (tasksOf u (usdtPairs exchangeInfo (tickersAt 40000)))))
      with 2%nat by (vm_compute; reflexivity).
    destruct H0 as [-> | ->]; [apply perm_swap | apply Permutation_refl].
  - replace (S b * BATCH_SIZE)%nat with (S (24 + b * 25))
      by (unfold BATCH_SIZE; lia).
    rewrite Hrest. unfold slice.
    rewrite skipn_all2; [now rewrite firstn_nil|].
    unfold tasksOf. rewrite length_combine, length_map, length_seq.
    cbn. lia.
Qed.

Lemma order_completes_two (tasks : list (Ticker * SymbolFetch))
    (order : nat -> list nat) :
  length tasks = 2%nat ->
  order 0%nat = [1; 0]%nat \/ order 0%nat = [0; 1]%nat ->
  (forall i, order (S i) = []) ->
  completes order tasks.
Proof.
  intros Hlen H0 Hrest b. destruct b as [|b].
  - change (0 * BATCH_SIZE)%nat with 0%nat.
    rewrite slice_skipn, length_firstn, length_skipn, Hlen.
    change (Nat.min BATCH_SIZE (2 - 0)) with 2%nat.
    destruct H0 as [-> | ->]; [apply perm_swap | apply Permutation_refl].
  - replace (S b * BATCH_SIZE)%nat with (S (24 + b * 25))
      by (unfold BATCH_SIZE; lia).
    rewrite Hrest. unfold slice.
    rewrite skipn_all2; [now rewrite firstn_nil|]. lia.
Qed.

(** C8, the counterexample.  The exchange lists BTCUSDT twice in its
    ticker feed; both entries enter the universe, both tasks pass the
    gate, and the reply carries two records for BTCUSDT. *)
Lemma duplicate_symbols_are_published :
  (exists records,
     runPipeline sqrtFloor upstreamTwice = Ok200 records
     /\ map symbol records = ["BTCUSDT"; "BTCUSDT"]%string)
  /\ ~ uniqueAndSorted sqrtFloor.
Proof.
  assert (Hrun : exists records,
            runPipeline sqrtFloor upstreamTwice = Ok200 records
            /\ map symbol records = ["BTCUSDT"; "BTCUSDT"]%string).
  { eexists. split; [vm_compute; reflexivity|reflexivity]. }
  split; [exact Hrun|].
  destruct Hrun as (records & Hrun & Hsymbols). intros Hlaw.
  destruct (Hlaw upstreamTwice exchangeInfo tickersTwice records
              eq_refl eq_refl) as [Hnodup _].
  - apply order_completes_two;
      [vm_compute; reflexivity | right; reflexivity | reflexivity].
  - exact Hrun.
  - rewrite Hsymbols in Hnodup.
    inversion Hnodup as [|? ? Hnotin _]. apply Hnotin. left. reflexivity.
Qed.

(** Two requests that miss the cache together start two pipeline
    executions. *)
Lemma concurrent_misses_not_coalesced :
  pipelineRuns (run sqrtFloor idle overlappingBefore) = 2%nat.
Proof. reflexivity. Qed.

(** C6, the counterexample.  Requests 1 and 2 miss the empty cache at
    times 0 and 1 and both run the pipeline, on feeds with different
    prices.  Run 1 succeeds at 10.  Within the TTL after it, request 3
    (time 11) is served the data of run 1, but run 2 replaces the entry
    at 12 and request 4 (time 13) is served the data of run 2. *)
Lemma overlapping_runs_serve_different_data :
  ~ servesIdenticalData sqrtFloor.
Proof.
  intros Hlaw.
  assert (Hrun : exists body,
    In (1%nat, Ok200 body)
       (replies (run sqrtFloor idle (overlappingBefore ++ [Finish 1 10])))
    /\ cache (run sqrtFloor idle (overlappingBefore ++ [Finish 1 10]))
       = Some (mkCacheEntry body 10)).
  { eexists. split; vm_compute; [left|]; reflexivity. }
  destruct Hrun as (body & Hsent & Hcached).
  specialize (Hlaw overlappingBefore 1%nat 10%Z body overlappingAfter
                3%nat 11%Z (upstreamAt 42000)
                4%nat 13%Z (upstreamAt 42000)
                Hsent Hcached).
  assert (H3 : In (Arrive 3 11 (upstreamAt 42000)) overlappingAfter)
    by (left; reflexivity).
  assert (H4 : In (Arrive 4 13 (upstreamAt 42000)) overlappingAfter)
    by (right; right; left; reflexivity).
  specialize (Hlaw H3 H4).
  assert (Hw3 : (10 <= 11 < 10 + CACHE_TTL)%Z) by (unfold CACHE_TTL; lia).
  assert (Hw4 : (10 <= 13 < 10 + CACHE_TTL)%Z) by (unfold CACHE_TTL; lia).
  specialize (Hlaw Hw3 Hw4).
  vm_compute in Hlaw. discriminate Hlaw.
Qed.

Lemma cache_window_law_witness :
  let s := run sqrtFloor idle [Arrive 1 0 (upstreamAt 40000); Finish 1 10] in
  let arrivals :=
    [Arrive 3 11 (upstreamAt 42000); Arrive 4 13 (upstreamAt 42000)] in
  exists entry,
    cache s = Some entry
    /\ timestamp entry = 10%Z
    /\ cache (run sqrtFloor s arrivals) = cache s
    /\ pipelineRuns (run sqrtFloor s arrivals) = 1%nat
    /\ replies (run sqrtFloor s arrivals)
       = replies s ++ [(3%nat, Ok200 (entryData entry));
                       (4%nat, Ok200 (entryData entry))].
Proof.
  intros s arrivals. eexists.
  split; [vm_compute; reflexivity|]. split; [reflexivity|].
  match goal with
  | |- context [entryData ?e] =>
      assert (Hc : cache s = Some e) by (vm_compute; reflexivity);
      assert (Hall : Forall (arrivesWithin e) arrivals)
        by (repeat constructor);
      destruct (@cache_window_law sqrtFloor s e arrivals Hc Hall)
        as [(H1 & _ & H3 & H4) _]
  end.
  split; [exact H1|]. split; [rewrite H3; reflexivity|]. exact H4.
Defined.

Lemma validity_gate_witness :
  exists body r,
    In (1%nat, Ok200 body)
       (replies (run sqrtFloor idle
                   [Arrive 1 0 (upstreamAt 40000); Finish 1 10]))
    /\ In r body
    /\ recordOf sqrtFloor (upstreamAt 40000) r
    /\ processTicker sqrtFloor
         (mkTicker "DUSTUSDT" (ofZ 1) (ofZ 9999)) fetchOf = None.
Proof.
  assert (Hsent : exists r rest,
            In (1%nat, Ok200 (r :: rest))
               (replies (run sqrtFloor idle
                           [Arrive 1 0 (upstreamAt 40000); Finish 1 10]))).
  { eexists. eexists. vm_compute. left. reflexivity. }
  destruct Hsent as (r & rest & Hsent).
  exists (r :: rest), r.
  split; [exact Hsent|]. split; [left; reflexivity|].
  destruct (@validity_gate sqrtFloor _ 1%nat (r :: rest) r Hsent
              (or_introl eq_refl))
    as [(id' & now & u & Hev & _ & Hrec) Hdiscard].
  split.
  - destruct Hev as [Heq|[Heq|[]]]; [|discriminate Heq].
    injection Heq as Hid Hnow Hu. subst u. exact Hrec.
  - apply Hdiscard. left. reflexivity.
Defined.

Lemma output_order_law_witness :
  exists records,
    runPipeline sqrtFloor (upstreamAt 40000) = Ok200 records
    /\ map symbol records = ["BTCUSDT"; "ETHUSDT"]%string
    /\ NoDup (map symbol records)
    /\ StronglySorted
         (fun a b => (volume b <=? volume a)%num = true) records
    /\ cryptoData sqrtFloor inOrder
         (tasksOf (upstreamAt 40000)
            (usdtPairs exchangeInfo (tickersAt 40000)))
       = records.
Proof.
  eexists. split; [vm_compute; reflexivity|].
  split; [reflexivity|].
  match goal with
  | |- NoDup (map symbol ?recs) /\ _ =>
      assert (Hrun : runPipeline sqrtFloor (upstreamAt 40000) = Ok200 recs)
        by (vm_compute; reflexivity)
  end.
  destruct (@output_order_law sqrtFloor (upstreamAt 40000) exchangeInfo
              (tickersAt 40000) _ eq_refl eq_refl
              (sample_order_completes (upstreamAt 40000) lastFirst
                 (or_introl eq_refl) (fun _ => eq_refl))
              Hrun)
    as (Hsorted & _ & Horder & _ & Hnodup).
  split; [exact (Hnodup sample_feed_NoDup)|]. split; [exact Hsorted|].
  apply Horder.
  apply sample_order_completes; [right; reflexivity | reflexivity].
Defined.

End HandlerProps.

(* ================================================================== *)
(** ** What it takes for a symbol to be published *)
(* ================================================================== *)

Module PublicationProps.

Import JsArray Retry Indicators Universe Pipeline Handler.
Import NumProps Laws SortProps PipelineProps UniverseProps RetryProps.
Import HandlerProps Views Fetched.

Lemma loop_ext (T : Type) (fn fn' : nat -> Outcome T) maxRetries baseDelay :
  (forall k, fn k = fn' k) ->
  forall remaining attempt,
    loop fn maxRetries baseDelay remaining attempt
    = loop fn' maxRetries baseDelay remaining attempt.
Proof.
  intros H remaining.
  induction remaining as [|r IH]; intros attempt; cbn [loop].
  - reflexivity.
  - rewrite <- H. destruct (fn attempt) as [v|e]; [reflexivity|].
    destruct (isRateLimit e && _); [rewrite IH|]; reflexivity.
Qed.

Lemma loop_resumes (T : Type) (fn : nat -> Outcome T) maxRetries baseDelay
    k v :
  forall remaining attempt,
    (k < remaining)%nat ->
    (remaining + attempt = maxRetries)%nat ->
    (forall j, (j < k)%nat ->
       exists e, fn (attempt + j)%nat = Rejected e /\ isRateLimit e = true) ->
    fn (attempt + k)%nat = Resolved v ->
    completion (loop fn maxRetries baseDelay remaining attempt) = Returned v
    /\ calls (loop fn maxRetries baseDelay remaining attempt) = S k
    /\ length (delays (loop fn maxRetries baseDelay remaining attempt)) = k.
Proof.
  induction k as [|k IH]; intros remaining attempt Hlt Hsum Hrej Hres;
    (destruct remaining as [|rem]; [lia|]); cbn [loop].
  - rewrite Nat.add_0_r in Hres. rewrite Hres. simpl. auto.
  - destruct (Hrej 0%nat) as (e & He & Hrl); [lia|].
    rewrite Nat.add_0_r in He. rewrite He, Hrl.
    assert (Hgo : (Z.of_nat attempt <? Z.of_nat maxRetries - 1)%Z = true)
      by (apply Z.ltb_lt; lia).
    rewrite Hgo. cbn [andb completion calls delays length].
    assert (Hrej' : forall j, (j < k)%nat ->
              exists e', fn (S attempt + j)%nat = Rejected e'
                         /\ isRateLimit e' = true).
    { intros j Hj. destruct (Hrej (S j)) as (e' & He' & Hrl'); [lia|].
      exists e'. split; [|exact Hrl'].
      rewrite <- He'. f_equal. lia. }
    assert (Hres' : fn (S attempt + k)%nat = Resolved v).
    { rewrite <- Hres. f_equal. lia. }
    assert (Hlt' : (k < rem)%nat) by lia.
    assert (Hsum' : (rem + S attempt = maxRetries)%nat) by lia.
    destruct (IH rem (S attempt) Hlt' Hsum' Hrej' Hres') as (Hc & Hn & Hd).
    rewrite Hc, Hn, Hd. auto.
Qed.

(** X1.  A call that is rate limited [k] times and then resolves, with
    [k] below [maxRetries], returns the resolved value after [k + 1]
    invocations and [k] waits: rate limits before the last allowed
    attempt do not lose the value. *)
Theorem retry_resumes_after_rate_limits (T : Type) (fn : nat -> Outcome T)
    (maxRetries : nat) (baseDelay : num) (k : nat) (v : T) :
  (k < maxRetries)%nat ->
  (forall j, (j < k)%nat ->
     exists e, fn j = Rejected e /\ isRateLimit e = true) ->
  fn k = Resolved v ->
  let r := retryWithBackoff fn maxRetries baseDelay in
  completion r = Returned v /\ calls r = S k /\ length (delays r) = k.
Proof.
  intros Hk Hrej Hres r. subst r. unfold retryWithBackoff.
  apply loop_resumes; auto; lia.
Qed.

(** The test on [currentPrice] that opens a task lets through exactly the
    prices above zero. *)
Lemma price_guard (price : num) :
  falsy price || (price <=? zero)%num || isNaN price
  = negb (price >? zero)%num.
Proof.
  destruct price as [| | |q]; try reflexivity.
  unfold falsy, leb, gtb, ltb, zero, ofZ, isNaN, Qltb.
  rewrite orb_false_r, negb_involutive.
  destruct (Qle_bool q (inject_Z 0)) eqn:Hle; [apply orb_true_r|].
  rewrite orb_false_r.
  destruct (Qeq_bool q 0) eqn:Heq; [|reflexivity].
  apply Qeq_bool_iff in Heq.
  assert (Hle' : Qle_bool q (inject_Z 0) = true).
  { apply Qle_bool_iff. rewrite Heq. apply Qle_refl. }
  congruence.
Qed.

Section WithSqrt.

Variable sqrtQ : Q -> Q.

(** A record that is computed is the record of the formulas. *)
Lemma computeRecord_fields ticker klines klines4h oi r :
  computeRecord sqrtQ ticker klines klines4h oi = Some r ->
  let price := lastPrice ticker in
  let daily := calcDailyReturn price klines in
  let v7 := calculateVWAP price klines 7 in
  let v30 := calculateVWAP price klines 30 in
  let v90 := calculateVWAP price klines 90 in
  let v365 := calculateVWAP price klines 365 in
  let e4h := ema4h price klines4h in
  let e1d := ema1d price klines in
  r = mkCryptoData (tsymbol ticker) price daily
        (calcWeeklyReturn price klines) (calcMonthlyReturn price klines)
        (quoteVolume ticker)
        (vwap v7) (distance v7) (vwap v30) (distance v30)
        (vwap v90) (distance v90) (vwap v365) (distance v365)
        (fst e4h) (emaDistance (fst e4h) (snd e4h))
        (fst e1d) (emaDistance (fst e1d) (snd e1d))
        (calcZScore sqrtQ price klines daily) (fst oi) (snd oi).
Proof.
  unfold computeRecord. intros H.
  destruct (length klines =? 0)%nat; [discriminate|].
  destruct (negb (existsb positiveClose klines)); [discriminate|].
  destruct (ema4h (lastPrice ticker) klines4h) as [e4 r4].
  destruct (ema1d (lastPrice ticker) klines) as [e1 r1].
  destruct (negb _ || negb _); [discriminate|].
  injection H as <-. reflexivity.
Qed.

(** The record exists exactly when the final gate is passed; the two
    earlier tests on the candles never decide. *)
Lemma computeRecord_some ticker klines klines4h oi :
  computeRecord sqrtQ ticker klines klines4h oi <> None
  <-> (quoteVolume ticker >=? minVolume)%num = true
      /\ (2 <= length klines)%nat
      /\ (closeAt klines (length klines - 2) >? zero)%num = true.
Proof.
  split.
  - destruct (computeRecord sqrtQ ticker klines klines4h oi) as [r|] eqn:E;
      [intros _|congruence].
    apply computeRecord_inv in E. tauto.
  - intros (Hvol & Hlen & Hclose). unfold computeRecord.
    destruct (length klines =? 0)%nat eqn:E0;
      [apply Nat.eqb_eq in E0; lia|].
    assert (Hex : existsb positiveClose klines = true).
    { apply existsb_exists. unfold closeAt in Hclose.
      destruct (nth_error klines (length klines - 2)) as [kl|] eqn:En;
        [|discriminate].
      exists kl. split; [eapply nth_error_In; eauto|].
      unfold positiveClose. rewrite Hclose. simpl.
      apply negb_true_iff, isNaN_false.
      eapply gtb_not_nan; exact Hclose. }
    rewrite Hex. cbn [negb].
    destruct (ema4h (lastPrice ticker) klines4h) as [e4 r4].
    destruct (ema1d (lastPrice ticker) klines) as [e1 r1].
    rewrite Hvol.
    assert (H2 : (2 <=? length klines)%nat = true) by (apply Nat.leb_le; lia).
    rewrite H2, Hclose.
    assert (Hn : isNaN (closeAt klines (length klines - 2)) = false).
    { apply isNaN_false. eapply gtb_not_nan; exact Hclose. }
    rewrite Hn. simpl. discriminate.
Qed.

(** X2.  A symbol of the universe is published exactly when its last
    price is above zero, its daily candles are fetched, there are at
    least two of them, the close of the last but one is above zero and
    the 24h volume reaches 10000.  Neither the 4h candles nor the open
    interest take part, and the tests [klines.length === 0] and
    [hasValidKlines] are implied by the last gate. *)
Theorem published_iff (ticker : Ticker) (f : SymbolFetch) :
  processTicker sqrtQ ticker f <> None
  <-> (lastPrice ticker >? zero)%num = true
      /\ exists klinesResponse,
           completion (retryWithBackoffDefault (fetchKlines1d f))
           = Returned klinesResponse
           /\ let klines := dataOrEmpty klinesResponse in
              (quoteVolume ticker >=? minVolume)%num = true
              /\ (2 <= length klines)%nat
              /\ (closeAt klines (length klines - 2) >? zero)%num = true.
Proof.
  unfold processTicker. rewrite price_guard.
  destruct (lastPrice ticker >? zero)%num; cbn [negb].
  - destruct (completion (retryWithBackoffDefault (fetchKlines1d f)))
      as [resp|e|] eqn:Ec.
    + rewrite computeRecord_some. split.
      * intros H. split; [reflexivity|]. exists resp. split; [reflexivity|].
        exact H.
      * intros (_ & resp' & Heq & H). injection Heq as <-. exact H.
    + split; [congruence|]. intros (_ & resp' & Heq & _). discriminate.
    + split; [congruence|]. intros (_ & resp' & Heq & _). discriminate.
  - split; [congruence|]. intros (H & _). discriminate.
Qed.

Lemma processTicker_fields ticker f r :
  processTicker sqrtQ ticker f = Some r ->
  exists klinesResponse,
    completion (retryWithBackoffDefault (fetchKlines1d f))
    = Returned klinesResponse
    /\ computeRecord sqrtQ ticker (dataOrEmpty klinesResponse)
         (fetched4h f) (oiChanges f) = Some r.
Proof.
  unfold processTicker, fetched4h. intros H.
  destruct (falsy _ || _ || _); [discriminate|].
  destruct (completion (retryWithBackoffDefault (fetchKlines1d f)))
    as [resp|e|]; try discriminate.
  exists resp. split; [reflexivity|exact H].
Qed.

Lemma computeRecord_daily ticker klines klines4h klines4h' oi oi' :
  option_map dailyFields (computeRecord sqrtQ ticker klines klines4h oi)
  = option_map dailyFields (computeRecord sqrtQ ticker klines klines4h' oi').
Proof.
  unfold computeRecord.
  destruct (length klines =? 0)%nat; [reflexivity|].
  destruct (negb (existsb positiveClose klines)); [reflexivity|].
  destruct (ema4h (lastPrice ticker) klines4h) as [e4 r4].
  destruct (ema4h (lastPrice ticker) klines4h') as [e4' r4'].
  destruct (ema1d (lastPrice ticker) klines) as [e1 r1].
  destruct (negb _ || negb _); reflexivity.
Qed.

Lemma computeRecord_fourHour ticker klines klines4h oi oi' :
  option_map fourHourFields (computeRecord sqrtQ ticker klines klines4h oi)
  = option_map fourHourFields
      (computeRecord sqrtQ ticker klines klines4h oi').
Proof.
  unfold computeRecord.
  destruct (length klines =? 0)%nat; [reflexivity|].
  destruct (negb (existsb positiveClose klines)); [reflexivity|].
  destruct (ema4h (lastPrice ticker) klines4h) as [e4 r4].
  destruct (ema1d (lastPrice ticker) klines) as [e1 r1].
  destruct (negb _ || negb _); reflexivity.
Qed.

Lemma computeRecord_openInterest ticker klines klines4h klines4h' oi :
  option_map openInterestFields
    (computeRecord sqrtQ ticker klines klines4h oi)
  = option_map openInterestFields
      (computeRecord sqrtQ ticker klines klines4h' oi).
Proof.
  unfold computeRecord.
  destruct (length klines =? 0)%nat; [reflexivity|].
  destruct (negb (existsb positiveClose klines)); [reflexivity|].
  destruct (ema4h (lastPrice ticker) klines4h) as [e4 r4].
  destruct (ema4h (lastPrice ticker) klines4h') as [e4' r4'].
  destruct (ema1d (lastPrice ticker) klines) as [e1 r1].
  destruct (negb _ || negb _); reflexivity.
Qed.

Lemma default_run_ext (T : Type) (fn fn' : nat -> Outcome T) :
  (forall k, fn k = fn' k) ->
  retryWithBackoffDefault fn = retryWithBackoffDefault fn'.
Proof.
  intros H. unfold retryWithBackoffDefault, retryWithBackoff.
  apply loop_ext, H.
Qed.

Lemma processTicker_unfold ticker f :
  processTicker sqrtQ ticker f
  = if negb (lastPrice ticker >? zero)%num then None
    else
      match completion (retryWithBackoffDefault (fetchKlines1d f)) with
      | Returned klinesResponse =>
          computeRecord sqrtQ ticker (dataOrEmpty klinesResponse)
                        (fetched4h f) (oiChanges f)
      | _ => None
      end.
Proof.
  unfold processTicker, fetched4h. rewrite price_guard. reflexivity.
Qed.

Lemma processTicker_price ticker f r :
  processTicker sqrtQ ticker f = Some r ->
  (lastPrice ticker >? zero)%num = true.
Proof.
  rewrite processTicker_unfold.
  destruct (lastPrice ticker >? zero)%num; [reflexivity|discriminate].
Qed.

Lemma processTicker_passing ticker f klinesResponse :
  (lastPrice ticker >? zero)%num = true ->
  completion (retryWithBackoffDefault (fetchKlines1d f))
  = Returned klinesResponse ->
  (quoteVolume ticker >=? minVolume)%num = true ->
  (2 <= length (dataOrEmpty klinesResponse))%nat ->
  (closeAt (dataOrEmpty klinesResponse)
           (length (dataOrEmpty klinesResponse) - 2) >? zero)%num = true ->
  processTicker sqrtQ ticker f <> None.
Proof.
  intros Hprice Hresp Hvol Hlen Hclose.
  rewrite processTicker_unfold, Hprice, Hresp. cbn [negb].
  apply computeRecord_some. auto.
Qed.

(** X3.  Two runs of a task that see the same daily candles publish the
    same symbol, price, volume, returns, VWAPs, daily EMA and z-score,
    or both publish nothing, whatever the 4h candles and the open
    interest do.  The 4h fields follow the 4h candles, and the
    open-interest fields the open interest, in the same way. *)
Theorem optional_fetches_do_not_interfere (ticker : Ticker)
    (f g : SymbolFetch) :
  (forall k, fetchKlines1d f k = fetchKlines1d g k) ->
  option_map dailyFields (processTicker sqrtQ ticker f)
  = option_map dailyFields (processTicker sqrtQ ticker g)
  /\ ((forall k, fetchKlines4h f k = fetchKlines4h g k) ->
      option_map fourHourFields (processTicker sqrtQ ticker f)
      = option_map fourHourFields (processTicker sqrtQ ticker g))
  /\ (oiChanges f = oiChanges g ->
      option_map openInterestFields (processTicker sqrtQ ticker f)
      = option_map openInterestFields (processTicker sqrtQ ticker g)).
Proof.
  intros H1d. rewrite !processTicker_unfold.
  rewrite (default_run_ext _ _ H1d).
  destruct (negb (lastPrice ticker >? zero)%num);
    [repeat split; reflexivity|].
  destruct (completion (retryWithBackoffDefault (fetchKlines1d g)))
    as [resp|e|]; try (repeat split; reflexivity).
  split; [apply computeRecord_daily|]. split.
  - intros H4h. unfold fetched4h. rewrite (default_run_ext _ _ H4h).
    apply computeRecord_fourHour.
  - intros Hoi. rewrite Hoi. apply computeRecord_openInterest.
Qed.

Lemma ema4h_short price klines4h :
  (length klines4h < 200)%nat -> ema4h price klines4h = (price, price).
Proof.
  intros H. unfold ema4h.
  assert (E : (200 <=? length klines4h)%nat = false)
    by (apply Nat.leb_gt; exact H).
  rewrite E, andb_false_r. reflexivity.
Qed.

Lemma pctChange_self q :
  (0 < q)%Q -> pctChange (Fin q) (Fin q) = zero.
Proof.
  intros Hq. unfold pctChange, hundred, ofZ.
  rewrite sub_fin. unfold fin at 1.
  rewrite div_fin by lra. unfold fin at 1. rewrite mul_fin.
  transitivity (fin 0); [|reflexivity].
  apply fin_ext. rewrite !Qred_correct.
  change (inject_Z 100) with 100%Q. field. lra.
Qed.

Lemma emaDistance_self price :
  isFinite price = true -> emaDistance price price = zero.
Proof.
  intros Hfin. apply isFinite_true in Hfin. destruct Hfin as [q ->].
  unfold emaDistance.
  destruct (Fin q >? zero)%num eqn:E; [|reflexivity].
  apply pctChange_self. apply gtb_zero_fin. exact E.
Qed.

Lemma fetched4h_rejected f :
  (forall k, (k < 3)%nat -> exists e, fetchKlines4h f k = Rejected e) ->
  fetched4h f = [].
Proof.
  intros H. unfold fetched4h, retryWithBackoffDefault, retryWithBackoff.
  destruct (@loop_completion _ (fetchKlines4h f) defaultMaxRetries
              defaultBaseDelay defaultMaxRetries 0%nat)
    as [(k & v & Hk & Hv & _)|(k & e & _ & _ & Hc)];
    [unfold defaultMaxRetries; lia | unfold defaultMaxRetries; lia | |].
  - destruct (H k Hk) as [e He]. congruence.
  - rewrite Hc. reflexivity.
Qed.

(** X4.  When the 4h fetch is rejected on each of its three attempts, or
    brings fewer than 200 candles, a published record carries the last
    price as its 4h EMA and, the price being finite, a 4h distance of
    zero. *)
Theorem four_hour_fallback (ticker : Ticker) (f : SymbolFetch)
    (r : CryptoData) :
  processTicker sqrtQ ticker f = Some r ->
  (forall k, (k < 3)%nat -> exists e, fetchKlines4h f k = Rejected e)
  \/ (length (fetched4h f) < 200)%nat ->
  ema2004h r = lastPrice ticker
  /\ (isFinite (lastPrice ticker) = true -> ema200Distance4h r = zero).
Proof.
  intros Hr Hshort.
  assert (Hlen : (length (fetched4h f) < 200)%nat).
  { destruct Hshort as [Hrej|Hlt]; [|exact Hlt].
    rewrite fetched4h_rejected by exact Hrej. simpl. lia. }
  destruct (processTicker_fields _ _ Hr) as (resp & _ & Hc).
  apply computeRecord_fields in Hc. cbv zeta in Hc.
  rewrite ema4h_short in Hc by exact Hlen. subst r.
  cbn [ema2004h ema200Distance4h fst snd].
  split; [reflexivity|]. apply emaDistance_self.
Qed.

Lemma oiChanges_rejected f :
  (forall k, (k < 2)%nat -> exists e, fetchOpenInterest f k = Rejected e) ->
  oiChanges f = (None, None).
Proof.
  intros H. unfold oiChanges, fetchCurrentOI, retryWithBackoff.
  destruct (@loop_completion _ (fetchOpenInterest f) 2%nat (ofZ 500)
              2%nat 0%nat)
    as [(k & v & Hk & Hv & _)|(k & e & _ & _ & Hc)]; [lia | lia | |].
  - destruct (H k Hk) as [e He]. congruence.
  - rewrite Hc. reflexivity.
Qed.

Lemma oiChanges_unusable f response :
  fetchOpenInterest f 0%nat = Resolved response ->
  match data response with
  | Some currentOI => (currentOI >? zero)%num = false
  | None => True
  end ->
  oiChanges f = (None, None).
Proof.
  intros Hres Hbad. unfold oiChanges, fetchCurrentOI, retryWithBackoff.
  cbn [loop]. rewrite Hres. cbn [completion].
  destruct (data response) as [x|]; [rewrite Hbad|]; reflexivity.
Qed.

(** X5.  The open interest is optional: when its fetch is rejected on
    both attempts, or answers a value that is missing, [NaN] or not
    above zero, the record is published with both open-interest changes
    absent, and the history is not consulted. *)
Theorem open_interest_is_optional (ticker : Ticker) (f : SymbolFetch)
    (r : CryptoData) :
  processTicker sqrtQ ticker f = Some r ->
  (forall k, (k < 2)%nat -> exists e, fetchOpenInterest f k = Rejected e)
  \/ (exists response,
        fetchOpenInterest f 0%nat = Resolved response
        /\ match data response with
           | Some currentOI => (currentOI >? zero)%num = false
           | None => True
           end) ->
  oiChange24h r = None /\ oiChange7d r = None.
Proof.
  intros Hr Hoi.
  assert (E : oiChanges f = (None, None)).
  { destruct Hoi as [Hrej|(resp & Hres & Hbad)].
    - apply oiChanges_rejected, Hrej.
    - eapply oiChanges_unusable; eauto. }
  destruct (processTicker_fields _ _ Hr) as (resp & _ & Hc).
  apply computeRecord_fields in Hc. cbv zeta in Hc.
  rewrite E in Hc. subst r. split; reflexivity.
Qed.

Lemma sliceLast_all (A : Type) (n : nat) (xs : list A) :
  (length xs <= n)%nat -> sliceLast n xs = xs.
Proof.
  intros H. unfold sliceLast. destruct n as [|n]; [reflexivity|].
  replace (length xs - S n)%nat with 0%nat by lia. reflexivity.
Qed.

Lemma calculateVWAP_all price klines days :
  (length klines <= days)%nat ->
  calculateVWAP price klines days = calculateVWAP price klines 0.
Proof.
  intros H. unfold calculateVWAP. rewrite sliceLast_all by exact H.
  reflexivity.
Qed.

(** X6.  A window at least as long as the daily history takes all of it:
    with at most 7 daily candles the 7d and 30d VWAP of a published
    record and their distances coincide, with at most 30 the 30d and 90d
    ones, with at most 90 the 90d and 365d ones. *)
Theorem vwap_windows_coincide (ticker : Ticker) (f : SymbolFetch)
    (r : CryptoData) (klinesResponse : AxiosResponse (list Kline)) :
  processTicker sqrtQ ticker f = Some r ->
  completion (retryWithBackoffDefault (fetchKlines1d f))
  = Returned klinesResponse ->
  let n := length (dataOrEmpty klinesResponse) in
  ((n <= 7)%nat ->
     vwap7d r = vwap30d r /\ vwapDistance7d r = vwapDistance30d r)
  /\ ((n <= 30)%nat ->
        vwap30d r = vwap90d r /\ vwapDistance30d r = vwapDistance90d r)
  /\ ((n <= 90)%nat ->
        vwap90d r = vwap365d r /\ vwapDistance90d r = vwapDistance365d r).
Proof.
  intros Hr Hresp n.
  destruct (processTicker_fields _ _ Hr) as (resp & Hresp' & Hc).
  rewrite Hresp in Hresp'. injection Hresp' as <-.
  apply computeRecord_fields in Hc. cbv zeta in Hc. subst r.
  cbn [vwap7d vwap30d vwap90d vwap365d vwapDistance7d vwapDistance30d
       vwapDistance90d vwapDistance365d].
  subst n.
  split; [|split]; intros Hn.
  - rewrite !calculateVWAP_all with (days := 7%nat) by lia.
    rewrite !calculateVWAP_all with (days := 30%nat) by lia.
    split; reflexivity.
  - rewrite !calculateVWAP_all with (days := 30%nat) by lia.
    rewrite !calculateVWAP_all with (days := 90%nat) by lia.
    split; reflexivity.
  - rewrite !calculateVWAP_all with (days := 90%nat) by lia.
    rewrite !calculateVWAP_all with (days := 365%nat) by lia.
    split; reflexivity.
Qed.

End WithSqrt.

Import Samples Scenarios.

Lemma retry_resumes_after_rate_limits_witness :
  let r := retryWithBackoff limitedTwice 3%nat (ofZ 1000) in
  completion r = Returned 7%nat /\ calls r = 3%nat
  /\ length (delays r) = 2%nat.
Proof.
  apply (@retry_resumes_after_rate_limits nat limitedTwice 3%nat (ofZ 1000)
           2%nat 7%nat).
  - lia.
  - intros j Hj. exists rateLimited. split; [|reflexivity].
    unfold limitedTwice.
    destruct (j <? 2)%nat eqn:E; [reflexivity|].
    apply Nat.ltb_ge in E. lia.
  - reflexivity.
Defined.

Lemma optional_fetches_do_not_interfere_witness :
  option_map dailyFields (processTicker sqrtFloor btc fetchOf)
  = option_map dailyFields (processTicker sqrtFloor btc fetchRateLimitedOI).
Proof.
  apply (@optional_fetches_do_not_interfere sqrtFloor btc fetchOf
           fetchRateLimitedOI).
  intros k. reflexivity.
Defined.

Lemma four_hour_fallback_witness :
  exists r,
    processTicker sqrtFloor btc fetchOf = Some r
    /\ ema2004h r = ofZ 40000 /\ ema200Distance4h r = zero.
Proof.
  destruct (processTicker sqrtFloor btc fetchOf) as [r|] eqn:E;
    [|vm_compute in E; discriminate].
  exists r. split; [reflexivity|].
  destruct (@four_hour_fallback sqrtFloor btc fetchOf r E) as [H1 H2].
  - right. unfold fetched4h. simpl. lia.
  - split; [exact H1|]. apply H2. reflexivity.
Defined.

Lemma open_interest_is_optional_witness :
  exists r,
    processTicker sqrtFloor btc fetchOf = Some r
    /\ oiChange24h r = None /\ oiChange7d r = None.
Proof.
  destruct (processTicker sqrtFloor btc fetchOf) as [r|] eqn:E;
    [|vm_compute in E; discriminate].
  exists r. split; [reflexivity|].
  apply (@open_interest_is_optional sqrtFloor btc fetchOf r E).
  left. intros k _. exists serverError. reflexivity.
Defined.

Lemma vwap_windows_coincide_witness :
  exists r,
    processTicker sqrtFloor btc fetchOf = Some r
    /\ vwap7d r = vwap30d r /\ vwap30d r = vwap90d r
    /\ vwap90d r = vwap365d r.
Proof.
  destruct (processTicker sqrtFloor btc fetchOf) as [r|] eqn:E;
    [|vm_compute in E; discriminate].
  exists r. split; [reflexivity|].
  destruct (@vwap_windows_coincide sqrtFloor btc fetchOf r
              (mkAxiosResponse 200 (Some threeDays)) E eq_refl)
    as (H7 & H30 & H90).
  split; [apply H7; simpl; lia|].
  split; [apply H30; simpl; lia|apply H90; simpl; lia].
Defined.

Lemma published_iff_witness :
  processTicker sqrtFloor btc fetchOf <> None.
Proof.
  apply published_iff. split; [reflexivity|].
  exists (mkAxiosResponse 200 (Some threeDays)).
  split; [reflexivity|]. simpl. repeat split; try reflexivity. lia.
Defined.

End PublicationProps.

(* ================================================================== *)
(** ** What the server sends and keeps *)
(* ================================================================== *)

Module ServerProps.

Import JsArray Retry Indicators Universe Pipeline Handler.
Import NumProps Laws SortProps PipelineProps UniverseProps HandlerProps.
Import PublicationProps ServerLaws.

Lemma length_successful results :
  (length (successful results) <= length results)%nat.
Proof.
  induction results as [|slot rest IH]; simpl; [lia|].
  destruct slot as [[r|]|]; simpl; lia.
Qed.

Lemma length_settled (A : Type) (promises : list A) order :
  forall slots,
    length (fold_left
              (fun slots j =>
                 match nth_error promises j with
                 | Some v => setSlot j v slots
                 | None => slots
                 end) order slots)
    = length slots.
Proof.
  induction order as [|j order IH]; intros slots; simpl; [reflexivity|].
  rewrite IH. destruct (nth_error promises j); [apply length_setSlot|].
  reflexivity.
Qed.

Lemma length_allSettled (A : Type) order (promises : list A) :
  length (allSettled order promises) = length promises.
Proof.
  unfold allSettled. rewrite length_settled. apply repeat_length.
Qed.

Lemma length_slice (A : Type) i n (xs : list A) :
  length (slice i (i + n) xs) = Nat.min n (length xs - i).
Proof.
  rewrite slice_skipn, length_firstn, length_skipn. reflexivity.
Qed.

Section WithSqrt.

Variable sqrtQ : Q -> Q.

(** Whatever the order in which the tasks settle, and even if some never
    do, the loop collects at most one record per task. *)
Lemma length_batchLoop order tasks :
  forall fuel i acc,
    (length (batchLoop sqrtQ fuel order tasks i acc)
     <= length acc + (length tasks - i))%nat.
Proof.
  induction fuel as [|fuel IH]; intros i acc; cbn [batchLoop]; [lia|].
  destruct (i <? length tasks)%nat eqn:E; [|lia].
  apply Nat.ltb_lt in E.
  eapply Nat.le_trans; [apply IH|].
  rewrite length_app.
  pose proof (length_successful
                (allSettled (order i)
                   (map (fun task => processTicker sqrtQ (fst task) (snd task))
                        (slice i (i + BATCH_SIZE) tasks)))) as Hs.
  rewrite length_allSettled, length_map, length_slice in Hs.
  unfold BATCH_SIZE in *. lia.
Qed.

Lemma length_cryptoData order tasks :
  (length (cryptoData sqrtQ order tasks) <= length tasks)%nat.
Proof.
  unfold cryptoData.
  rewrite (Permutation_length (sort_perm volume _)).
  pose proof (length_batchLoop order tasks (length tasks) 0 []) as H.
  simpl in H. lia.
Qed.

Lemma runPipeline_nonempty u records :
  runPipeline sqrtQ u = Ok200 records -> records <> [].
Proof.
  unfold runPipeline. intros H.
  destruct (exchangeInfoResponse u) as [info|e];
    [|destruct (isRateLimit e); discriminate].
  destruct (tickersResponse u) as [tickers|e];
    [|destruct (isRateLimit e); discriminate].
  destruct (length _ =? 0)%nat eqn:E; [discriminate|].
  injection H as <-. apply Nat.eqb_neq in E.
  intros Hnil. rewrite Hnil in E. apply E. reflexivity.
Qed.

Lemma runPipeline_bounds u records :
  runPipeline sqrtQ u = Ok200 records ->
  (1 <= length records <= 100)%nat
  /\ exists tickers,
       tickersResponse u = Resolved tickers
       /\ Forall (fromFeed tickers) records.
Proof.
  intros Hrun.
  pose proof (runPipeline_nonempty _ Hrun) as Hne.
  destruct (runPipeline_inv _ _ Hrun) as (info & tickers & Hi & Ht & ->).
  split.
  - split.
    + destruct (cryptoData sqrtQ (completionOrder u)
                  (tasksOf u (usdtPairs info tickers)));
        [congruence|simpl; lia].
    + eapply Nat.le_trans; [apply length_cryptoData|].
      rewrite <- (length_map fst), tasksOf_fst, usdtPairs_unfold.
      apply firstn_le_length.
  - exists tickers. split; [exact Ht|].
    apply Forall_forall. intros r Hr.
    apply cryptoData_In in Hr. destruct Hr as (task & Htask & Hp).
    assert (Hpair : In (fst task) (usdtPairs info tickers)).
    { rewrite <- (tasksOf_fst u). apply in_map. exact Htask. }
    apply usdtPairs_In in Hpair. destruct Hpair as [Hfeed _].
    assert (Hpos : (lastPrice (fst task) >? zero)%num = true).
    { eapply processTicker_price. exact Hp. }
    destruct (processTicker_inv _ _ _ Hp) as (resp & k4 & _ & Hc).
    apply computeRecord_inv in Hc.
    destruct Hc as (Hsym & Hprice & Hvol & _).
    split; [rewrite Hprice; exact Hpos|].
    exists (fst task). auto.
Qed.

(** X7.  Every 200 reply of the server, computed or served from the
    cache, is the record set of the run of a request that arrived; it
    carries between 1 and 100 records, and each of them has the symbol,
    the last price and the 24h volume of one ticker of the feed that
    run received, with a price above zero. *)
Theorem reply_bounds (events : list Event) (id : nat)
    (body : list CryptoData) :
  In (id, Ok200 body) (replies (run sqrtQ idle events)) ->
  (1 <= length body <= 100)%nat
  /\ exists id' now u tickers,
       In (Arrive id' now u) events
       /\ runPipeline sqrtQ u = Ok200 body
       /\ tickersResponse u = Resolved tickers
       /\ Forall (fromFeed tickers) body.
Proof.
  intros Hin.
  destruct (sent_by_a_run _ _ _ _ Hin) as (id' & now & u & Hev & Hu).
  destruct (runPipeline_bounds _ Hu) as (Hlen & tickers & Ht & Hall).
  split; [exact Hlen|]. exists id', now, u, tickers. auto.
Qed.

Lemma step_cacheFilledBy evs s ev :
  cacheFilledBy evs s ->
  cacheFilledBy (evs ++ [ev]) (step sqrtQ s ev).
Proof.
  intros Hinv entry. destruct ev as [id now u|id now]; cbn [step].
  - destruct (cacheHit (cache s) now); cbn [cache replies]; intros Hc;
      destruct (Hinv entry Hc) as (Hne & id' & Hev & Hrep);
      (split; [exact Hne|]); exists id';
      (split; [apply in_or_app; left; exact Hev|]).
    + apply in_or_app. left. exact Hrep.
    + exact Hrep.
  - destruct (takeRequest id (inFlight s)) as [[u others]|].
    + destruct (runPipeline sqrtQ u) as [records| |] eqn:Hrun;
        cbn [cache replies]; intros Hc.
      * injection Hc as <-. cbn [entryData timestamp].
        split; [eapply runPipeline_nonempty; eauto|].
        exists id. split; apply in_or_app; right; left; reflexivity.
      * destruct (Hinv entry Hc) as (Hne & id' & Hev & Hrep).
        split; [exact Hne|]. exists id'.
        split; apply in_or_app; left; assumption.
      * destruct (Hinv entry Hc) as (Hne & id' & Hev & Hrep).
        split; [exact Hne|]. exists id'.
        split; apply in_or_app; left; assumption.
    + intros Hc. destruct (Hinv entry Hc) as (Hne & id' & Hev & Hrep).
      split; [exact Hne|]. exists id'.
      split; [apply in_or_app; left|]; assumption.
Qed.

Lemma run_cacheFilledBy events :
  forall evs s,
    cacheFilledBy evs s ->
    cacheFilledBy (evs ++ events) (run sqrtQ s events).
Proof.
  induction events as [|ev rest IH]; intros evs s Hinv.
  - rewrite app_nil_r. exact Hinv.
  - replace (evs ++ ev :: rest) with ((evs ++ [ev]) ++ rest)
      by (rewrite <- app_assoc; reflexivity).
    cbn [run fold_left]. apply IH, step_cacheFilledBy, Hinv.
Qed.

Lemma run_snoc s events ev :
  run sqrtQ s (events ++ [ev]) = step sqrtQ (run sqrtQ s events) ev.
Proof. unfold run. rewrite fold_left_app. reflexivity. Qed.

(** An event leaves the cache as it is, unless it is the end of a run
    that sends a record set, which it stores with the time of its
    end. *)
Lemma step_cache s ev :
  cache (step sqrtQ s ev) = cache s
  \/ exists id now records,
       ev = Finish id now
       /\ replies (step sqrtQ s ev) = replies s ++ [(id, Ok200 records)]
       /\ cache (step sqrtQ s ev) = Some (mkCacheEntry records now).
Proof.
  destruct ev as [id now u|id now]; cbn [step].
  - destruct (cacheHit (cache s) now); left; reflexivity.
  - destruct (takeRequest id (inFlight s)) as [[u others]|];
      [|left; reflexivity].
    destruct (runPipeline sqrtQ u) as [records| |];
      [|left; reflexivity|left; reflexivity].
    right. exists id, now, records. auto.
Qed.

(** The end of a run that fails sends the failure and leaves the cache
    as it is. *)
Lemma step_failure s id now u others :
  takeRequest id (inFlight s) = Some (u, others) ->
  runPipeline sqrtQ u = TooManyRequests429
  \/ runPipeline sqrtQ u = ServerError500 ->
  cache (step sqrtQ s (Finish id now)) = cache s
  /\ replies (step sqrtQ s (Finish id now))
     = replies s ++ [(id, runPipeline sqrtQ u)].
Proof.
  intros Ht Hfail. cbn [step]. rewrite Ht.
  destruct Hfail as [Hfail|Hfail]; rewrite Hfail; split; reflexivity.
Qed.

(** X8.  The cache is written by successful runs only.  Whatever the
    requests and their interleaving: a cached snapshot is not empty,
    carries the time of the end of a run, and is the body that run sent
    to its own request; the next event leaves the cache as it is unless
    it is the end of a run that sends a record set, which then becomes
    the snapshot, stamped with the time of that end; in particular the
    end of a run that answers 429 or 500 sends that answer and leaves
    the cache as it was. *)
Theorem cache_holds_a_sent_snapshot (events : list Event) :
  let s := run sqrtQ idle events in
  (forall entry,
     cache s = Some entry ->
     entryData entry <> []
     /\ exists id,
          In (Finish id (timestamp entry)) events
          /\ In (id, Ok200 (entryData entry)) (replies s))
  /\ (forall ev,
        let s' := run sqrtQ idle (events ++ [ev]) in
        cache s' = cache s
        \/ exists id now records,
             ev = Finish id now
             /\ replies s' = replies s ++ [(id, Ok200 records)]
             /\ cache s' = Some (mkCacheEntry records now))
  /\ (forall id now u others,
        takeRequest id (inFlight s) = Some (u, others) ->
        runPipeline sqrtQ u = TooManyRequests429
        \/ runPipeline sqrtQ u = ServerError500 ->
        let s' := run sqrtQ idle (events ++ [Finish id now]) in
        cache s' = cache s
        /\ replies s' = replies s ++ [(id, runPipeline sqrtQ u)]).
Proof.
  intros s. split; [|split].
  - intros entry Hc.
    assert (Hidle : cacheFilledBy [] idle) by (intros e He; discriminate).
    exact (@run_cacheFilledBy events [] idle Hidle entry Hc).
  - intros ev s'. unfold s'. rewrite run_snoc. apply step_cache.
  - intros id now u others Ht Hfail s'. unfold s'. rewrite run_snoc.
    eapply step_failure; eassumption.
Qed.

Lemma step_tracksArrivals evs s ev :
  tracksArrivals sqrtQ evs s ->
  tracksArrivals sqrtQ (evs ++ [ev]) (step sqrtQ s ev).
Proof.
  intros [Hfl Hrep].
  assert (Hfl' : forall id u, In (id, u) (inFlight s) ->
                   exists now, In (Arrive id now u) (evs ++ [ev])).
  { intros id u Hin. destruct (Hfl id u Hin) as [now Hnow].
    exists now. apply in_or_app. left. exact Hnow. }
  assert (Hrep' : forall id reply, In (id, reply) (replies s) ->
                    (exists body, reply = Ok200 body)
                    \/ exists now u,
                         In (Arrive id now u) (evs ++ [ev])
                         /\ runPipeline sqrtQ u = reply).
  { intros id reply Hin.
    destruct (Hrep id reply Hin) as [H|(now & u & H1 & H2)];
      [left; exact H|right].
    exists now, u. split; [apply in_or_app; left; exact H1|exact H2]. }
  destruct ev as [id now u|id now]; cbn [step].
  - destruct (cacheHit (cache s) now) as [body|];
      split; cbn [inFlight replies].
    + exact Hfl'.
    + intros id' reply Hin. apply in_app_or in Hin.
      destruct Hin as [Hin|[Hin|[]]]; [apply Hrep'; exact Hin|].
      injection Hin as <- <-. left. eexists. reflexivity.
    + intros id' u' Hin. apply in_app_or in Hin.
      destruct Hin as [Hin|[Hin|[]]]; [apply Hfl'; exact Hin|].
      injection Hin as <- <-. exists now.
      apply in_or_app. right. left. reflexivity.
    + exact Hrep'.
  - destruct (takeRequest id (inFlight s)) as [[u others]|] eqn:Et;
      [|split; assumption].
    destruct (takeRequest_In _ _ Et) as [Hu Hsub].
    assert (Hothers : forall id' u', In (id', u') others ->
                        exists now',
                          In (Arrive id' now' u') (evs ++ [Finish id now])).
    { intros id' u' Hin. apply Hfl', Hsub, Hin. }
    assert (Hnew : forall id' reply,
                     In (id', reply)
                        (replies s ++ [(id, runPipeline sqrtQ u)]) ->
                     (exists body, reply = Ok200 body)
                     \/ exists now' u',
                          In (Arrive id' now' u') (evs ++ [Finish id now])
                          /\ runPipeline sqrtQ u' = reply).
    { intros id' reply Hin. apply in_app_or in Hin.
      destruct Hin as [Hin|[Hin|[]]]; [apply Hrep'; exact Hin|].
      injection Hin as <- <-. right.
      destruct (Hfl' id u Hu) as [now' Hnow'].
      exists now', u. auto. }
    destruct (runPipeline sqrtQ u) as [records| |] eqn:Hrun;
      split; cbn [inFlight replies]; assumption.
Qed.

Lemma run_tracksArrivals events :
  forall evs s,
    tracksArrivals sqrtQ evs s ->
    tracksArrivals sqrtQ (evs ++ events) (run sqrtQ s events).
Proof.
  induction events as [|ev rest IH]; intros evs s Hinv.
  - rewrite app_nil_r. exact Hinv.
  - replace (evs ++ ev :: rest) with ((evs ++ [ev]) ++ rest)
      by (rewrite <- app_assoc; reflexivity).
    cbn [run fold_left]. apply IH, step_tracksArrivals, Hinv.
Qed.

Lemma runPipeline_429 u :
  runPipeline sqrtQ u = TooManyRequests429 ->
  exists e, isRateLimit e = true /\ metadataRejected u e.
Proof.
  unfold runPipeline, metadataRejected. intros H.
  destruct (exchangeInfoResponse u) as [info|e].
  - destruct (tickersResponse u) as [tickers|e].
    + destruct (length _ =? 0)%nat; discriminate.
    + destruct (isRateLimit e) eqn:E; [|discriminate].
      exists e. split; [exact E|]. right. exists info. auto.
  - destruct (isRateLimit e) eqn:E; [|discriminate].
    exists e. split; [exact E|]. left. reflexivity.
Qed.

Lemma runPipeline_500 u :
  runPipeline sqrtQ u = ServerError500 ->
  (exists e, isRateLimit e = false /\ metadataRejected u e)
  \/ exists info tickers,
       exchangeInfoResponse u = Resolved info
       /\ tickersResponse u = Resolved tickers
       /\ cryptoData sqrtQ (completionOrder u)
            (tasksOf u (usdtPairs info tickers)) = [].
Proof.
  unfold runPipeline, metadataRejected. intros H.
  destruct (exchangeInfoResponse u) as [info|e].
  - destruct (tickersResponse u) as [tickers|e].
    + right. exists info, tickers. split; [reflexivity|].
      split; [reflexivity|].
      destruct (cryptoData sqrtQ (completionOrder u)
                  (tasksOf u (usdtPairs info tickers)));
        [reflexivity|discriminate].
    + destruct (isRateLimit e) eqn:E; [discriminate|].
      left. exists e. split; [exact E|]. right. exists info. auto.
  - destruct (isRateLimit e) eqn:E; [discriminate|].
    left. exists e. split; [exact E|]. left. reflexivity.
Qed.

(** X9.  An error reply is the outcome of the run of the request it
    answers, never of another request and never of the cache.  A 429
    means that the exchange answered 429 to the metadata call or to the
    ticker call of that run; rate limits on the candle or open-interest
    calls of the symbols never surface as 429.  A 500 means that one of
    these two calls failed otherwise, or that no symbol was left to
    publish. *)
Theorem error_replies_come_from_own_run (events : list Event) (id : nat)
    (reply : Reply) :
  In (id, reply) (replies (run sqrtQ idle events)) ->
  match reply with
  | Ok200 _ => True
  | TooManyRequests429 =>
      exists now u e,
        In (Arrive id now u) events
        /\ isRateLimit e = true /\ metadataRejected u e
  | ServerError500 =>
      exists now u,
        In (Arrive id now u) events
        /\ ((exists e, isRateLimit e = false /\ metadataRejected u e)
            \/ exists info tickers,
                 exchangeInfoResponse u = Resolved info
                 /\ tickersResponse u = Resolved tickers
                 /\ cryptoData sqrtQ (completionOrder u)
                      (tasksOf u (usdtPairs info tickers)) = [])
  end.
Proof.
  intros Hin.
  assert (Hidle : tracksArrivals sqrtQ [] idle).
  { split; intros ? ? H; destruct H. }
  destruct (@run_tracksArrivals events [] idle Hidle) as [_ Hrep].
  cbn [app] in Hrep.
  destruct reply as [body| |]; [exact I| |].
  - destruct (Hrep _ _ Hin) as [[body Hb]|(now & u & Hev & Hrun)];
      [discriminate|].
    destruct (runPipeline_429 _ Hrun) as (e & He & Hm).
    exists now, u, e. auto.
  - destruct (Hrep _ _ Hin) as [[body Hb]|(now & u & Hev & Hrun)];
      [discriminate|].
    exists now, u. split; [exact Hev|]. apply runPipeline_500, Hrun.
Qed.

Lemma combine_nth (A B : Type) (f : nat -> B) (xs : list A) :
  forall start i x,
    nth_error xs i = Some x ->
    In (x, f (start + i)%nat) (combine xs (map f (seq start (length xs)))).
Proof.
  induction xs as [|y xs IH]; intros start i x Hnth.
  - destruct i; discriminate.
  - cbn [length seq map combine]. destruct i as [|i]; cbn [nth_error] in Hnth.
    + injection Hnth as <-. left. rewrite Nat.add_0_r. reflexivity.
    + right. replace (start + S i)%nat with (S start + i)%nat by lia.
      apply IH. exact Hnth.
Qed.

(** X10.  The output is complete: when every task of a run settles, each
    ticker of the universe that reaches the minimum volume and whose
    daily candles are fetched, with a close above zero on the last but
    one, has its record in the reply, with its symbol, price and volume.
    The price test that opens a task never turns a ticker of the
    universe down. *)
Theorem every_passing_symbol_is_published (u : Upstream)
    (info : list SymbolInfo) (tickers : list Ticker)
    (records : list CryptoData) :
  exchangeInfoResponse u = Resolved info ->
  tickersResponse u = Resolved tickers ->
  completes (completionOrder u) (tasksOf u (usdtPairs info tickers)) ->
  runPipeline sqrtQ u = Ok200 records ->
  forall i ticker,
    nth_error (usdtPairs info tickers) i = Some ticker ->
    passing ticker (fetches u i) ->
    exists r, In r records
              /\ processTicker sqrtQ ticker (fetches u i) = Some r
              /\ symbol r = tsymbol ticker
              /\ currentPrice r = lastPrice ticker
              /\ volume r = quoteVolume ticker.
Proof.
  intros Hi Ht Hcomplete Hrun i ticker Hnth Hpass.
  destruct (runPipeline_inv _ _ Hrun) as (info' & tickers' & Hi' & Ht' & ->).
  rewrite Hi in Hi'. injection Hi' as <-.
  rewrite Ht in Ht'. injection Ht' as <-.
  assert (Hprice : (lastPrice ticker >? zero)%num = true).
  { apply nth_error_In in Hnth. apply usdtPairs_In in Hnth.
    destruct Hnth as [_ He]. apply eligible_inv in He. tauto. }
  destruct (processTicker sqrtQ ticker (fetches u i)) as [r|] eqn:Ep.
  - exists r.
    assert (Htask : In (ticker, fetches u i)
                       (tasksOf u (usdtPairs info tickers))).
    { unfold tasksOf. apply (combine_nth (fetches u) _ 0 i). exact Hnth. }
    split.
    + rewrite (cryptoData_merged sqrtQ Hcomplete).
      eapply Permutation_in;
        [apply Permutation_sym, (sort_perm volume)|].
      unfold merged, outcomes. apply kept_In.
      rewrite <- Ep.
      apply (in_map (fun task => processTicker sqrtQ (fst task) (snd task))
                    _ _ Htask).
    + split; [reflexivity|].
      destruct (processTicker_inv _ _ _ Ep) as (resp & k4 & _ & Hc).
      apply computeRecord_inv in Hc. tauto.
  - exfalso. destruct Hpass as (resp & Hresp & Hvol & Hlen & Hclose).
    exact (@processTicker_passing sqrtQ ticker (fetches u i) resp Hprice
             Hresp Hvol Hlen Hclose Ep).
Qed.

End WithSqrt.

Import Samples Scenarios.

Lemma reply_bounds_witness :
  exists body,
    In (1%nat, Ok200 body)
       (replies (run sqrtFloor idle
                   [Arrive 1 0 (upstreamAt 40000); Finish 1 10]))
    /\ (1 <= length body <= 100)%nat
    /\ runPipeline sqrtFloor (upstreamAt 40000) = Ok200 body
    /\ Forall (fromFeed (tickersAt 40000)) body.
Proof.
  eexists. split.
  - vm_compute. left. reflexivity.
  - match goal with
    | |- (_ <= length ?b <= _)%nat /\ _ =>
        destruct (@reply_bounds sqrtFloor
                    [Arrive 1 0 (upstreamAt 40000); Finish 1 10] 1%nat b)
          as (Hlen & id' & now & u & tickers & Hev & Hrun & Ht & Hall)
    end.
    + vm_compute. left. reflexivity.
    + split; [exact Hlen|].
      destruct Hev as [Heq|[Heq|[]]]; [|discriminate Heq].
      injection Heq as Hid Hnow Hu. subst u.
      injection Ht as Ht. subst tickers.
      split; [exact Hrun|exact Hall].
Defined.

Lemma cache_holds_a_sent_snapshot_witness :
  let events :=
    [Arrive 1 0 (upstreamAt 40000); Finish 1 10;
     Arrive 2 200000 limitedUpstream] in
  exists entry,
    cache (run sqrtFloor idle events) = Some entry
    /\ entryData entry <> []
    /\ timestamp entry = 10%Z
    /\ cache (run sqrtFloor idle (events ++ [Finish 2 200005]))
       = Some entry
    /\ replies (run sqrtFloor idle (events ++ [Finish 2 200005]))
       = replies (run sqrtFloor idle events) ++ [(2%nat, TooManyRequests429)].
Proof.
  intros events.
  destruct (@cache_holds_a_sent_snapshot sqrtFloor events)
    as (Hentry & _ & Hfail).
  eexists. split; [vm_compute; reflexivity|].
  split; [eapply Hentry; vm_compute; reflexivity|].
  split; [reflexivity|].
  destruct (Hfail 2%nat 200005%Z limitedUpstream [] eq_refl
              (or_introl eq_refl)) as [Hcache Hreplies].
  split; [rewrite Hcache; vm_compute; reflexivity|exact Hreplies].
Defined.

Lemma error_replies_come_from_own_run_witness :
  exists now u e,
    In (Arrive 1 now u) [Arrive 1 0 limitedUpstream; Finish 1 5]
    /\ isRateLimit e = true
    /\ ServerLaws.metadataRejected u e.
Proof.
  apply (@error_replies_come_from_own_run sqrtFloor
           [Arrive 1 0 limitedUpstream; Finish 1 5] 1%nat
           TooManyRequests429).
  vm_compute. left. reflexivity.
Defined.

Lemma every_passing_symbol_is_published_witness :
  exists r,
    processTicker sqrtFloor (mkTicker "BTCUSDT" (ofZ 40000) (ofZ 900000))
                  fetchOf = Some r
    /\ symbol r = "BTCUSDT"%string.
Proof.
  destruct (runPipeline sqrtFloor (upstreamAt 40000)) as [records| |] eqn:E;
    try (vm_compute in E; discriminate).
  destruct (@every_passing_symbol_is_published sqrtFloor (upstreamAt 40000)
              exchangeInfo (tickersAt 40000) records eq_refl eq_refl
              (sample_order_completes _ _ (or_introl eq_refl)
                 (fun _ => eq_refl))
              E 0%nat (mkTicker "BTCUSDT" (ofZ 40000) (ofZ 900000)))
    as (r & _ & Hp & Hs & _).
  - reflexivity.
  - exists (mkAxiosResponse 200 (Some threeDays)).
    split; [reflexivity|]. simpl. repeat split; try reflexivity. lia.
  - exists r. split; [exact Hp|exact Hs].
Defined.

End ServerProps.

(* ================================================================== *)
(** ** The universe is the top of the ranking *)
(* ================================================================== *)

Module RankingProps.

Import JsArray Universe.
Import NumProps Laws SortProps UniverseProps.

Lemma StronglySorted_app_inv (A : Type) (R : A -> A -> Prop) l1 l2 :
  StronglySorted R (l1 ++ l2) ->
  forall a b, In a l1 -> In b l2 -> R a b.
Proof.
  induction l1 as [|x l1 IH]; simpl; intros Hs a b Ha Hb; [contradiction|].
  apply StronglySorted_inv in Hs. destruct Hs as [Hs Hx].
  destruct Ha as [<-|Ha].
  - rewrite Forall_forall in Hx. apply Hx, in_or_app. right. exact Hb.
  - apply IH; assumption.
Qed.

Lemma eligible_volume_number active t :
  eligible active t = true -> quoteVolume t <> NaN.
Proof.
  intros H. apply eligible_inv in H. destruct H as (_ & Hv & _).
  eapply gtb_not_nan. exact Hv.
Qed.

(** X11.  The cut at 100 keeps the largest volumes.  With at most 100
    eligible tickers the universe is all of them; an eligible ticker is
    left out only of a full universe, and then no ticker of the universe
    has a smaller 24h volume than it has. *)
Theorem universe_is_top_of_ranking (info : list SymbolInfo)
    (tickers : list Ticker) :
  let candidates := filter (eligible (activeSymbols info)) tickers in
  let universe := usdtPairs info tickers in
  ((length candidates <= 100)%nat -> Permutation universe candidates)
  /\ (forall t, In t candidates -> ~ In t universe ->
        length universe = 100%nat
        /\ Forall (fun u => (quoteVolume t <=? quoteVolume u)%num = true)
                  universe).
Proof.
  intros candidates universe. subst universe.
  rewrite usdtPairs_unfold. fold candidates.
  set (ranked := sort (descending quoteVolume) candidates).
  assert (Hperm : Permutation ranked candidates) by apply sort_perm.
  split.
  - intros Hlen. rewrite firstn_all2; [exact Hperm|].
    rewrite (Permutation_length Hperm). exact Hlen.
  - intros t Ht Hout.
    assert (Hsorted : StronglySorted (notBelow quoteVolume) ranked).
    { apply sort_sorted. apply Forall_forall. intros y Hy.
      apply filter_In in Hy. destruct Hy as [_ Hy].
      eapply eligible_volume_number; eauto. }
    assert (Hrest : In t (skipn 100 ranked)).
    { assert (Hin : In t ranked)
        by (eapply Permutation_in; [apply Permutation_sym|]; eauto).
      rewrite <- (firstn_skipn 100 ranked) in Hin.
      apply in_app_or in Hin. destruct Hin as [Hin|Hin];
        [contradiction|exact Hin]. }
    split.
    + rewrite length_firstn. apply Nat.min_l.
      destruct (Nat.le_gt_cases 100 (length ranked)) as [Hle|Hgt];
        [exact Hle|].
      rewrite skipn_all2 in Hrest by lia. contradiction.
    + apply Forall_forall. intros u Hu.
      rewrite <- (firstn_skipn 100 ranked) in Hsorted.
      exact (@StronglySorted_app_inv _ _ _ _ Hsorted u t Hu Hrest).
Qed.

Lemma universe_is_top_of_ranking_witness :
  length (usdtPairs Samples.exchangeInfo Crowd.tickers) = 100%nat
  /\ Forall (fun u => (quoteVolume Crowd.smallest <=? quoteVolume u)%num
                      = true)
            (usdtPairs Samples.exchangeInfo Crowd.tickers).
Proof.
  apply (proj2 (universe_is_top_of_ranking Samples.exchangeInfo
                  Crowd.tickers) Crowd.smallest).
  - vm_compute. left. reflexivity.
  - intros Hin. apply in_map with (f := quoteVolume) in Hin.
    vm_compute in Hin.
    repeat (destruct Hin as [Hin|Hin]; [discriminate|]).
    exact Hin.
Defined.

End RankingProps.

(* ================================================================== *)
(** ** Open-interest history *)
(* ================================================================== *)

Module OpenInterestProps.

Import Retry Indicators Pipeline OpenInterest.
Import NumProps OpenInterestLaws.

Lemma scan_fold ts24 ts7 oiHistory :
  forall found,
    fold_left (scanEntry ts24 ts7) oiHistory found
    = (orElse (fst found) (firstCandidate ts24 tolerance24h oiHistory),
       orElse (snd found) (firstCandidate ts7 tolerance7d oiHistory)).
Proof.
  induction oiHistory as [|entry rest IH]; intros [a b]; cbn [fold_left].
  - destruct a, b; reflexivity.
  - rewrite IH. unfold scanEntry, firstCandidate, candidate.
    cbn [find fst snd].
    destruct (timestamp entry =? 0)%Z; cbn [negb andb fst snd];
      [reflexivity|].
    destruct a as [va|], b as [vb|]; cbn [orElse]; try reflexivity.
    + destruct ((Z.abs (timestamp entry - ts7) <? tolerance7d)%Z
                && validOI (sumOpenInterest entry)); reflexivity.
    + destruct ((Z.abs (timestamp entry - ts24) <? tolerance24h)%Z
                && validOI (sumOpenInterest entry)); reflexivity.
    + destruct ((Z.abs (timestamp entry - ts24) <? tolerance24h)%Z
                && validOI (sumOpenInterest entry));
      destruct ((Z.abs (timestamp entry - ts7) <? tolerance7d)%Z
                && validOI (sumOpenInterest entry)); reflexivity.
Qed.

Lemma atInterval_valid oiHistory intervals v :
  atInterval oiHistory intervals = Some v ->
  validOI v = true
  /\ exists entry, nth_error oiHistory intervals = Some entry
                   /\ sumOpenInterest entry = v.
Proof.
  unfold atInterval. intros H.
  destruct (intervals <? length oiHistory)%nat; [|discriminate].
  destruct (nth_error oiHistory intervals) as [entry|]; [|discriminate].
  destruct (validOI (sumOpenInterest entry)) eqn:E; [|discriminate].
  injection H as <-. split; [exact E|]. exists entry. auto.
Qed.

Lemma firstCandidate_valid target tolerance oiHistory v :
  firstCandidate target tolerance oiHistory = Some v ->
  validOI v = true.
Proof.
  unfold firstCandidate. intros H.
  destruct (find (candidate target tolerance) oiHistory) as [entry|] eqn:E;
    [|discriminate].
  injection H as <-. apply find_some in E. destruct E as [_ E].
  unfold candidate in E. apply andb_true_iff in E. tauto.
Qed.

(** X12.  The open interest of 24 hours ago is the value at index 288
    when the history has more than 288 entries and that value is a
    number above zero; otherwise it is the value of the first entry, in
    array order, whose timestamp is not zero and lies less than 2 hours
    from the 24-hour mark and whose value is a number above zero.  The
    same holds for 7 days ago with index 2016 and 12 hours, so that a
    history of at most 2016 entries is only scanned.  A value that is
    found is above zero, hence the change computed from it is present. *)
Theorem past_open_interest_selection (now : Z)
    (oiHistory : list OpenInterestHist) :
  let day := (now - 24 * 60 * 60 * 1000)%Z in
  let week := (now - 7 * 24 * 60 * 60 * 1000)%Z in
  pastOpenInterest now oiHistory
  = (orElse (atInterval oiHistory 288)
            (firstCandidate day (2 * 60 * 60 * 1000) oiHistory),
     orElse (atInterval oiHistory 2016)
            (firstCandidate week (12 * 60 * 60 * 1000) oiHistory))
  /\ ((length oiHistory <= 2016)%nat ->
      snd (pastOpenInterest now oiHistory)
      = firstCandidate week (12 * 60 * 60 * 1000) oiHistory)
  /\ (forall currentOI v,
        fst (pastOpenInterest now oiHistory) = Some v
        \/ snd (pastOpenInterest now oiHistory) = Some v ->
        (v >? zero)%num = true
        /\ changeSince currentOI (Some v) = Some (pctChange currentOI v)).
Proof.
  intros day week.
  assert (Heq : pastOpenInterest now oiHistory
                = (orElse (atInterval oiHistory 288)
                     (firstCandidate day (2 * 60 * 60 * 1000) oiHistory),
                   orElse (atInterval oiHistory 2016)
                     (firstCandidate week (12 * 60 * 60 * 1000) oiHistory))).
  { unfold pastOpenInterest.
    change intervals24h with 288%nat. change intervals7d with 2016%nat.
    fold day. fold week.
    destruct ((isNull (atInterval oiHistory 288)
               || isNull (atInterval oiHistory 2016))
              && (0 <? length oiHistory)%nat) eqn:G.
    - rewrite scan_fold. reflexivity.
    - apply andb_false_iff in G. destruct G as [G|G].
      + apply orb_false_iff in G. destruct G as [G1 G2].
        destruct (atInterval oiHistory 288); [|discriminate].
        destruct (atInterval oiHistory 2016); [|discriminate].
        reflexivity.
      + destruct oiHistory; [|discriminate]. reflexivity. }
  split; [exact Heq|]. split.
  - intros Hlen. rewrite Heq. cbn [snd].
    unfold atInterval at 1.
    assert (E : (2016 <? length oiHistory)%nat = false)
      by (apply Nat.ltb_ge; exact Hlen).
    rewrite E. reflexivity.
  - intros currentOI v Hv.
    assert (Hvalid : validOI v = true).
    { rewrite Heq in Hv. cbn [fst snd] in Hv.
      destruct Hv as [Hv|Hv].
      - destruct (atInterval oiHistory 288) as [w|] eqn:E; cbn [orElse] in Hv.
        + injection Hv as <-. apply (atInterval_valid _ _ E).
        + eapply firstCandidate_valid; eauto.
      - destruct (atInterval oiHistory 2016) as [w|] eqn:E;
          cbn [orElse] in Hv.
        + injection Hv as <-. apply (atInterval_valid _ _ E).
        + eapply firstCandidate_valid; eauto. }
    unfold validOI in Hvalid. apply andb_true_iff in Hvalid.
    destruct Hvalid as [_ Hpos]. split; [exact Hpos|].
    unfold changeSince. rewrite Hpos. reflexivity.
Qed.

Section Endpoints.

Variable fetchHistory : Endpoint -> nat -> Outcome (AxiosResponse HistBody).

Lemma tryEndpoints_cons endpoint rest :
  tryEndpoints fetchHistory (endpoint :: rest)
  = orElse (attempt fetchHistory endpoint) (tryEndpoints fetchHistory rest).
Proof.
  cbn [tryEndpoints]. unfold attempt.
  destruct (completion (retryWithBackoffDefault (fetchHistory endpoint)))
    as [response|e|]; [|reflexivity|reflexivity].
  destruct (usable response); reflexivity.
Qed.

Lemma usable_inv response rows :
  usable response = Some rows ->
  httpStatus response = 200%Z /\ rows <> [].
Proof.
  unfold usable. intros H.
  destruct (httpStatus response =? 200)%Z eqn:E; [|discriminate].
  apply Z.eqb_eq in E. split; [exact E|].
  destruct (data response) as [body|]; [|discriminate].
  destruct (rowsOf body) as [rs|]; [|discriminate].
  destruct (0 <? length rs)%nat eqn:L; [|discriminate].
  injection H as <-. intros ->. discriminate.
Qed.

(** X13.  The history comes from the first endpoint, in the order 1h,
    5m, 1d, whose call returns status 200 with a non-empty array; an
    endpoint that throws after its retries, answers another status or
    brings no rows only hands over to the next one.  Without such an
    endpoint both changes are absent. *)
Theorem history_from_first_usable_endpoint (now : Z) (currentOI : num) :
  tryEndpoints fetchHistory endpoints
  = orElse (attempt fetchHistory (mkEndpoint "1h" 200))
      (orElse (attempt fetchHistory (mkEndpoint "5m" 300))
              (attempt fetchHistory (mkEndpoint "1d" 10)))
  /\ (forall rows,
        tryEndpoints fetchHistory endpoints = Some rows ->
        rows <> []
        /\ exists endpoint response,
             In endpoint endpoints
             /\ completion (retryWithBackoffDefault (fetchHistory endpoint))
                = Returned response
             /\ httpStatus response = 200%Z
             /\ usable response = Some rows)
  /\ (tryEndpoints fetchHistory endpoints = None ->
      historyChanges fetchHistory now currentOI = (None, None)).
Proof.
  assert (Heq : tryEndpoints fetchHistory endpoints
                = orElse (attempt fetchHistory (mkEndpoint "1h" 200))
                    (orElse (attempt fetchHistory (mkEndpoint "5m" 300))
                            (attempt fetchHistory (mkEndpoint "1d" 10)))).
  { unfold endpoints. rewrite !tryEndpoints_cons. cbn [tryEndpoints].
    destruct (attempt fetchHistory (mkEndpoint "1d" 10)); reflexivity. }
  split; [exact Heq|]. split.
  - intros rows Hrows.
    assert (Hsrc : exists endpoint, In endpoint endpoints
                     /\ attempt fetchHistory endpoint = Some rows).
    { rewrite Heq in Hrows. unfold endpoints.
      destruct (attempt fetchHistory (mkEndpoint "1h" 200)) eqn:E1;
        cbn [orElse] in Hrows.
      - injection Hrows as <-. eexists. split; [left; reflexivity|exact E1].
      - destruct (attempt fetchHistory (mkEndpoint "5m" 300)) eqn:E2;
          cbn [orElse] in Hrows.
        + injection Hrows as <-.
          eexists. split; [right; left; reflexivity|exact E2].
        + eexists. split; [right; right; left; reflexivity|exact Hrows]. }
    destruct Hsrc as (endpoint & Hin & Hatt). unfold attempt in Hatt.
    destruct (completion (retryWithBackoffDefault (fetchHistory endpoint)))
      as [response|e|] eqn:Ec; try discriminate.
    destruct (usable_inv _ Hatt) as [Hst Hne].
    split; [exact Hne|]. exists endpoint, response. auto.
  - intros Hnone. unfold historyChanges. rewrite Hnone. reflexivity.
Qed.

End Endpoints.

Import OpenInterestSamples.

Example history_sample :
  historyChanges fetchHistory now (ofZ 500) = (Some (ofZ 25), Some (ofZ 100)).
Proof. vm_compute. reflexivity. Qed.

Lemma past_open_interest_selection_witness :
  pastOpenInterest now hourly = (Some (ofZ 400), Some (ofZ 250)).
Proof.
  rewrite (proj1 (past_open_interest_selection now hourly)).
  vm_compute. reflexivity.
Defined.

Lemma history_from_first_usable_endpoint_witness :
  tryEndpoints fetchHistory endpoints = Some hourly.
Proof.
  rewrite (proj1 (history_from_first_usable_endpoint fetchHistory now zero)).
  vm_compute. reflexivity.
Defined.

End OpenInterestProps.

(* ================================================================== *)
(** ** Live ticks and the table *)
(* ================================================================== *)

Module FeedProps.

Import Watchlists WebSocketFeed Home.
Import NumProps UniverseProps TableLaws.

Lemma get_set (V : Type) (m : JsMap.t V) k v k' :
  JsMap.get (JsMap.set m k v) k'
  = if String.eqb k k' then Some v else JsMap.get m k'.
Proof.
  induction m as [|[k0 v0] m IH]; cbn [JsMap.set JsMap.get].
  - reflexivity.
  - destruct (String.eqb_spec k0 k) as [->|Hne]; cbn [JsMap.get].
    + destruct (String.eqb k k'); reflexivity.
    + rewrite IH. destruct (String.eqb_spec k0 k') as [->|Hne'];
        [|reflexivity].
      destruct (String.eqb_spec k k') as [->|_];
        [contradiction|reflexivity].
Qed.

Lemma find_app (A : Type) (p : A -> bool) xs ys :
  find p (xs ++ ys)
  = match find p xs with
    | Some x => Some x
    | None => find p ys
    end.
Proof.
  induction xs as [|x xs IH]; simpl; [reflexivity|].
  destruct (p x); [reflexivity|exact IH].
Qed.

Lemma find_ext_in (A : Type) (p q : A -> bool) xs :
  (forall x, In x xs -> p x = q x) -> find p xs = find q xs.
Proof.
  induction xs as [|x xs IH]; simpl; intros H; [reflexivity|].
  rewrite (H x) by (left; reflexivity).
  destruct (q x); [reflexivity|]. apply IH. intros y Hy. apply H.
  right. exact Hy.
Qed.

Section Feed.

Variable toLowerCase : string -> string.

(** What the map of a message holds under a key: the update of the last
    accepted ticker for it in the message. *)
Lemma get_collected set k tickers :
  forall m,
    JsMap.get (fold_left (considerTicker toLowerCase set) tickers m) k
    = match find (accepted toLowerCase set k) (rev tickers) with
      | Some ticker => Some (updateOf ticker)
      | None => JsMap.get m k
      end.
Proof.
  induction tickers as [|ticker rest IH]; intros m; cbn [fold_left rev].
  - reflexivity.
  - rewrite IH, find_app.
    destruct (find (accepted toLowerCase set k) (rev rest));
      [reflexivity|].
    cbn [find]. unfold considerTicker, accepted.
    destruct (Universe.has set (toLowerCase (tickSymbol ticker)));
      cbn [andb]; [|reflexivity].
    destruct (negb (isNaN (tickClose ticker))
              && negb (isNaN (tickQuoteVolume ticker)));
      cbn [andb]; [|reflexivity].
    rewrite get_set.
    destruct (String.eqb (tickSymbol ticker) k); reflexivity.
Qed.

Lemma applyUpdates_empty rows :
  applyUpdates (@JsMap.empty PriceUpdate) rows = rows.
Proof.
  unfold applyUpdates.
  induction rows as [|r rows IH]; simpl; [reflexivity|].
  f_equal. exact IH.
Qed.

Lemma onmessage_rows st tickers :
  let updates := collectUpdates toLowerCase (symbols st) tickers in
  let st' :=
    onmessage toLowerCase handlePriceUpdate (symbols st) (Some tickers) st in
  originalData st' = applyUpdates updates (originalData st)
  /\ data st' = applyUpdates updates (data st)
  /\ sortColumn st' = sortColumn st /\ sortState st' = sortState st
  /\ activeWatchlistId st' = activeWatchlistId st
  /\ searchQuery st' = searchQuery st.
Proof.
  intros updates st'. subst st'. unfold onmessage. fold updates.
  destruct updates as [|u us] eqn:E.
  - cbn [JsMap.size length Nat.ltb Nat.leb].
    change (@nil (string * PriceUpdate)) with (@JsMap.empty PriceUpdate).
    rewrite !applyUpdates_empty. repeat split; reflexivity.
  - cbn [JsMap.size length Nat.ltb Nat.leb]. unfold handlePriceUpdate.
    cbn [originalData data sortColumn sortState activeWatchlistId
         searchQuery].
    repeat split; reflexivity.
Qed.

Lemma accepted_for_known set_of k :
  In k set_of ->
  forall ticker,
    accepted toLowerCase (symbolsSet toLowerCase set_of) k ticker
    = validTick k ticker.
Proof.
  intros Hin ticker. unfold accepted, validTick.
  destruct (String.eqb_spec (tickSymbol ticker) k) as [->|Hne];
    [|rewrite !andb_false_r; reflexivity].
  assert (Hhas : Universe.has (symbolsSet toLowerCase set_of)
                   (toLowerCase k) = true).
  { apply has_In. unfold symbolsSet. apply in_map. exact Hin. }
  rewrite Hhas. reflexivity.
Qed.

Lemma applyUpdates_ticked known tickers rows :
  incl (map symbol rows) known ->
  applyUpdates (collectUpdates toLowerCase known tickers) rows
  = map (ticked tickers) rows.
Proof.
  intros Hincl. unfold applyUpdates. apply map_ext_in. intros coin Hcoin.
  unfold collectUpdates. rewrite get_collected.
  cbn [JsMap.get JsMap.empty]. unfold ticked, lastValidTick.
  rewrite (find_ext_in _ (validTick (symbol coin)) (rev tickers)).
  - destruct (find (validTick (symbol coin)) (rev tickers)); reflexivity.
  - intros t _. apply accepted_for_known. apply Hincl.
    apply in_map. exact Hcoin.
Qed.

Lemma historicalFields_ticked tickers coin :
  historicalFields (ticked tickers coin) = historicalFields coin.
Proof.
  unfold ticked. destruct (lastValidTick (symbol coin) tickers);
    reflexivity.
Qed.

Lemma ticked_number tickers coin :
  isNaN (currentPrice coin) = false -> isNaN (volume coin) = false ->
  isNaN (currentPrice (ticked tickers coin)) = false
  /\ isNaN (volume (ticked tickers coin)) = false.
Proof.
  intros Hp Hv. unfold ticked, lastValidTick.
  destruct (find (validTick (symbol coin)) (rev tickers)) as [t|] eqn:E;
    [|auto].
  apply find_some in E. destruct E as [_ E]. unfold validTick in E.
  apply andb_true_iff in E. destruct E as [E _].
  apply andb_true_iff in E. destruct E as [E1 E2].
  apply negb_true_iff in E1, E2.
  cbn [mergeUpdate updateOf currentPrice volume updCurrentPrice updVolume].
  auto.
Qed.

(** X14.  A message of the live feed gives every fetched row the price
    and the volume of the last ticker of the message that bears its
    symbol and whose price and volume are both numbers; a row without
    such a ticker is untouched.  The rows keep their order, their
    symbols and every indicator computed by the server, the sort and the
    filters are not reset, and a price or volume that was a number stays
    one.  The rows on display follow in the same way as long as they
    show fetched symbols. *)
Theorem live_ticks_update_price_and_volume (st : State)
    (tickers : list BinanceTickerUpdate) :
  let st' :=
    onmessage toLowerCase handlePriceUpdate (symbols st) (Some tickers) st in
  originalData st' = map (ticked tickers) (originalData st)
  /\ map historicalFields (originalData st')
     = map historicalFields (originalData st)
  /\ map historicalFields (data st') = map historicalFields (data st)
  /\ (sortColumn st', sortState st', activeWatchlistId st', searchQuery st')
     = (sortColumn st, sortState st, activeWatchlistId st, searchQuery st)
  /\ (Forall (fun coin => isNaN (currentPrice coin) = false
                          /\ isNaN (volume coin) = false)
             (originalData st) ->
      Forall (fun coin => isNaN (currentPrice coin) = false
                          /\ isNaN (volume coin) = false)
             (originalData st'))
  /\ (incl (map symbol (data st)) (symbols st) ->
      data st' = map (ticked tickers) (data st)).
Proof.
  intros st'.
  destruct (onmessage_rows st tickers) as (Ho & Hd & Hc & Hs & Ha & Hq).
  fold st' in Ho, Hd, Hc, Hs, Ha, Hq.
  assert (Horig : originalData st' = map (ticked tickers) (originalData st)).
  { rewrite Ho. apply applyUpdates_ticked. unfold symbols.
    intros x Hx. exact Hx. }
  split; [exact Horig|]. split.
  { rewrite Horig, map_map. apply map_ext. intros coin.
    apply historicalFields_ticked. }
  split.
  { rewrite Hd. unfold applyUpdates. rewrite map_map. apply map_ext.
    intros coin.
    destruct (JsMap.get _ (symbol coin)); reflexivity. }
  split; [rewrite Hc, Hs, Ha, Hq; reflexivity|]. split.
  - intros Hall. rewrite Horig. apply Forall_map.
    eapply Forall_impl; [|exact Hall].
    intros coin [Hp Hv]. apply ticked_number; assumption.
  - intros Hincl. rewrite Hd. apply applyUpdates_ticked. exact Hincl.
Qed.

End Feed.

Import TableSamples.

Lemma live_ticks_update_price_and_volume_witness :
  map (fun coin => (symbol coin, currentPrice coin, volume coin))
      (data (onmessage asciiLower handlePriceUpdate (symbols fresh)
               (Some message) fresh))
  = [("BTCUSDT"%string, ofZ 40000, ofZ 900000);
     ("ETHUSDT"%string, ofZ 2020, ofZ 520000);
     ("SOLUSDT"%string, ofZ 150, ofZ 300000)].
Proof.
  rewrite (proj2 (proj2 (proj2 (proj2 (proj2
             (live_ticks_update_price_and_volume asciiLower fresh
                message)))))).
  - vm_compute. reflexivity.
  - intros x Hx. exact Hx.
Defined.

End FeedProps.

(* ================================================================== *)
(** ** Sorting and filtering the table *)
(* ================================================================== *)

Module TableProps.

Import JsArray Watchlists WebSocketFeed Home.
Import NumProps Laws TableLaws.

Section Comparator.

Variable A : Type.
Variable cmp : A -> A -> num.

Lemma insert_permutes x xs : Permutation (insert cmp x xs) (x :: xs).
Proof.
  induction xs as [|y rest IH]; cbn [insert]; [apply Permutation_refl|].
  destruct (cmp x y >? zero)%num; [|apply Permutation_refl].
  eapply Permutation_trans; [apply perm_skip, IH|apply perm_swap].
Qed.

Lemma sort_permutes xs : Permutation (sort cmp xs) xs.
Proof.
  induction xs as [|x rest IH]; cbn [sort fold_right];
    [apply Permutation_refl|].
  eapply Permutation_trans; [apply insert_permutes|].
  apply perm_skip. exact IH.
Qed.

(** The order [R] the comparator stands for on the elements that satisfy
    [P]. *)
Variable R : A -> A -> Prop.
Variable P : A -> Prop.

Hypothesis keeps : forall x y, P x -> P y ->
  (cmp x y >? zero)%num = false -> R x y.
Hypothesis swaps : forall x y, P x -> P y ->
  (cmp x y >? zero)%num = true -> R y x.
Hypothesis R_trans : forall x y z, R x y -> R y z -> R x z.

Lemma insert_ordered x xs :
  P x -> Forall P xs -> StronglySorted R xs ->
  StronglySorted R (insert cmp x xs).
Proof.
  intros Hx Hall Hs.
  induction xs as [|y rest IH]; cbn [insert].
  - constructor; constructor.
  - apply StronglySorted_inv in Hs. destruct Hs as [Hrest Hy].
    pose proof (Forall_inv Hall) as Py.
    pose proof (Forall_inv_tail Hall) as Prest.
    destruct (cmp x y >? zero)%num eqn:E.
    + constructor; [apply IH; assumption|].
      apply Forall_forall. intros z Hz.
      apply (Permutation_in _ (insert_permutes x rest)) in Hz.
      destruct Hz as [<-|Hz]; [apply swaps; assumption|].
      rewrite Forall_forall in Hy. apply Hy. exact Hz.
    + constructor; [constructor; assumption|].
      constructor; [apply keeps; assumption|].
      apply Forall_forall. intros z Hz.
      apply R_trans with y; [apply keeps; assumption|].
      rewrite Forall_forall in Hy. apply Hy. exact Hz.
Qed.

Lemma sort_ordered xs :
  Forall P xs -> StronglySorted R (sort cmp xs).
Proof.
  induction xs as [|x rest IH]; cbn [sort fold_right]; intros Hall.
  - constructor.
  - apply insert_ordered.
    + exact (Forall_inv Hall).
    + apply Forall_forall. intros z Hz.
      apply (Permutation_in _ (sort_permutes rest)) in Hz.
      pose proof (Forall_inv_tail Hall) as Hrest.
      rewrite Forall_forall in Hrest. apply Hrest. exact Hz.
    + apply IH. exact (Forall_inv_tail Hall).
Qed.

End Comparator.

(** A comparator that always answers zero leaves the array as it is. *)
Lemma sort_unsorted (A : Type) (xs : list A) :
  sort (fun _ _ : A => zero) xs = xs.
Proof.
  induction xs as [|x rest IH]; cbn [sort fold_right]; [reflexivity|].
  fold (sort (fun _ _ : A => zero) rest). rewrite IH.
  destruct rest; reflexivity.
Qed.

Lemma ltb_leb x y : (x <? y)%num = true -> (x <=? y)%num = true.
Proof.
  destruct x as [| | |a], y as [| | |b]; simpl; try congruence.
  intros H. apply Qltb_lt in H. apply Qle_bool_iff. lra.
Qed.

Lemma descending_test x y :
  (((x - y) * ofZ (-1)) >? zero)%num = (x <? y)%num.
Proof.
  destruct x as [| | |a], y as [| | |b]; try reflexivity.
  rewrite sub_fin. unfold fin, ofZ. rewrite mul_fin.
  unfold gtb, ltb, zero, ofZ, fin.
  destruct (Qltb a b) eqn:E.
  - apply Qltb_lt in E. apply Qltb_lt. rewrite !Qred_correct.
    change (inject_Z (-1)) with (-1 # 1). change (inject_Z 0) with 0%Q. lra.
  - apply Qltb_ge in E. apply Qltb_ge. rewrite !Qred_correct.
    change (inject_Z (-1)) with (-1 # 1). change (inject_Z 0) with 0%Q. lra.
Qed.

Lemma ascending_test x y :
  (((x - y) * ofZ 1) >? zero)%num = (y <? x)%num.
Proof.
  destruct x as [| | |a], y as [| | |b]; try reflexivity.
  rewrite sub_fin. unfold fin, ofZ. rewrite mul_fin.
  unfold gtb, ltb, zero, ofZ, fin.
  destruct (Qltb b a) eqn:E.
  - apply Qltb_lt in E. apply Qltb_lt. rewrite !Qred_correct.
    change (inject_Z 1) with 1%Q. change (inject_Z 0) with 0%Q. lra.
  - apply Qltb_ge in E. apply Qltb_ge. rewrite !Qred_correct.
    change (inject_Z 1) with 1%Q. change (inject_Z 0) with 0%Q. lra.
Qed.

Lemma sameColumn_refl column : sameColumn column column = true.
Proof. destruct column as [c|]; [destruct c|]; reflexivity. Qed.

Section Strings.

Variable toLowerCase : string -> string.
Variable trim : string -> string.

Local Abbreviation click := (handleHeaderClick toLowerCase trim).
Local Abbreviation base := (baseData toLowerCase trim).
Local Abbreviation compare := (compareRows toLowerCase).

Lemma compareRows_numeric column mult a b :
  isNumeric column = true ->
  compare (Some column) mult a b
  = ((numericValue column a - numericValue column b) * mult)%num.
Proof. destruct column; intros H; try discriminate; reflexivity. Qed.

Lemma base_In watchlists st r :
  In r (base watchlists st)
  <-> In r (originalData st)
      /\ passesFilters toLowerCase trim watchlists st r.
Proof.
  unfold baseData, passesFilters.
  assert (Hw : In r (watchlistRows watchlists (activeWatchlistId st)
                       (originalData st))
               <-> In r (originalData st)
                   /\ (forall id activeWatchlist,
                         activeWatchlistId st = Some id ->
                         findWatchlist id watchlists = Some activeWatchlist ->
                         includes (coins activeWatchlist) (symbol r) = true)).
  { unfold watchlistRows.
    destruct (activeWatchlistId st) as [id|].
    - destruct (findWatchlist id watchlists) as [w|] eqn:Ef.
      + rewrite filter_In. split.
        * intros [Hin Hc]. split; [exact Hin|].
          intros id' w' Hid Hf. injection Hid as <-.
          rewrite Ef in Hf. injection Hf as <-. exact Hc.
        * intros [Hin Hc]. split; [exact Hin|]. apply (Hc id w); auto.
      + split; [|tauto]. intros Hin. split; [exact Hin|].
        intros id' w' Hid Hf. injection Hid as <-. congruence.
    - split; [|tauto]. intros Hin. split; [exact Hin|].
      intros id' w' Hid. discriminate. }
  unfold searchRows.
  destruct (String.eqb_spec (trim (searchQuery st)) "") as [He|Hne];
    cbn [negb].
  - rewrite Hw. split; [|tauto]. intros [Hin Hc].
    split; [exact Hin|]. split; [exact Hc|]. intros Hq. contradiction.
  - rewrite filter_In, Hw. split.
    + intros [[Hin Hc] Hs]. auto.
    + intros [Hin [Hc Hs]]. auto.
Qed.

Lemma click_unfold watchlists column st :
  click watchlists column st
  = mkState
      (match snd (nextSort column st) with
       | Default => base watchlists st
       | state =>
           sort (compare (fst (nextSort column st)) (sortMultiplier state))
                (base watchlists st)
       end)
      (originalData st) (fst (nextSort column st))
      (snd (nextSort column st)) (activeWatchlistId st) (searchQuery st).
Proof.
  unfold handleHeaderClick. destruct (nextSort column st) as [nc ns].
  destruct ns; reflexivity.
Qed.

(** X15.  A click on a header only reorders the filtered rows: the rows
    on display are a permutation of the fetched rows that belong to the
    active watchlist, when there is one and it is found, and whose
    symbol contains the search text, when there is one.  No row is
    invented, none that passes is dropped, and the fetched rows are left
    alone. *)
Theorem click_keeps_the_filtered_rows (watchlists : list Watchlist)
    (column : SortColumn) (st : State) :
  let st' := click watchlists column st in
  Permutation (data st') (base watchlists st)
  /\ (forall r, In r (data st')
                <-> In r (originalData st)
                    /\ passesFilters toLowerCase trim watchlists st r)
  /\ originalData st' = originalData st.
Proof.
  intros st'. subst st'. rewrite click_unfold. cbn [data originalData].
  assert (Hperm : Permutation
            (match snd (nextSort column st) with
             | Default => base watchlists st
             | state =>
                 sort (compare (fst (nextSort column st))
                               (sortMultiplier state))
                      (base watchlists st)
             end) (base watchlists st)).
  { destruct (snd (nextSort column st));
      [apply sort_permutes|apply sort_permutes|apply Permutation_refl]. }
  split; [exact Hperm|]. split; [|reflexivity].
  intros r. rewrite <- base_In. split; intros Hin.
  - eapply Permutation_in; [exact Hperm|exact Hin].
  - eapply Permutation_in; [apply Permutation_sym, Hperm|exact Hin].
Qed.

Lemma nextSort_fresh column st :
  sortState st = Default \/ sameColumn (sortColumn st) column = false ->
  nextSort column st = (column, Highest).
Proof.
  unfold nextSort. intros [H|H]; rewrite H; [|reflexivity].
  destruct (sameColumn (sortColumn st) column); reflexivity.
Qed.

(** X16.  Clicks on one header run through highest, lowest and back to
    no sort: from a state without sort, or sorted by another column, the
    first click sorts by the column from the highest value, the second
    from the lowest, and the third shows the filtered rows in the order
    in which they were fetched. *)
Theorem three_clicks_restore_fetched_order (watchlists : list Watchlist)
    (column : Column) (st : State) :
  sortState st = Default
  \/ sameColumn (sortColumn st) (Some column) = false ->
  let first := click watchlists (Some column) st in
  let second := click watchlists (Some column) first in
  let third := click watchlists (Some column) second in
  (sortColumn first, sortState first) = (Some column, Highest)
  /\ (sortColumn second, sortState second) = (Some column, Lowest)
  /\ (sortColumn third, sortState third) = (None, Default)
  /\ data third = base watchlists st
  /\ originalData third = originalData st.
Proof.
  intros Hfresh first second third.
  assert (H1 : first
               = mkState
                   (sort (compare (Some column) (sortMultiplier Highest))
                         (base watchlists st))
                   (originalData st) (Some column) Highest
                   (activeWatchlistId st) (searchQuery st)).
  { subst first. rewrite click_unfold, (nextSort_fresh _ _ Hfresh).
    reflexivity. }
  assert (H2 : second
               = mkState
                   (sort (compare (Some column) (sortMultiplier Lowest))
                         (base watchlists st))
                   (originalData st) (Some column) Lowest
                   (activeWatchlistId st) (searchQuery st)).
  { subst second. rewrite H1, click_unfold. unfold nextSort.
    cbn [sortColumn sortState]. rewrite sameColumn_refl. reflexivity. }
  assert (H3 : third
               = mkState (base watchlists st) (originalData st) None Default
                         (activeWatchlistId st) (searchQuery st)).
  { subst third. rewrite H2, click_unfold. unfold nextSort.
    cbn [sortColumn sortState]. rewrite sameColumn_refl. reflexivity. }
  rewrite H1, H2, H3. repeat split; reflexivity.
Qed.

Lemma base_number watchlists (column : Column) st :
  Forall (fun r => numericValue column r <> NaN) (originalData st) ->
  Forall (fun r => numericValue column r <> NaN) (base watchlists st).
Proof.
  intros Hall. apply Forall_forall. intros r Hr.
  apply base_In in Hr. destruct Hr as [Hr _].
  rewrite Forall_forall in Hall. apply Hall. exact Hr.
Qed.

(** X17.  After a click on the header of a numeric column whose values
    are all numbers, the rows on display are in order: from the highest
    value down when the click leads to 'highest', from the lowest value
    up when it leads to 'lowest'.  A missing z-score or open-interest
    change counts as zero. *)
Theorem click_orders_the_rows (watchlists : list Watchlist)
    (column : Column) (st : State) :
  isNumeric column = true ->
  Forall (fun r => numericValue column r <> NaN) (originalData st) ->
  let st' := click watchlists (Some column) st in
  (sortState st' = Highest ->
   StronglySorted (notBelow (numericValue column)) (data st'))
  /\ (sortState st' = Lowest ->
      StronglySorted (notAbove (numericValue column)) (data st')).
Proof.
  intros Hnum Hall st'. subst st'. rewrite click_unfold.
  cbn [data sortState].
  pose proof (base_number watchlists column st Hall) as Hbase.
  assert (Hcol : forall ns, snd (nextSort (Some column) st) = ns ->
                   ns <> Default ->
                   fst (nextSort (Some column) st) = Some column).
  { unfold nextSort. intros ns Hns Hnd.
    destruct (sameColumn (sortColumn st) (Some column)); [|reflexivity].
    destruct (sortState st); cbn [fst snd] in *; congruence. }
  split; intros Hs; rewrite Hs; rewrite (Hcol _ Hs) by discriminate.
  - apply sort_ordered
      with (P := fun r => numericValue column r <> NaN); [| | |exact Hbase].
    + intros x y Px Py H.
      rewrite compareRows_numeric in H by exact Hnum.
      cbn [sortMultiplier] in H. rewrite descending_test in H.
      unfold notBelow. apply ltb_leb_false; assumption.
    + intros x y Px Py H.
      rewrite compareRows_numeric in H by exact Hnum.
      cbn [sortMultiplier] in H. rewrite descending_test in H.
      unfold notBelow. apply ltb_leb. exact H.
    + unfold notBelow. intros x y z Hxy Hyz.
      eapply leb_trans; eassumption.
  - apply sort_ordered
      with (P := fun r => numericValue column r <> NaN); [| | |exact Hbase].
    + intros x y Px Py H.
      rewrite compareRows_numeric in H by exact Hnum.
      cbn [sortMultiplier] in H. rewrite ascending_test in H.
      unfold notAbove. apply ltb_leb_false; assumption.
    + intros x y Px Py H.
      rewrite compareRows_numeric in H by exact Hnum.
      cbn [sortMultiplier] in H. rewrite ascending_test in H.
      unfold notAbove. apply ltb_leb. exact H.
    + unfold notAbove. intros x y z Hxy Hyz.
      eapply leb_trans; eassumption.
Qed.

(** X18.  The effect that runs after a click, because the sort state
    changed, computes the rows the click handler has just put on
    display: the two copies of the filter and of the comparator agree,
    also for a click with no column. *)
Theorem refresh_after_click_changes_nothing (watchlistsMounted : bool)
    (watchlists : list Watchlist) (column : SortColumn) (st : State) :
  refresh toLowerCase trim watchlistsMounted watchlists
          (click watchlists column st)
  = click watchlists column st.
Proof.
  rewrite click_unfold. unfold refresh.
  cbn [originalData sortState sortColumn activeWatchlistId searchQuery].
  destruct (negb watchlistsMounted || (length (originalData st) =? 0)%nat);
    [reflexivity|].
  change (base watchlists
            (mkState
               (match snd (nextSort column st) with
                | Default => base watchlists st
                | state =>
                    sort (compare (fst (nextSort column st))
                                  (sortMultiplier state))
                         (base watchlists st)
                end)
               (originalData st) (fst (nextSort column st))
               (snd (nextSort column st)) (activeWatchlistId st)
               (searchQuery st)))
    with (base watchlists st).
  destruct (snd (nextSort column st));
    destruct (fst (nextSort column st)) as [c|]; try reflexivity.
  - change (compare None (sortMultiplier Highest))
      with (fun _ _ : CryptoData => zero).
    rewrite sort_unsorted. reflexivity.
  - change (compare None (sortMultiplier Lowest))
      with (fun _ _ : CryptoData => zero).
    rewrite sort_unsorted. reflexivity.
Qed.

End Strings.

Import TableSamples.

Lemma three_clicks_restore_fetched_order_witness :
  let click := handleHeaderClick asciiLower trimSpaces [majors] in
  let third :=
    click (Some ByDailyReturn)
      (click (Some ByDailyReturn) (click (Some ByDailyReturn) onMajors)) in
  sortState third = Default
  /\ map symbol (data third) = ["BTCUSDT"; "SOLUSDT"]%string.
Proof.
  destruct (@three_clicks_restore_fetched_order asciiLower trimSpaces
              [majors] ByDailyReturn onMajors)
    as (_ & _ & Hs & Hd & _); [left; reflexivity|].
  cbv zeta in Hs, Hd. cbv zeta.
  split; [exact (f_equal snd Hs)|]. rewrite Hd. reflexivity.
Defined.

Lemma click_orders_the_rows_witness :
  let st' :=
    handleHeaderClick asciiLower trimSpaces [majors] (Some ByDailyReturn)
                      fresh in
  map symbol (data st') = ["ETHUSDT"; "BTCUSDT"; "SOLUSDT"]%string
  /\ StronglySorted (notBelow (numericValue ByDailyReturn)) (data st').
Proof.
  intros st'. split; [reflexivity|].
  apply (@click_orders_the_rows asciiLower trimSpaces [majors]
           ByDailyReturn fresh).
  - reflexivity.
  - repeat constructor; discriminate.
  - reflexivity.
Defined.

End TableProps.

(* ================================================================== *)
(** ** Watchlists and column profiles *)
(* ================================================================== *)

Module HookProps.

Import Watchlists.

Lemma findWatchlist_map (f : Watchlist -> Watchlist) id ws :
  (forall w, wid (f w) = wid w) ->
  findWatchlist id (map f ws) = option_map f (findWatchlist id ws).
Proof.
  intros Hid. unfold findWatchlist.
  induction ws as [|w ws IH]; simpl; [reflexivity|].
  rewrite Hid. destruct (String.eqb (wid w) id); [reflexivity|exact IH].
Qed.

Lemma findWatchlist_id id ws w :
  findWatchlist id ws = Some w -> wid w = id.
Proof.
  unfold findWatchlist. intros H. apply find_some in H.
  destruct H as [_ H]. apply String.eqb_eq. exact H.
Qed.

Lemma includes_app xs ys s :
  includes (xs ++ ys) s = includes xs s || includes ys s.
Proof. unfold includes. apply existsb_app. Qed.

Lemma includes_In xs s : includes xs s = true <-> In s xs.
Proof.
  unfold includes. rewrite existsb_exists. split.
  - intros (x & Hin & Heq). apply String.eqb_eq in Heq. subst. exact Hin.
  - intros Hin. exists s. split; [exact Hin|apply String.eqb_refl].
Qed.

Lemma includes_without xs c s :
  includes (filter (fun x => negb (String.eqb x c)) xs) s
  = includes xs s && negb (String.eqb c s).
Proof.
  unfold includes.
  induction xs as [|x xs IH]; cbn [filter existsb]; [reflexivity|].
  destruct (String.eqb_spec x c) as [Hxc|Hxc]; cbn [negb].
  - subst x. rewrite IH. destruct (String.eqb_spec s c) as [Hsc|Hsc].
    + subst s. rewrite String.eqb_refl. cbn [negb].
      rewrite !andb_false_r. reflexivity.
    + reflexivity.
  - cbn [existsb]. rewrite IH.
    destruct (String.eqb_spec s x) as [Hsx|Hsx]; [|reflexivity].
    subst s. destruct (String.eqb_spec c x) as [Hcx|_];
      [subst; contradiction|reflexivity].
Qed.

(** X19.  Membership after an addition or a removal.  A coin is in a
    watchlist after [addCoinToWatchlist] exactly when it was before, or
    it is the coin added and the watchlist is the one named and exists;
    after [removeCoinFromWatchlist] exactly when it was before and it is
    not the coin removed from that watchlist.  No other watchlist and no
    other coin is affected. *)
Theorem watchlist_membership (ws : list Watchlist)
    (id coin id' coin' : string) :
  isCoinInWatchlist (addCoinToWatchlist id coin ws) id' coin'
  = isCoinInWatchlist ws id' coin'
    || (String.eqb id id' && String.eqb coin coin'
        && match findWatchlist id ws with Some _ => true | None => false end)
  /\ isCoinInWatchlist (removeCoinFromWatchlist id coin ws) id' coin'
     = isCoinInWatchlist ws id' coin'
       && negb (String.eqb id id' && String.eqb coin coin').
Proof.
  unfold isCoinInWatchlist, addCoinToWatchlist, removeCoinFromWatchlist.
  split.
  - rewrite findWatchlist_map
      by (intros w; destruct (String.eqb (wid w) id);
          [destruct (includes (coins w) coin)|]; reflexivity).
    destruct (findWatchlist id' ws) as [w|] eqn:Ef; cbn [option_map].
    + pose proof (findWatchlist_id _ _ Ef) as Hw. rewrite Hw.
      destruct (String.eqb_spec id' id) as [->|Hne].
      * rewrite String.eqb_refl, Ef. cbn [andb]. rewrite andb_true_r.
        destruct (includes (coins w) coin) eqn:Ei.
        -- destruct (String.eqb_spec coin coin') as [<-|_];
             [rewrite Ei; reflexivity|rewrite orb_false_r; reflexivity].
        -- cbn [coins]. rewrite includes_app. unfold includes at 2.
           cbn [existsb]. rewrite orb_false_r, (String.eqb_sym coin' coin).
           reflexivity.
      * destruct (String.eqb_spec id id') as [->|_]; [contradiction|].
        cbn [andb]. rewrite orb_false_r. reflexivity.
    + destruct (String.eqb_spec id id') as [->|_];
        [rewrite Ef, andb_false_r|]; reflexivity.
  - rewrite findWatchlist_map
      by (intros w; destruct (String.eqb (wid w) id); reflexivity).
    destruct (findWatchlist id' ws) as [w|] eqn:Ef; cbn [option_map];
      [|reflexivity].
    pose proof (findWatchlist_id _ _ Ef) as Hw. rewrite Hw.
    destruct (String.eqb_spec id' id) as [->|Hne].
    + rewrite String.eqb_refl. cbn [coins andb].
      apply includes_without.
    + destruct (String.eqb_spec id id') as [->|_]; [contradiction|].
      cbn [andb negb]. rewrite andb_true_r. reflexivity.
Qed.

Lemma filter_absent xs c :
  includes xs c = false ->
  filter (fun x => negb (String.eqb x c)) xs = xs.
Proof.
  unfold includes. induction xs as [|x xs IH]; simpl; [reflexivity|].
  intros H. apply orb_false_iff in H. destruct H as [Hx Hxs].
  rewrite String.eqb_sym, Hx. cbn [negb]. f_equal. apply IH, Hxs.
Qed.

(** X20.  An addition never creates a duplicate and is idempotent, and a
    removal undoes the addition of a coin that was in no watchlist of
    that id.  Ids, names and the order of the watchlists are untouched
    by both. *)
Theorem add_and_remove_coin (ws : list Watchlist) (id coin : string) :
  (Forall (fun w => NoDup (coins w)) ws ->
   Forall (fun w => NoDup (coins w)) (addCoinToWatchlist id coin ws))
  /\ addCoinToWatchlist id coin (addCoinToWatchlist id coin ws)
     = addCoinToWatchlist id coin ws
  /\ ((forall w, In w ws -> wid w = id -> includes (coins w) coin = false) ->
      removeCoinFromWatchlist id coin (addCoinToWatchlist id coin ws) = ws)
  /\ map (fun w => (wid w, wname w)) (addCoinToWatchlist id coin ws)
     = map (fun w => (wid w, wname w)) ws
  /\ map (fun w => (wid w, wname w)) (removeCoinFromWatchlist id coin ws)
     = map (fun w => (wid w, wname w)) ws.
Proof.
  unfold addCoinToWatchlist, removeCoinFromWatchlist.
  split; [|split; [|split; [|split]]].
  - intros Hall. apply Forall_map. eapply Forall_impl; [|exact Hall].
    intros w Hw. cbv beta.
    destruct (String.eqb (wid w) id); [|exact Hw].
    destruct (includes (coins w) coin) eqn:Ei; [exact Hw|].
    cbn [coins]. apply NoDup_app; repeat split.
    + exact Hw.
    + constructor; [intros []|constructor].
    + intros x Hx [<-|[]]. apply includes_In in Hx. congruence.
  - rewrite map_map. apply map_ext. intros w.
    destruct (String.eqb (wid w) id) eqn:Eid; [|rewrite Eid; reflexivity].
    destruct (includes (coins w) coin) eqn:Ei.
    + rewrite Eid, Ei. reflexivity.
    + cbn [wid coins]. rewrite Eid, includes_app.
      unfold includes at 2. cbn [existsb]. rewrite String.eqb_refl.
      rewrite orb_true_r. reflexivity.
  - intros Habsent. rewrite map_map.
    rewrite <- (map_id ws) at 2. apply map_ext_in. intros w Hw.
    destruct (String.eqb_spec (wid w) id) as [Heq|Hne].
    + rewrite (Habsent w Hw Heq). cbn [wid wname coins].
      destruct (String.eqb_spec (wid w) id) as [_|Hn]; [|contradiction].
      rewrite filter_app, (filter_absent _ _ (Habsent w Hw Heq)).
      cbn [filter]. rewrite String.eqb_refl. cbn [negb].
      rewrite app_nil_r. destruct w; reflexivity.
    + destruct (String.eqb_spec (wid w) id) as [Hn|_]; [contradiction|].
      reflexivity.
  - rewrite map_map. apply map_ext. intros w.
    destruct (String.eqb (wid w) id); [|reflexivity].
    destruct (includes (coins w) coin); reflexivity.
  - rewrite map_map. apply map_ext. intros w.
    destruct (String.eqb (wid w) id); reflexivity.
Qed.

Lemma findWatchlist_delete id id' ws :
  findWatchlist id' (deleteWatchlist id ws)
  = if String.eqb id id' then None else findWatchlist id' ws.
Proof.
  unfold findWatchlist, deleteWatchlist.
  induction ws as [|w ws IH]; simpl.
  - destruct (String.eqb id id'); reflexivity.
  - destruct (String.eqb_spec (wid w) id) as [Hw|Hw]; cbn [negb].
    + rewrite IH. destruct (String.eqb_spec id id') as [->|Hne];
        [reflexivity|].
      destruct (String.eqb_spec (wid w) id') as [Hw'|_]; [congruence|].
      reflexivity.
    + cbn [find]. rewrite IH.
      destruct (String.eqb_spec (wid w) id') as [Hw'|Hw'];
        [|reflexivity].
      destruct (String.eqb_spec id id') as [->|_]; [contradiction|].
      reflexivity.
Qed.

Lemma findWatchlist_app id xs ys :
  findWatchlist id (xs ++ ys)
  = match findWatchlist id xs with
    | Some w => Some w
    | None => findWatchlist id ys
    end.
Proof.
  unfold findWatchlist. induction xs as [|x xs IH]; simpl; [reflexivity|].
  destruct (String.eqb (wid x) id); [reflexivity|exact IH].
Qed.

(** X24.  Creating and renaming watchlists never changes which coins the
    watchlists hold: a new watchlist is empty and is appended, so that
    an older watchlist of the same id, if any, is still the one found; a
    renamed watchlist keeps its id and its coins. *)
Theorem create_and_rename_keep_membership (ws : list Watchlist)
    (now : Z) (name id newName id' coin : string) :
  isCoinInWatchlist (fst (createWatchlist now name ws)) id' coin
  = isCoinInWatchlist ws id' coin
  /\ isCoinInWatchlist (renameWatchlist id newName ws) id' coin
     = isCoinInWatchlist ws id' coin
  /\ findWatchlist (snd (createWatchlist now name ws))
       (fst (createWatchlist now name ws)) <> None
  /\ map wid (renameWatchlist id newName ws) = map wid ws.
Proof.
  unfold isCoinInWatchlist, createWatchlist, renameWatchlist.
  cbn [fst snd wid]. split; [|split; [|split]].
  - rewrite findWatchlist_app.
    destruct (findWatchlist id' ws); [reflexivity|].
    unfold findWatchlist. cbn [find wid].
    destruct (String.eqb _ id'); reflexivity.
  - rewrite findWatchlist_map
      by (intros w; destruct (String.eqb (wid w) id); reflexivity).
    destruct (findWatchlist id' ws) as [w|]; cbn [option_map];
      [|reflexivity].
    destruct (String.eqb (wid w) id); reflexivity.
  - rewrite findWatchlist_app.
    destruct (findWatchlist _ ws); [discriminate|].
    unfold findWatchlist. cbn [find wid]. rewrite String.eqb_refl.
    discriminate.
  - rewrite map_map. apply map_ext. intros w.
    destruct (String.eqb (wid w) id); reflexivity.
Qed.

Section Table.

Variable toLowerCase : string -> string.
Variable trim : string -> string.

(** X21.  A deleted watchlist is gone under its id, the others are found
    as before, and a table still set on the deleted watchlist shows the
    rows of all coins instead of none. *)
Theorem deleted_watchlist_shows_all_rows (ws : list Watchlist)
    (id : string) (rows : list CryptoData) :
  findWatchlist id (deleteWatchlist id ws) = None
  /\ (forall id', id' <> id ->
        findWatchlist id' (deleteWatchlist id ws) = findWatchlist id' ws)
  /\ Home.watchlistRows (deleteWatchlist id ws) (Some id) rows = rows.
Proof.
  assert (Hgone : findWatchlist id (deleteWatchlist id ws) = None)
    by (rewrite findWatchlist_delete, String.eqb_refl; reflexivity).
  split; [exact Hgone|]. split.
  - intros id' Hne. rewrite findWatchlist_delete.
    destruct (String.eqb_spec id id') as [->|_]; [contradiction|].
    reflexivity.
  - unfold Home.watchlistRows. rewrite Hgone. reflexivity.
Qed.

End Table.

Import ColumnProfiles ProfileLaws.

Lemma findProfile_some id ps :
  findProfile id ps <> None <-> exists p, In p ps /\ pid p = id.
Proof.
  unfold findProfile. split.
  - destruct (find (fun p => String.eqb (pid p) id) ps) as [p|] eqn:E;
      [intros _|congruence].
    apply find_some in E. destruct E as [Hin Heq].
    exists p. split; [exact Hin|apply String.eqb_eq; exact Heq].
  - intros (p & Hin & Hid) Hnone.
    eapply find_none in Hnone; [|exact Hin].
    cbv beta in Hnone. rewrite Hid, String.eqb_refl in Hnone. discriminate.
Qed.

Lemma activeExists_intro st a :
  activeProfileId st = Some a ->
  (exists p, In p (profiles st) /\ pid p = a) ->
  activeExists st.
Proof.
  intros Ha Hex. apply findProfile_some in Hex.
  destruct (findProfile a (profiles st)) as [p|] eqn:E; [|congruence].
  exists a, p. auto.
Qed.

Lemma activeExists_inv st :
  activeExists st ->
  exists a p, activeProfileId st = Some a /\ In p (profiles st)
              /\ pid p = a.
Proof.
  intros (a & p & Ha & Hf). exists a.
  assert (Hne : findProfile a (profiles st) <> None) by congruence.
  apply findProfile_some in Hne. destruct Hne as (q & Hin & Hq).
  exists q. auto.
Qed.

Lemma firstId_exists ps a :
  firstId ps = Some a -> exists p, In p ps /\ pid p = a.
Proof.
  destruct ps as [|p ps]; simpl; [discriminate|].
  intros H. injection H as <-. exists p. auto.
Qed.

Lemma act_activeExists st a :
  activeExists st -> activeExists (act st a).
Proof.
  intros Hinv. destruct (activeExists_inv Hinv) as (x & p & Hx & Hin & Hp).
  destruct a as [now name hidden|id|id newName|id hidden|id]; cbn [act].
  - unfold createProfile. cbn [fst].
    eapply activeExists_intro; [reflexivity|]. cbn [profiles].
    eexists. split; [apply in_or_app; right; left; reflexivity|].
    reflexivity.
  - unfold deleteProfile.
    set (filtered := filter (fun q => negb (String.eqb (pid q) id))
                            (profiles st)).
    destruct (isActive id st && (0 <? length filtered)%nat) eqn:E1.
    + destruct filtered as [|q rest] eqn:Ef;
        [rewrite andb_false_r in E1; discriminate|].
      eapply activeExists_intro; [reflexivity|]. cbn [profiles].
      exists q. split; [left; reflexivity|reflexivity].
    + destruct (length filtered =? 0)%nat eqn:E2.
      * eapply activeExists_intro; [reflexivity|]. cbn [profiles].
        exists defaultProfile. split; [left; reflexivity|reflexivity].
      * eapply activeExists_intro; [exact Hx|]. cbn [profiles].
        assert (Hpos : (0 <? length filtered)%nat = true).
        { apply Nat.ltb_lt. apply Nat.eqb_neq in E2. lia. }
        rewrite Hpos, andb_true_r in E1.
        unfold isActive in E1. rewrite Hx in E1.
        exists p. split; [|exact Hp].
        subst filtered. apply filter_In. split; [exact Hin|].
        rewrite Hp, String.eqb_sym, E1. reflexivity.
  - unfold renameProfile.
    eapply activeExists_intro; [exact Hx|]. cbn [profiles].
    eexists. split; [apply in_map; exact Hin|].
    destruct (String.eqb (pid p) id); exact Hp.
  - unfold updateProfileColumns.
    eapply activeExists_intro; [exact Hx|]. cbn [profiles].
    eexists. split; [apply in_map; exact Hin|].
    destruct (String.eqb (pid p) id); exact Hp.
  - unfold switchProfile.
    destruct (findProfile id (profiles st)) as [q|] eqn:Ef; cbn [isSome];
      [|exact Hinv].
    exists id, q. auto.
Qed.

(** X22.  The active column profile always exists.  The mount effect
    establishes it unless the storage holds an empty array or a value
    that is no array, and no sequence of creations, deletions,
    renamings, column updates and switches breaks it: deleting the
    active profile moves to the first one left, deleting the last
    profile brings the default one back.  With a non-empty active id,
    [getActiveProfile] then returns a profile of that id. *)
Theorem active_profile_always_exists :
  (forall stored storedActive,
     stored <> NotAnArray -> stored <> Items [] ->
     activeExists (load stored storedActive))
  /\ (forall actions st,
        activeExists st -> activeExists (fold_left act actions st))
  /\ (forall st a,
        activeExists st -> activeProfileId st = Some a -> a <> ""%string ->
        exists p, getActiveProfile st = Some p /\ pid p = a).
Proof.
  split; [|split].
  - intros stored storedActive Hna Hne.
    destruct stored as [| | |items]; try congruence.
    + exists "default"%string, defaultProfile. auto.
    + exists "default"%string, defaultProfile. auto.
    + unfold load, loadList.
      assert (Hfirst : activeExists (mkProfileState items (firstId items))).
      { destruct items as [|p items]; [congruence|].
        eapply activeExists_intro; [reflexivity|].
        exists p. split; [left; reflexivity|reflexivity]. }
      destruct storedActive as [a|]; [|exact Hfirst].
      destruct (truthy (Some a) && isSome (findProfile a items)) eqn:E;
        [|exact Hfirst].
      apply andb_true_iff in E. destruct E as [_ E].
      destruct (findProfile a items) as [p|] eqn:Ef; [|discriminate].
      exists a, p. auto.
  - intros actions. induction actions as [|a rest IH]; intros st Hinv;
      cbn [fold_left]; [exact Hinv|].
    apply IH, act_activeExists, Hinv.
  - intros st a (a' & p & Ha' & Hf) Ha Hne.
    rewrite Ha in Ha'. injection Ha' as <-.
    exists p. unfold getActiveProfile. rewrite Ha.
    unfold truthy.
    destruct (String.eqb_spec a "") as [->|_]; [contradiction|].
    cbn [negb]. split; [exact Hf|].
    unfold findProfile in Hf. apply find_some in Hf.
    apply String.eqb_eq. apply Hf.
Qed.

Import HookSamples.

Lemma add_and_remove_coin_witness :
  removeCoinFromWatchlist "alts" "SOLUSDT"
    (addCoinToWatchlist "alts" "SOLUSDT" lists)
  = lists.
Proof.
  apply (proj1 (proj2 (proj2 (add_and_remove_coin lists "alts" "SOLUSDT")))).
  intros w Hw Hid.
  destruct Hw as [<-|[<-|[]]]; [discriminate|reflexivity].
Defined.

Lemma active_profile_always_exists_witness :
  activeExists (fold_left act session (load NoItem None))
  /\ activeProfileId (fold_left act session (load NoItem None))
     = Some "default"%string.
Proof.
  split; [|reflexivity].
  destruct active_profile_always_exists as (Hload & Hact & _).
  apply Hact, Hload; discriminate.
Defined.

End HookProps.

(* ================================================================== *)
(** ** The indicators of a published record *)
(* ================================================================== *)

Module RecordProps.

Import JsArray Retry Indicators Market Universe Pipeline Handler.
Import NumProps IndicatorProps PipelineProps PublicationProps.
Import IndicatorLaws.

Lemma Forall_skipn (A : Type) (P : A -> Prop) n (xs : list A) :
  Forall P xs -> Forall P (skipn n xs).
Proof.
  intros H. rewrite <- (firstn_skipn n xs) in H.
  apply Forall_app in H. tauto.
Qed.

(** *** VWAP *)

Lemma calculateVWAP_guarded price klines days :
  (1 <= days)%nat ->
  let c := calculateVWAP price klines days in
  vwapGuarded price klines days (vwap c) (distance c).
Proof.
  intros Hdays c.
  destruct (calculateVWAP_law price klines days)
    as (Hratio & Hzero & Hdist & _ & Hwin & _).
  cbv zeta in Hratio, Hzero, Hdist, Hwin.
  rewrite (Hwin Hdays) in Hratio, Hzero.
  split; [exact Hratio|]. split; [exact Hzero|exact Hdist].
Qed.

Lemma calculateVWAP_specified price klines days :
  (1 <= days)%nat ->
  positiveFinite price = true ->
  Forall (fun k => marketCandle k = true) klines ->
  let c := calculateVWAP price klines days in
  vwapSpecified price klines days (vwap c) (distance c).
Proof.
  intros Hdays Hprice Hmarket c.
  destruct (calculateVWAP_law price klines days)
    as (Hratio & Hzero & _ & _ & Hwin & Hlaw).
  cbv zeta in Hratio, Hzero, Hwin, Hlaw.
  rewrite (Hwin Hdays) in Hratio, Hzero, Hlaw.
  destruct (Hlaw Hprice (Forall_skipn _ Hmarket))
    as (Hcases & _ & Hdist).
  split; [|split; [exact Hzero|exact Hdist]].
  intros Hnot. apply Hratio.
  destruct Hcases as [Hz|Hpos]; [|exact Hpos].
  exfalso. apply Hnot. exact Hz.
Qed.

(** *** Z-score *)

Lemma historicalReturns_valid (window : list Kline) :
  historicalReturns window
  = map returnOf (filter validPair (combine window (tl window))).
Proof.
  induction window as [|prev rest IH]; [reflexivity|].
  destruct rest as [|curr rest']; [reflexivity|].
  change (historicalReturns (prev :: curr :: rest'))
    with (if validPair (prev, curr)
          then returnOf (prev, curr) :: historicalReturns (curr :: rest')
          else historicalReturns (curr :: rest')).
  rewrite IH.
  change (combine (prev :: curr :: rest') (tl (prev :: curr :: rest')))
    with ((prev, curr) :: combine (curr :: rest') (tl (curr :: rest'))).
  cbn [filter]. destruct (validPair (prev, curr)); reflexivity.
Qed.

Lemma historicalReturns_recent (klines : list Kline) :
  historicalReturns (sliceLast 31 klines) = validReturns klines.
Proof. apply historicalReturns_valid. Qed.

Section WithSqrt.

Variable sqrtQ : Q -> Q.

(** The fields of a published record are those computed from the
    ticker and from the daily candles the task fetched. *)
Lemma record_of_daily_candles ticker f klinesResponse r :
  completion (retryWithBackoffDefault (fetchKlines1d f))
  = Returned klinesResponse ->
  processTicker sqrtQ ticker f = Some r ->
  computeRecord sqrtQ ticker (dataOrEmpty klinesResponse)
    (Fetched.fetched4h f) (oiChanges f) = Some r.
Proof.
  intros Hresp Hp.
  destruct (processTicker_fields _ _ _ Hp) as (resp & Hresp' & Hc).
  rewrite Hresp in Hresp'. injection Hresp' as <-. exact Hc.
Qed.



End WithSqrt.

Import Samples IndicatorSamples.



Import PrimFloat Binary64.


(** The sign can be lost as well.  Thirty-one daily candles close in
    turn at 2^-532 and 1, and the current price is 2^-532, the last
    close.  The squared deviations overflow, the standard deviation is
    +Infinity, and the z-score is zero although the mean exceeds today's
    return, which is zero. *)
Lemma zscore_rounds_to_zero :
  stdDev64 (historicalReturns64 (alternating 31 tinyClose 1)) = infinity
  /\ calcZScore64 tinyClose (alternating 31 tinyClose 1) 0%float
     = Some 0%float
  /\ ~ signMatches.
Proof.
  split; [vm_compute; reflexivity|].
  split; [vm_compute; reflexivity|].
  intros Hlaw.
  assert (H : (0 <? 0)%float = true).
  { apply (Hlaw tinyClose (alternating 31 tinyClose 1) 0%float 0%float).
    - vm_compute. reflexivity.
    - vm_compute. reflexivity.
    - vm_compute. lia.
    - vm_compute. lia.
    - vm_compute. reflexivity.
    - vm_compute. reflexivity.
    - vm_compute. reflexivity. }
  vm_compute in H. discriminate H.
Qed.

End RecordProps.
